(** * opendota-mcp: the query dispatcher, the API client and the tool router

    A shallow embedding of [src/index.ts] and [src/opendota-client.ts]
    (with the error classes and the logger configuration of
    [src/logger.ts], and the copy of the parser that the unit test
    keeps).

    - JavaScript strings are sequences of UTF-16 code units ([jsstr]).
    - The five regular expressions of [parseNaturalQuery] are values of a
      small regex syntax, run by a backtracking matcher that follows the
      ECMAScript semantics (leftmost start, greedy quantifiers, captures).
    - The client and the router run in a state-and-exception monad over the
      object heap, the trace of upstream calls and the log. *)

From Stdlib Require Import ZArith NArith Lia Ascii String.
From stdpp Require Import base strings gmap list.

Set Default Proof Using "Type".
Set Warnings "-register-all".
Local Open Scope N_scope.

(* ================================================================== *)
(** ** JavaScript strings *)

Module JsString.

(** A UTF-16 code unit. *)
Definition char := N.

(** A JavaScript string value. *)
Definition jsstr := list char.

(** An ASCII source literal as a JavaScript string. *)
Definition js (s : string) : jsstr :=
  map N_of_ascii (list_ascii_of_string s).

(** [a === b] on strings. *)
Fixpoint jsstr_eqb (a b : jsstr) : bool :=
  match a, b with
  | [], [] => true
  | x :: a', y :: b' => (x =? y) && jsstr_eqb a' b'
  | _, _ => false
  end.

(** [\d] *)
Definition is_digit (c : char) : bool := (48 <=? c) && (c <=? 57).

(** [\s]: WhiteSpace and LineTerminator code points. *)
Definition is_space (c : char) : bool :=
  ((9 <=? c) && (c <=? 13)) || (c =? 32) || (c =? 160) || (c =? 5760)
  || ((8192 <=? c) && (c <=? 8202)) || (c =? 8232) || (c =? 8233)
  || (c =? 8239) || (c =? 8287) || (c =? 12288) || (c =? 65279).

(** Canonicalize of the [i] flag (no [u] flag): upper-casing, except that a
    code unit of 128 or more is never mapped below 128.  Every pattern
    character of this program is ASCII, and against those only the ASCII
    part of the mapping can decide a comparison, so that is what is kept. *)
Definition canonicalize (c : char) : char :=
  if (97 <=? c) && (c <=? 122) then c - 32 else c.

(** [String.prototype.includes]. *)
Fixpoint starts_with (p s : jsstr) : bool :=
  match p, s with
  | [], _ => true
  | _ :: _, [] => false
  | a :: p', b :: s' => (a =? b) && starts_with p' s'
  end.

Fixpoint includes (s sub : jsstr) : bool :=
  starts_with sub s ||
  match s with
  | [] => false
  | _ :: s' => includes s' sub
  end.

End JsString.
Export JsString.

(* ================================================================== *)
(** ** JavaScript numbers, as far as [parseInt] produces them *)

Module JsNumber.

(** The Number values that are integers, the zero of negative sign, the
    infinities and NaN. *)
Inductive number :=
| Finite (z : Z)
| NegZero
| PosInf
| NegInf
| NaN.

#[global] Instance number_eq_dec : EqDecision number.
Proof. solve_decision. Defined.

(** The Number value of a natural number: round to nearest, ties to even,
    on a 53-bit significand; overflow to infinity from [2^1024]. *)
Definition to_double (n : Z) : number :=
  if (n <? 2 ^ 53)%Z then Finite n
  else
    let e := (Z.log2 n - 52)%Z in
    let q := Z.shiftr n e in
    let r := (n mod 2 ^ e)%Z in
    let half := (2 ^ (e - 1))%Z in
    let q' := if (r >? half)%Z || ((r =? half)%Z && Z.odd q)
              then (q + 1)%Z else q in
    let v := (q' * 2 ^ e)%Z in
    if (v >=? 2 ^ 1024)%Z then PosInf else Finite v.

Definition negate (x : number) : number :=
  match x with
  | Finite 0 => NegZero
  | Finite z => Finite (- z)
  | NegZero => Finite 0
  | PosInf => NegInf
  | NegInf => PosInf
  | NaN => NaN
  end.

(** The value of a digit in radix 10 or 16. *)
Definition digit_value (radix : Z) (c : char) : option Z :=
  let v :=
    if is_digit c then Some (Z.of_N c - 48)%Z
    else if (97 <=? c) && (c <=? 122) then Some (Z.of_N c - 87)%Z
    else if (65 <=? c) && (c <=? 90) then Some (Z.of_N c - 55)%Z
    else None in
  match v with
  | Some d => if (d <? radix)%Z then Some d else None
  | None => None
  end.

(** The longest prefix of digits of the radix, folded into its value;
    [None] when that prefix is empty. *)
Fixpoint digits_value (radix : Z) (acc : option Z) (s : jsstr) : option Z :=
  match s with
  | [] => acc
  | c :: s' =>
      match digit_value radix c with
      | Some d =>
          digits_value radix (Some (default 0%Z acc * radix + d)%Z) s'
      | None => acc
      end
  end.

Fixpoint skip_space (s : jsstr) : jsstr :=
  match s with
  | c :: s' => if is_space c then skip_space s' else s
  | [] => []
  end.

(** [parseInt(string)] with no radix argument.  The mathematical value of
    the digits is taken exactly before rounding to a Number. *)
Definition parseInt (input : jsstr) : number :=
  let s := skip_space input in
  let '(neg, s) :=
    match s with
    | 45 :: s' => (true, s')
    | 43 :: s' => (false, s')
    | _ => (false, s)
    end in
  let '(radix, s) :=
    match s with
    | 48 :: x :: s' =>
        if (x =? 120) || (x =? 88) then (16%Z, s') else (10%Z, s)
    | _ => (10%Z, s)
    end in
  match digits_value radix None s with
  | None => NaN
  | Some v => if neg then negate (to_double v) else to_double v
  end.

End JsNumber.
Export JsNumber.

(* ================================================================== *)
(** ** Regular expressions *)

Module Regex.

(** One-character matchers. *)
Inductive cset :=
| CChar (c : char)              (* a pattern character *)
| CDigit                        (* \d *)
| CSpace                        (* \s *)
| COneOf (l : list char)        (* [...] *)
| CNoneOf (l : list char).      (* [^...] *)

Inductive regex :=
| Eps
| Atom (a : cset)
| Seq (r1 r2 : regex)
| Alt (r1 r2 : regex)           (* r1|r2 *)
| Opt (r : regex)               (* (?:r)? *)
| Plus (a : cset)               (* a+ *)
| Group (n : nat) (r : regex).  (* the n-th capturing group *)

(** A literal word. *)
Definition Str (s : string) : regex :=
  foldr (fun c r => Seq (Atom (CChar c)) r) Eps (js s).

(** All five patterns carry the [i] flag. *)
Definition in_class (l : list char) (x : char) : bool :=
  existsb (fun a => canonicalize a =? canonicalize x) l.

Definition accepts (a : cset) (x : char) : bool :=
  match a with
  | CChar c => canonicalize c =? canonicalize x
  | CDigit => is_digit x
  | CSpace => is_space x
  | COneOf l => in_class l x
  | CNoneOf l => negb (in_class l x)
  end.

(** Captures: group number and captured text, the latest first; a group
    that did not take part in the match has no entry ([undefined] in the
    match array). *)
Definition captures := list (nat * jsstr).

(** [m[n]] *)
Fixpoint capture (n : nat) (c : captures) : option jsstr :=
  match c with
  | [] => None
  | (i, v) :: c' => if Nat.eqb i n then Some v else capture n c'
  end.

Definition cont := jsstr -> captures -> option captures.

(** Greedy repetition of a one-character matcher: the longest run first,
    then shorter ones on backtracking. *)
Fixpoint star (a : cset) (s : jsstr) (c : captures) (k : cont)
  : option captures :=
  match s with
  | x :: s' =>
      if accepts a x then
        match star a s' c k with
        | Some res => Some res
        | None => k s c
        end
      else k s c
  | [] => k s c
  end.

Definition plus (a : cset) (s : jsstr) (c : captures) (k : cont)
  : option captures :=
  match s with
  | x :: s' => if accepts a x then star a s' c k else None
  | [] => None
  end.

(** The backtracking matcher, in continuation-passing style: [s] is the
    rest of the input, [k] the rest of the pattern. *)
Fixpoint run (r : regex) (s : jsstr) (c : captures) (k : cont)
  : option captures :=
  match r with
  | Eps => k s c
  | Atom a =>
      match s with
      | x :: s' => if accepts a x then k s' c else None
      | [] => None
      end
  | Seq r1 r2 => run r1 s c (fun s1 c1 => run r2 s1 c1 k)
  | Alt r1 r2 =>
      match run r1 s c k with
      | Some res => Some res
      | None => run r2 s c k
      end
  | Opt r1 =>
      match run r1 s c k with
      | Some res => Some res
      | None => k s c
      end
  | Plus a => plus a s c k
  | Group n r1 =>
      run r1 s c
        (fun s1 c1 => k s1 ((n, take (length s - length s1) s) :: c1))
  end.

(** A match attempt at the start of [s]; group 0 is the whole match. *)
Definition match_here (r : regex) (s : jsstr) : option captures :=
  run (Group 0 r) s [] (fun _ c => Some c).

(** [RegExp.prototype.exec] for a pattern without the [g] and [y] flags:
    the first start position, from the left, at which a match exists. *)
Fixpoint exec (r : regex) (s : jsstr) : option captures :=
  match match_here r s with
  | Some c => Some c
  | None =>
      match s with
      | [] => None
      | _ :: s' => exec r s'
      end
  end.

End Regex.
Export Regex.

(* ================================================================== *)
(** ** JavaScript values *)

Module JsValue.

(** The values the program passes around: JSON data, [undefined], and
    error objects (an error is kept with its name, message and own
    properties when it is stored inside another value). *)
Inductive value :=
| VUndef
| VNull
| VBool (b : bool)
| VNum (n : number)
| VStr (s : jsstr)
| VArr (l : list value)
| VObj (o : list (string * value))
| VError (name message : jsstr) (o : list (string * value)).

(** Property read [o.key] on an object literal. *)
Fixpoint get_field (key : string) (o : list (string * value)) : value :=
  match o with
  | [] => VUndef
  | (k, v) :: o' => if String.eqb k key then v else get_field key o'
  end.

Definition get (key : string) (v : value) : value :=
  match v with
  | VObj o => get_field key o
  | VError _ _ o => get_field key o
  | _ => VUndef
  end.

(** ToBoolean. *)
Definition truthy (v : value) : bool :=
  match v with
  | VUndef | VNull => false
  | VBool b => b
  | VNum (Finite 0) | VNum NegZero | VNum NaN => false
  | VNum _ => true
  | VStr [] => false
  | VStr _ => true
  | VArr _ | VObj _ | VError _ _ _ => true
  end.

End JsValue.
Export JsValue.

(* ================================================================== *)
(** ** The query dispatcher ([parseNaturalQuery], src/index.ts) *)

Module Dispatcher.

(** [/(?:match|game)\s+(?:id\s+)?(\d+)/i] *)
Definition matchIdPattern : regex :=
  Seq (Alt (Str "match") (Str "game"))
  (Seq (Plus CSpace)
  (Seq (Opt (Seq (Str "id") (Plus CSpace)))
       (Group 1 (Plus CDigit)))).

(** The character class of the source pattern: the double quote (code
    unit 34, written twice there) and the apostrophe (39). *)
Definition quotes : list char := [34; 34; 39].

(** [/(?:player|user)\s+(?:named\s+)?Q([^Q]+)Q/i], where Q stands for the
    class [quotes] in brackets. *)
Definition playerNamePattern : regex :=
  Seq (Alt (Str "player") (Str "user"))
  (Seq (Plus CSpace)
  (Seq (Opt (Seq (Str "named") (Plus CSpace)))
  (Seq (Atom (COneOf quotes))
  (Seq (Group 1 (Plus (CNoneOf quotes)))
       (Atom (COneOf quotes)))))).

(** [/(?:player|user)\s+(?:id\s+)?(\d+)/i] *)
Definition playerIdPattern : regex :=
  Seq (Alt (Str "player") (Str "user"))
  (Seq (Plus CSpace)
  (Seq (Opt (Seq (Str "id") (Plus CSpace)))
       (Group 1 (Plus CDigit)))).

(** [/recent\s+matches?\s+(?:for\s+)?(?:player\s+)?(?:id\s+)?(\d+)/i] *)
Definition recentMatchesPattern : regex :=
  Seq (Str "recent")
  (Seq (Plus CSpace)
  (Seq (Str "matche")
  (Seq (Opt (Atom (CChar 115)))
  (Seq (Plus CSpace)
  (Seq (Opt (Seq (Str "for") (Plus CSpace)))
  (Seq (Opt (Seq (Str "player") (Plus CSpace)))
  (Seq (Opt (Seq (Str "id") (Plus CSpace)))
       (Group 1 (Plus CDigit))))))))).

(** [/(?:heroes?\s+(?:for\s+)?(?:player\s+)?(?:id\s+)?(\d+)|player\s+(\d+)\s+heroes?)/i] *)
Definition playerHeroesPattern : regex :=
  Alt
    (Seq (Str "heroe")
    (Seq (Opt (Atom (CChar 115)))
    (Seq (Plus CSpace)
    (Seq (Opt (Seq (Str "for") (Plus CSpace)))
    (Seq (Opt (Seq (Str "player") (Plus CSpace)))
    (Seq (Opt (Seq (Str "id") (Plus CSpace)))
         (Group 1 (Plus CDigit))))))))
    (Seq (Str "player")
    (Seq (Plus CSpace)
    (Seq (Group 2 (Plus CDigit))
    (Seq (Plus CSpace)
    (Seq (Str "heroe")
         (Opt (Atom (CChar 115)))))))).

(** [{ type: string; params: any }] *)
Record DispatchResult := {
  type : jsstr;
  params : list (string * value);
}.

(** [match[n]] handed to [parseInt]: an absent group is [undefined], whose
    string form has no digits. *)
Definition parseInt_capture (x : option jsstr) : number :=
  match x with
  | Some s => parseInt s
  | None => parseInt (js "undefined")
  end.

(** [a || b] on two entries of a match array. *)
Definition or_else (a b : option jsstr) : option jsstr :=
  match a with
  | Some (_ :: _) => a
  | _ => b
  end.

(** [match[1]] as a value. *)
Definition capture_value (x : option jsstr) : value :=
  match x with
  | Some s => VStr s
  | None => VUndef
  end.

Definition parseNaturalQuery (query : jsstr) : DispatchResult :=
  match exec matchIdPattern query with
  | Some m =>
      {| type := js "get_match";
         params := [("match_id"%string, VNum (parseInt_capture (capture 1 m)))] |}
  | None =>
  match exec playerNamePattern query with
  | Some m =>
      {| type := js "search_players";
         params := [("query"%string, capture_value (capture 1 m))] |}
  | None =>
  match exec playerIdPattern query with
  | Some m =>
      {| type := js "get_player";
         params := [("account_id"%string, VNum (parseInt_capture (capture 1 m)))] |}
  | None =>
  match exec recentMatchesPattern query with
  | Some m =>
      {| type := js "get_player_recent_matches";
         params := [("account_id"%string, VNum (parseInt_capture (capture 1 m)))] |}
  | None =>
  match exec playerHeroesPattern query with
  | Some m =>
      let accountId := parseInt_capture (or_else (capture 1 m) (capture 2 m)) in
      {| type := js "get_player_heroes";
         params := [("account_id"%string, VNum accountId)] |}
  | None =>
      {| type := js "search";
         params := [("query"%string, VStr query)] |}
  end end end end end.

End Dispatcher.
Export Dispatcher.


(* ================================================================== *)
(** ** The error classes (src/logger.ts) *)

Module Errors.

(** The prototype an error object was given by [Object.setPrototypeOf]. *)
Inductive error_class :=
| ClsMCPError
| ClsValidationError
| ClsAPIError
| ClsTimeoutError.

#[global] Instance error_class_eq_dec : EqDecision error_class.
Proof. solve_decision. Defined.

Record MCPError := {
  cls : error_class;
  name : jsstr;
  message : jsstr;
  code : jsstr;
  statusCode : number;
  details : value;           (* [VUndef] when not given *)
}.

(** [new MCPError(message, code = 'MCP_ERROR', statusCode = 500, details?)] *)
Definition new_MCPError (message : jsstr) (code : option jsstr)
    (statusCode : option number) (details : value) : MCPError :=
  {| cls := ClsMCPError;
     name := js "MCPError";
     message := message;
     code := default (js "MCP_ERROR") code;
     statusCode := default (Finite 500) statusCode;
     details := details |}.

Definition with_class (c : error_class) (n : jsstr) (e : MCPError) : MCPError :=
  {| cls := c; name := n; message := message e; code := code e;
     statusCode := statusCode e; details := details e |}.

(** [new ValidationError(message, details?)] *)
Definition new_ValidationError (message : jsstr) (details : value) : MCPError :=
  with_class ClsValidationError (js "ValidationError")
    (new_MCPError message (Some (js "VALIDATION_ERROR")) (Some (Finite 400)) details).

(** [new APIError(message, statusCode = 500, details?)] *)
Definition new_APIError (message : jsstr) (statusCode : option number)
    (details : value) : MCPError :=
  with_class ClsAPIError (js "APIError")
    (new_MCPError message (Some (js "API_ERROR"))
       (Some (default (Finite 500) statusCode)) details).

(** [new TimeoutError(message = 'Operation timed out', details?)] *)
Definition new_TimeoutError (message : option jsstr) (details : value) : MCPError :=
  with_class ClsTimeoutError (js "TimeoutError")
    (new_MCPError (default (js "Operation timed out") message)
       (Some (js "TIMEOUT_ERROR")) (Some (Finite 408)) details).

End Errors.

(* ================================================================== *)
(** ** What the HTTP library hands back *)

Module Axios.

Record AxiosResponse := {
  status : number;
  data : value;
}.

(** The rejection value of [axios.get]; [code] and [response] may be
    absent. *)
Record AxiosError := {
  message : jsstr;
  code : option jsstr;
  response : option AxiosResponse;
}.

Inductive outcome :=
| Resolve (r : AxiosResponse)
| Reject (e : AxiosError).

(** The error object seen as a value, for when it is stored in the details
    of another error. *)
Definition error_value (e : AxiosError) : value :=
  VError (js "AxiosError") (message e)
    [("code"%string, match code e with Some c => VStr c | None => VUndef end);
     ("response"%string,
      match response e with
      | Some r => VObj [("status"%string, VNum (status r));
                        ("data"%string, data r)]
      | None => VUndef
      end)].

End Axios.

(* ================================================================== *)
(** ** Heap, traces and the effect monad *)

Module Effects.

Definition loc := nat.

(** A mutable object: property name to value. *)
Abbreviation object := (gmap string value).

(** What can be thrown. *)
Inductive thrown :=
| ThrowZod (errors : list value)      (* instanceof z.ZodError *)
| ThrowMCP (e : Errors.MCPError)      (* instanceof MCPError *)
| ThrowError (message : jsstr)        (* any other instance of Error *)
| ThrowValue (v : value).             (* not an Error at all *)

(** One upstream GET as issued: URL, the query parameters as the params
    object held them at that moment, timeout and User-Agent header. *)
Record request := {
  req_url : jsstr;
  req_params : object;
  req_timeout : number;
  req_userAgent : jsstr;
}.

(** Log entries (durations are left out). *)
Inductive log_event :=
| ApiRequestStart (url : jsstr) (params : object)
| ApiCall (url : jsstr) (statusCode : option number) (error : option Errors.MCPError)
| ToolRequestStart (toolName : jsstr) (args : value)
| ToolExecution (toolName : jsstr) (args : value) (success : bool)
                (error : option Errors.MCPError).

Record state := {
  heap : gmap loc object;
  calls : list request;        (* upstream calls, oldest first *)
  logs : list log_event;       (* log entries, oldest first *)
}.

Definition initial : state := {| heap := ∅; calls := []; logs := [] |}.

Inductive result (A : Type) :=
| Ok (a : A)
| Throw (e : thrown).
Arguments Ok {A} a.
Arguments Throw {A} e.

Definition M (A : Type) : Type := state -> result A * state.

Definition ret {A} (a : A) : M A := fun st => (Ok a, st).

Definition throw {A} (e : thrown) : M A := fun st => (Throw e, st).

Definition bind {A B} (m : M A) (f : A -> M B) : M B :=
  fun st =>
    match m st with
    | (Ok a, st') => f a st'
    | (Throw e, st') => (Throw e, st')
    end.

#[global] Instance M_ret : MRet M := @ret.
#[global] Instance M_bind : MBind M := fun A B f m => bind m f.

(** [try { m } catch (error) { h error }] *)
Definition try_catch {A} (m : M A) (h : thrown -> M A) : M A :=
  fun st =>
    match m st with
    | (Ok a, st') => (Ok a, st')
    | (Throw e, st') => h e st'
    end.

(** A fresh object ([{...}]): the first location the heap does not use. *)
Definition alloc (o : object) : M loc :=
  fun st =>
    let l := fresh (dom (heap st)) in
    (Ok l, {| heap := <[l := o]> (heap st); calls := calls st; logs := logs st |}).

(** The object behind a reference (empty if the reference dangles). *)
Definition read (l : loc) : M object :=
  fun st => (Ok (default ∅ (heap st !! l)), st).

(** [obj.key = v] *)
Definition set_prop (l : loc) (key : string) (v : value) : M unit :=
  fun st =>
    (Ok tt,
     {| heap := <[l := <[key := v]> (default ∅ (heap st !! l))]> (heap st);
        calls := calls st; logs := logs st |}).

Definition log (e : log_event) : M unit :=
  fun st => (Ok tt, {| heap := heap st; calls := calls st; logs := logs st ++ [e] |}).

Definition record_call (r : request) : M unit :=
  fun st => (Ok tt, {| heap := heap st; calls := calls st ++ [r]; logs := logs st |}).

End Effects.

(* ================================================================== *)
(** ** The API client (src/opendota-client.ts) *)

Module Client.
Import Effects.

(** [process.env] *)
Abbreviation environment := (gmap string jsstr).

(** [process.env.X || fallback] *)
Definition env_or (env : environment) (key : string) (fallback : jsstr) : jsstr :=
  match env !! key with
  | Some (c :: s) => c :: s
  | _ => fallback
  end.

Record OpenDotaClient := {
  baseURL : jsstr;
  timeout : number;
  apiKey : option jsstr;
  userAgent : jsstr;
}.

(** The constructor. *)
Definition new_OpenDotaClient (env : environment) : OpenDotaClient :=
  {| apiKey := env !! "OPENDOTA_API_KEY"%string;
     baseURL := env_or env "OPENDOTA_BASE_URL" (js "https://api.opendota.com/api");
     timeout := parseInt (env_or env "OPENDOTA_TIMEOUT" (js "30000"));
     userAgent := env_or env "USER_AGENT" (js "OpenDota-MCP-Server/1.0.0") |}.

(** [statusCode || 500] *)
Definition status_or_500 (statusCode : option number) : number :=
  match statusCode with
  | Some n => if truthy (VNum n) then n else Finite 500
  | None => Finite 500
  end.

(** The test of the catch block:
    [error.code === 'ECONNABORTED' || error.message.includes('timeout')] *)
Definition is_timeout (error : Axios.AxiosError) : bool :=
  match Axios.code error with
  | Some c => jsstr_eqb c (js "ECONNABORTED")
  | None => false
  end
  || includes (Axios.message error) (js "timeout").

Definition opt_value (x : option jsstr) : value :=
  match x with
  | Some s => VStr s
  | None => VUndef
  end.

(** [error.response?.data] *)
Definition response_data (error : Axios.AxiosError) : value :=
  match Axios.response error with
  | Some r => Axios.data r
  | None => VUndef
  end.

Section WithRuntime.

(** ToString of the language, as template literals apply it. *)
Variable ToString : value -> jsstr.

(** The upstream service behind [axios.get]. *)
Variable upstream : request -> Axios.outcome.

Variable this : OpenDotaClient.

Definition failed_message (error : Axios.AxiosError) : jsstr :=
  js "OpenDota API request failed: " ++ Axios.message error.

(** The error the catch block of [makeRequest] throws. *)
Definition classify (error : Axios.AxiosError) : Errors.MCPError :=
  let statusCode := Axios.status <$> Axios.response error in
  if is_timeout error then
    Errors.new_TimeoutError
      (Some (js "OpenDota API request timed out after "
             ++ ToString (VNum (timeout this)) ++ js "ms"))
      (VObj [("originalError"%string, Axios.error_value error)])
  else
    Errors.new_APIError (failed_message error)
      (Some (status_or_500 statusCode))
      (VObj [("code"%string, opt_value (Axios.code error));
             ("response"%string, response_data error);
             ("originalError"%string, Axios.error_value error)]).

(** [makeRequest(endpoint, params = {})]; [params] is a reference to the
    caller's object when one is passed. *)
Definition makeRequest (endpoint : jsstr) (params : option loc) : M value :=
  params ← match params with
           | Some l => mret l
           | None => alloc ∅
           end;
  let url := baseURL this ++ endpoint in
  match apiKey this with
  | Some (c :: k) => set_prop params "api_key" (VStr (c :: k))
  | _ => mret tt
  end;;
  sent ← read params;
  log (ApiRequestStart url sent);;
  let req := {| req_url := url; req_params := sent;
                req_timeout := timeout this;
                req_userAgent := userAgent this |} in
  record_call req;;
  match upstream req with
  | Axios.Resolve response =>
      log (ApiCall url (Some (Axios.status response)) None);;
      mret (Axios.data response)
  | Axios.Reject error =>
      let statusCode := Axios.status <$> Axios.response error in
      log (ApiCall url statusCode
             (Some (Errors.new_APIError (failed_message error)
                      (Some (status_or_500 statusCode))
                      (VObj [("code"%string, opt_value (Axios.code error));
                             ("response"%string, response_data error)]))));;
      throw (ThrowMCP (classify error))
  end.

Definition getMatch (matchId : value) : M value :=
  makeRequest (js "/matches/" ++ ToString matchId) None.

Definition getPlayer (accountId : value) : M value :=
  makeRequest (js "/players/" ++ ToString accountId) None.

(** [getPlayerMatches(accountId, options = {})] *)
Definition getPlayerMatches (accountId : value) (options : option loc) : M value :=
  options ← match options with
            | Some l => mret l
            | None => alloc ∅
            end;
  makeRequest (js "/players/" ++ ToString accountId ++ js "/matches") (Some options).

Definition getPlayerRecentMatches (accountId : value) : M value :=
  makeRequest (js "/players/" ++ ToString accountId ++ js "/recentMatches") None.

Definition getPlayerHeroes (accountId : value) : M value :=
  makeRequest (js "/players/" ++ ToString accountId ++ js "/heroes") None.

Definition getHeroes : M value :=
  makeRequest (js "/heroes") None.

Definition searchPlayers (query : value) : M value :=
  params ← alloc {[ "q"%string := query ]};
  makeRequest (js "/search") (Some params).

Definition getProMatches : M value :=
  makeRequest (js "/proMatches") None.

Definition getPublicMatches : M value :=
  makeRequest (js "/publicMatches") None.

End WithRuntime.

End Client.

(* ================================================================== *)
(** ** Input schemas *)

Module Zod.
Import Effects.

(** The schema combinators the tool schemas are built from (zod 3):
    [z.number()], [z.string()], [.optional()]. *)
Inductive ztype :=
| ZNumber
| ZString
| ZOptional (t : ztype).

(** The shape handed to [z.object]. *)
Definition shape := list (string * ztype).

(** The type name zod reports for a received value. *)
Definition parsed_type (v : value) : jsstr :=
  match v with
  | VUndef => js "undefined"
  | VNull => js "null"
  | VBool _ => js "boolean"
  | VNum NaN => js "nan"
  | VNum _ => js "number"
  | VStr _ => js "string"
  | VArr _ => js "array"
  | VObj _ | VError _ _ _ => js "object"
  end.

(** An [invalid_type] issue. *)
Definition invalid_type (expected : jsstr) (path : list string) (v : value) : value :=
  VObj [("code"%string, VStr (js "invalid_type"));
        ("expected"%string, VStr expected);
        ("received"%string, VStr (parsed_type v));
        ("path"%string, VArr (map (fun k => VStr (js k)) path));
        ("message"%string,
         VStr (match v with
               | VUndef => js "Required"
               | _ => js "Expected " ++ expected ++ js ", received " ++ parsed_type v
               end))].

(** The issues one field raises. *)
Fixpoint check (t : ztype) (path : list string) (v : value) : list value :=
  match t with
  | ZNumber =>
      match v with
      | VNum NaN => [invalid_type (js "number") path v]
      | VNum _ => []
      | _ => [invalid_type (js "number") path v]
      end
  | ZString =>
      match v with
      | VStr _ => []
      | _ => [invalid_type (js "string") path v]
      end
  | ZOptional t' =>
      match v with
      | VUndef => []
      | _ => check t' path v
      end
  end.

(** [z.object(shape).parse(input)]: the fields of the shape (unknown keys
    are stripped), or a thrown [ZodError] with every issue found. *)
Definition parse (sh : shape) (input : value) : M (list (string * value)) :=
  match input with
  | VObj o =>
      match flat_map (fun '(k, t) => check t [k] (get_field k o)) sh with
      | [] => mret (map (fun '(k, _) => (k, get_field k o)) sh)
      | issues => throw (ThrowZod issues)
      end
  | _ => throw (ThrowZod [invalid_type (js "object") [] input])
  end.

End Zod.

(* ================================================================== *)
(** ** The tool router (src/index.ts) *)

Module Router.
Import Effects.

Definition GetMatchSchema : Zod.shape :=
  [("match_id"%string, Zod.ZNumber)].

Definition GetPlayerSchema : Zod.shape :=
  [("account_id"%string, Zod.ZNumber)].

Definition GetPlayerMatchesSchema : Zod.shape :=
  [("account_id"%string, Zod.ZNumber);
   ("limit"%string, Zod.ZOptional Zod.ZNumber);
   ("hero_id"%string, Zod.ZOptional Zod.ZNumber)].

Definition SearchPlayersSchema : Zod.shape :=
  [("query"%string, Zod.ZString)].

Definition NaturalQuerySchema : Zod.shape :=
  [("query"%string, Zod.ZString)].

Record TextContent := {
  type : jsstr;
  text : jsstr;
}.

(** The tool response; [isError] is [false] where the source leaves the
    property out. *)
Record CallToolResult := {
  content : list TextContent;
  isError : bool;
}.

Definition text_result (t : jsstr) : CallToolResult :=
  {| content := [{| type := js "text"; text := t |}]; isError := false |}.

(** A property with a default: [const { limit = 20 } = ...]. *)
Definition or_default (v d : value) : value :=
  match v with
  | VUndef => d
  | _ => v
  end.

(** The object literal [{ limit, hero_id }]. *)
Definition object_of (fields : list (string * value)) : gmap string value :=
  list_to_map fields.

Definition newline2 : jsstr := [10; 10].

(** The text of the default case of the [natural_query] switch: the
    query between double quotes inside a fixed sentence. *)
Definition not_understood (query : jsstr) : jsstr :=
  js "I couldn't understand your query: " ++ [34] ++ query ++ [34]
  ++ js ". Please try asking about specific matches, players, or use one of the available tools.".

Section WithRuntime.

Variable ToString : value -> jsstr.

(** [JSON.stringify(v, null, 2)] *)
Variable JSON_stringify : value -> jsstr.

Variable upstream : request -> Axios.outcome.

(** [process.env] *)
Variable env : Client.environment.

Definition client : Client.OpenDotaClient := Client.new_OpenDotaClient env.

Definition tool_is (name : jsstr) (lit : string) : bool :=
  jsstr_eqb name (js lit).

(** The inner [switch (parsed.type)] of the [natural_query] case. *)
Definition run_parsed (query : jsstr) (parsed : DispatchResult) : M CallToolResult :=
  let p := Dispatcher.params parsed in
  let t := Dispatcher.type parsed in
  if tool_is t "get_match" then
    match_ ← Client.getMatch ToString upstream client (get_field "match_id" p);
    mret (text_result (js "Match " ++ ToString (get_field "match_id" p)
                       ++ js " information:" ++ newline2 ++ JSON_stringify match_))
  else if tool_is t "get_player" then
    player ← Client.getPlayer ToString upstream client (get_field "account_id" p);
    mret (text_result (js "Player " ++ ToString (get_field "account_id" p)
                       ++ js " information:" ++ newline2 ++ JSON_stringify player))
  else if tool_is t "search_players" then
    players ← Client.searchPlayers ToString upstream client (get_field "query" p);
    mret (text_result (js "Search results for " ++ [34] ++ ToString (get_field "query" p)
                       ++ [34] ++ js ":" ++ newline2 ++ JSON_stringify players))
  else if tool_is t "get_player_recent_matches" then
    recentMatches ← Client.getPlayerRecentMatches ToString upstream client
                      (get_field "account_id" p);
    mret (text_result (js "Recent matches for player " ++ ToString (get_field "account_id" p)
                       ++ js ":" ++ newline2 ++ JSON_stringify recentMatches))
  else if tool_is t "get_player_heroes" then
    playerHeroes ← Client.getPlayerHeroes ToString upstream client
                     (get_field "account_id" p);
    mret (text_result (js "Hero statistics for player " ++ ToString (get_field "account_id" p)
                       ++ js ":" ++ newline2 ++ JSON_stringify playerHeroes))
  else
    mret (text_result (not_understood query)).

(** The [try] block: the [switch (name)]. *)
Definition tool_body (name : jsstr) (args : value) : M CallToolResult :=
  if tool_is name "get_match" then
    a ← Zod.parse GetMatchSchema args;
    match_ ← Client.getMatch ToString upstream client (get_field "match_id" a);
    log (ToolExecution name args true None);;
    mret (text_result (JSON_stringify match_))
  else if tool_is name "get_player" then
    a ← Zod.parse GetPlayerSchema args;
    player ← Client.getPlayer ToString upstream client (get_field "account_id" a);
    mret (text_result (JSON_stringify player))
  else if tool_is name "get_player_matches" then
    a ← Zod.parse GetPlayerMatchesSchema args;
    let limit := or_default (get_field "limit" a) (VNum (Finite 20)) in
    options ← alloc (object_of [("limit"%string, limit);
                                ("hero_id"%string, get_field "hero_id" a)]);
    matches ← Client.getPlayerMatches ToString upstream client
                (get_field "account_id" a) (Some options);
    mret (text_result (JSON_stringify matches))
  else if tool_is name "get_player_recent_matches" then
    a ← Zod.parse GetPlayerSchema args;
    matches ← Client.getPlayerRecentMatches ToString upstream client
                (get_field "account_id" a);
    mret (text_result (JSON_stringify matches))
  else if tool_is name "get_player_heroes" then
    a ← Zod.parse GetPlayerSchema args;
    heroes ← Client.getPlayerHeroes ToString upstream client (get_field "account_id" a);
    mret (text_result (JSON_stringify heroes))
  else if tool_is name "search_players" then
    a ← Zod.parse SearchPlayersSchema args;
    players ← Client.searchPlayers ToString upstream client (get_field "query" a);
    mret (text_result (JSON_stringify players))
  else if tool_is name "get_heroes" then
    heroes ← Client.getHeroes ToString upstream client;
    mret (text_result (JSON_stringify heroes))
  else if tool_is name "get_pro_matches" then
    matches ← Client.getProMatches ToString upstream client;
    mret (text_result (JSON_stringify matches))
  else if tool_is name "natural_query" then
    a ← Zod.parse NaturalQuerySchema args;
    match get_field "query" a with
    | VStr query => run_parsed query (parseNaturalQuery query)
    | _ => throw (ThrowError (js "unreachable")) (* the schema passed: a string *)
    end
  else
    throw (ThrowError (js "Unknown tool: " ++ name)).

(** The error the catch block settles on. *)
Definition normalize (error : thrown) : Errors.MCPError :=
  match error with
  | ThrowZod errors =>
      Errors.new_ValidationError (js "Invalid tool arguments")
        (VObj [("zodError"%string, VArr errors)])
  | ThrowMCP e => e
  | ThrowError message =>
      Errors.new_MCPError message (Some (js "TOOL_EXECUTION_ERROR")) (Some (Finite 500))
        (VObj [("originalError"%string, VError (js "Error") message [])])
  | ThrowValue v =>
      Errors.new_MCPError (ToString v) (Some (js "UNKNOWN_ERROR")) (Some (Finite 500))
        (VObj [("originalError"%string, v)])
  end.

(** [process.env.NODE_ENV === 'development'] *)
Definition development : bool :=
  match env !! "NODE_ENV"%string with
  | Some v => jsstr_eqb v (js "development")
  | None => false
  end.

(** The response of the catch block. *)
Definition error_result (mcpError : Errors.MCPError) : CallToolResult :=
  {| content :=
       [{| type := js "text";
           text := js "Error: " ++ Errors.message mcpError
                   ++ (if development && truthy (Errors.details mcpError)
                       then newline2 ++ js "Details: "
                            ++ JSON_stringify (Errors.details mcpError)
                       else []) |}];
     isError := true |}.

(** The [CallToolRequestSchema] handler. *)
Definition handler (name : jsstr) (args : value) : M CallToolResult :=
  log (ToolRequestStart name args);;
  try_catch (tool_body name args) (fun error =>
    let mcpError := normalize error in
    log (ToolExecution name args false (Some mcpError));;
    mret (error_result mcpError)).

End WithRuntime.

End Router.

(* ================================================================== *)
(** ** The parser as the unit test of the repository restates it *)

Module IndexTest.

(** The test suite does not import [parseNaturalQuery]; it carries its own
    copy, which tries the recent-matches and heroes patterns before the
    bare player id. *)
Definition parseNaturalQuery (query : jsstr) : DispatchResult :=
  match exec matchIdPattern query with
  | Some m =>
      {| type := js "get_match";
         params := [("match_id"%string, VNum (parseInt_capture (capture 1 m)))] |}
  | None =>
  match exec playerNamePattern query with
  | Some m =>
      {| type := js "search_players";
         params := [("query"%string, capture_value (capture 1 m))] |}
  | None =>
  match exec recentMatchesPattern query with
  | Some m =>
      {| type := js "get_player_recent_matches";
         params := [("account_id"%string, VNum (parseInt_capture (capture 1 m)))] |}
  | None =>
  match exec playerHeroesPattern query with
  | Some m =>
      let accountId := parseInt_capture (or_else (capture 1 m) (capture 2 m)) in
      {| type := js "get_player_heroes";
         params := [("account_id"%string, VNum accountId)] |}
  | None =>
  match exec playerIdPattern query with
  | Some m =>
      {| type := js "get_player";
         params := [("account_id"%string, VNum (parseInt_capture (capture 1 m)))] |}
  | None =>
      {| type := js "search";
         params := [("query"%string, VStr query)] |}
  end end end end end.

End IndexTest.

(* ================================================================== *)
(** ** The tool listing (the ListTools handler of src/index.ts) *)

Module Tools.

(** One entry of [properties]. *)
Record Property := {
  ptype : jsstr;
  pdescription : jsstr;
}.

(** [inputSchema]; [required] is absent for the tools without arguments. *)
Record InputSchema := {
  type : jsstr;
  properties : list (string * Property);
  required : option (list string);
}.

Record Tool := {
  name : jsstr;
  description : jsstr;
  inputSchema : InputSchema;
}.

Definition account_id_property : string * Property :=
  ("account_id"%string,
   {| ptype := js "number"; pdescription := js "The player account ID" |}).

Definition account_id_schema : InputSchema :=
  {| type := js "object";
     properties := [account_id_property];
     required := Some ["account_id"%string] |}.

Definition no_arguments : InputSchema :=
  {| type := js "object"; properties := []; required := None |}.

(** The list returned as [{ tools }]. *)
Definition tools : list Tool :=
  [ {| name := js "get_match";
       description := js "Get detailed information about a specific Dota 2 match";
       inputSchema :=
         {| type := js "object";
            properties :=
              [("match_id"%string,
                {| ptype := js "number";
                   pdescription := js "The match ID to retrieve" |})];
            required := Some ["match_id"%string] |} |};
    {| name := js "get_player";
       description := js "Get profile information for a specific player";
       inputSchema := account_id_schema |};
    {| name := js "get_player_matches";
       description := js "Get match history for a specific player";
       inputSchema :=
         {| type := js "object";
            properties :=
              [account_id_property;
               ("limit"%string,
                {| ptype := js "number";
                   pdescription := js "Number of matches to return (default: 20)" |});
               ("hero_id"%string,
                {| ptype := js "number";
                   pdescription := js "Filter by specific hero ID" |})];
            required := Some ["account_id"%string] |} |};
    {| name := js "get_player_recent_matches";
       description := js "Get recent matches for a specific player";
       inputSchema := account_id_schema |};
    {| name := js "get_player_heroes";
       description := js "Get hero statistics for a specific player";
       inputSchema := account_id_schema |};
    {| name := js "search_players";
       description := js "Search for players by name";
       inputSchema :=
         {| type := js "object";
            properties :=
              [("query"%string,
                {| ptype := js "string";
                   pdescription := js "Search term for player names" |})];
            required := Some ["query"%string] |} |};
    {| name := js "get_heroes";
       description := js "Get list of all Dota 2 heroes";
       inputSchema := no_arguments |};
    {| name := js "get_pro_matches";
       description := js "Get recent professional matches";
       inputSchema := no_arguments |};
    {| name := js "natural_query";
       description :=
         js "Ask questions about Dota 2 matches and players in natural language";
       inputSchema :=
         {| type := js "object";
            properties :=
              [("query"%string,
                {| ptype := js "string";
                   pdescription :=
                     js "Natural language query about Dota 2 matches or players" |})];
            required := Some ["query"%string] |} |} ].

End Tools.

(* ================================================================== *)
(** ** The logger configuration (src/logger.ts) *)

Module Logger.

(** [LoggerConfig]: every field optional. *)
Record LoggerConfig := {
  level : option jsstr;
  environment : option jsstr;
  enableConsole : option bool;
  enableFile : option bool;
  logDir : option jsstr;
  serviceName : option jsstr;
  version : option jsstr;
}.

(** [Required<LoggerConfig>] *)
Record Config := {
  cfg_level : jsstr;
  cfg_environment : jsstr;
  cfg_enableConsole : bool;
  cfg_enableFile : bool;
  cfg_logDir : jsstr;
  cfg_serviceName : jsstr;
  cfg_version : jsstr;
}.

(** The default argument [config = {}]. *)
Definition empty_config : LoggerConfig :=
  {| level := None; environment := None; enableConsole := None;
     enableFile := None; logDir := None; serviceName := None; version := None |}.

(** [a || b] on an optional string and a string: the empty string is
    falsy. *)
Definition or_str (a : option jsstr) (b : jsstr) : jsstr :=
  match a with
  | Some (c :: s) => c :: s
  | _ => b
  end.

(** [a ?? b] *)
Definition nullish (a : option bool) (b : bool) : bool :=
  match a with
  | Some x => x
  | None => b
  end.

(** [process.env.NODE_ENV === 'production'] *)
Definition node_env_is_production (env : Client.environment) : bool :=
  match env !! "NODE_ENV"%string with
  | Some v => jsstr_eqb v (js "production")
  | None => false
  end.

(** The configuration the constructor resolves. *)
Definition resolve (config : LoggerConfig) (env : Client.environment) : Config :=
  {| cfg_level := or_str (level config) (or_str (env !! "LOG_LEVEL"%string) (js "info"));
     cfg_environment :=
       or_str (environment config)
         (or_str (env !! "NODE_ENV"%string) (js "development"));
     cfg_enableConsole := nullish (enableConsole config) true;
     cfg_enableFile := nullish (enableFile config) (node_env_is_production env);
     cfg_logDir := or_str (logDir config) (or_str (env !! "LOG_DIR"%string) (js "./logs"));
     cfg_serviceName := or_str (serviceName config) (js "opendota-mcp-server");
     cfg_version :=
       or_str (version config)
         (or_str (env !! "npm_package_version"%string) (js "1.0.0")) |}.

(** Where [createLogger] sends the log: the pretty-printing console
    transport, a file in the log directory (directory and file name, as
    handed to [join]), or JSON on the console. *)
Inductive destination :=
| PrettyConsole
| LogFile (dir file : jsstr)
| JsonConsole.

Definition createLogger (cfg : Config) : destination :=
  if jsstr_eqb (cfg_environment cfg) (js "development") && cfg_enableConsole cfg
  then PrettyConsole
  else if cfg_enableFile cfg && jsstr_eqb (cfg_environment cfg) (js "production")
  then LogFile (cfg_logDir cfg) (cfg_serviceName cfg ++ js ".log")
  else JsonConsole.

(** [new ProductionLogger(config)] as far as its destination goes. *)
Definition new_ProductionLogger (config : LoggerConfig) (env : Client.environment)
  : destination :=
  createLogger (resolve config env).

End Logger.

(* ================================================================== *)
(** ** Vocabulary of the statements *)

(** The integer a string of decimal digits denotes. *)
Definition dec_value (ds : jsstr) : Z :=
  fold_left (fun acc d => (acc * 10 + (Z.of_N d - 48))%Z) ds 0%Z.

(** A decimal numeral: one digit or more, nothing else. *)
Definition numeral (ds : jsstr) : Prop :=
  ds <> [] /\ forallb is_digit ds = true.

(** Text at which a run of digits ends. *)
Definition stops_digits (rest : jsstr) : Prop :=
  match rest with
  | [] => True
  | x :: _ => is_digit x = false
  end.

(** A pattern without capturing groups. *)
Fixpoint groupless (r : regex) : bool :=
  match r with
  | Eps | Atom _ | Plus _ => true
  | Seq r1 r2 | Alt r1 r2 => groupless r1 && groupless r2
  | Opt r1 => groupless r1
  | Group _ _ => false
  end.

(** A pattern that ends in the capturing group [(\d+)], after groupless
    parts. *)
Fixpoint ends_in_digits (n : nat) (r : regex) : bool :=
  match r with
  | Group m (Plus CDigit) => Nat.eqb m n
  | Seq r1 r2 => groupless r1 && ends_in_digits n r2
  | _ => false
  end.

(** Text free of the quote characters of the name pattern. *)
Definition quote_free (name : jsstr) : Prop :=
  Forall (fun c => c <> 34 /\ c <> 39) name.

(** The tags [parseNaturalQuery] can answer with. *)
Definition operation_tags : list jsstr :=
  map js ["get_match"; "search_players"; "get_player";
          "get_player_recent_matches"; "get_player_heroes"; "search"]%string.

(** The error a schema violation is turned into. *)
Definition validation_error (issues : list value) : Errors.MCPError :=
  Errors.new_ValidationError (js "Invalid tool arguments")
    (VObj [("zodError"%string, VArr issues)]).

(** A computation that issues exactly one upstream GET. *)
Definition calls_once {A} (m : Effects.M A) : Prop :=
  forall st, exists req, Effects.calls (m st).2 = Effects.calls st ++ [req].

(** The upstream failure of the 404 scenario: status 404, and a body
    whose [error] field says not found. *)
Definition not_found : Axios.AxiosError :=
  {| Axios.message := js "Request failed with status code 404";
     Axios.code := Some (js "ERR_BAD_REQUEST");
     Axios.response :=
       Some {| Axios.status := Finite 404;
               Axios.data := VObj [("error"%string, VStr (js "not found"))] |} |}.

(** The declarative reading of a pattern: [matches r s s1] says that [r]
    can consume the front of [s] and leave [s1]. *)
Inductive matches : regex -> jsstr -> jsstr -> Prop :=
| M_Eps s : matches Eps s s
| M_Atom a x s : accepts a x = true -> matches (Atom a) (x :: s) s
| M_Seq r1 r2 s s1 s2 :
    matches r1 s s1 -> matches r2 s1 s2 -> matches (Seq r1 r2) s s2
| M_AltL r1 r2 s s1 : matches r1 s s1 -> matches (Alt r1 r2) s s1
| M_AltR r1 r2 s s1 : matches r2 s s1 -> matches (Alt r1 r2) s s1
| M_OptSome r s s1 : matches r s s1 -> matches (Opt r) s s1
| M_OptNone r s : matches (Opt r) s s
| M_Plus a xs s :
    xs <> [] -> forallb (accepts a) xs = true -> matches (Plus a) (xs ++ s) s
| M_Group n r s s1 : matches r s s1 -> matches (Group n r) s s1.

(** The pattern occurs somewhere in the text. *)
Definition found (r : regex) (s : jsstr) : Prop :=
  exists pre s' s1, s = pre ++ s' /\ matches r s' s1.

(** [x] spells the word [w], letter case aside. *)
Definition spells (w : string) (x : jsstr) : Prop :=
  Forall2 (fun p c => canonicalize p = canonicalize c) (js w) x.

(** A non-empty run of white space. *)
Definition blanks (ws : jsstr) : Prop :=
  ws <> [] /\ forallb is_space ws = true.

(** The optional word id and the white space after it. *)
Definition optional_id (x : jsstr) : Prop :=
  x = [] \/ exists i ws, x = i ++ ws /\ spells "id" i /\ blanks ws.

(** Two texts that differ at most in the case of ASCII letters. *)
Definition same_letters (a b : jsstr) : Prop :=
  Forall2 (fun x y => canonicalize x = canonicalize y) a b.

(** Match arrays with the same groups and texts that differ at most in
    letter case. *)
Definition same_captures (c c' : captures) : Prop :=
  Forall2 (fun p p' => p.1 = p'.1 /\ same_letters p.2 p'.2) c c'.

Definition same_result (x x' : option captures) : Prop :=
  option_Forall2 same_captures x x'.

(** Payloads that agree: equal numbers, strings equal up to letter case. *)
Definition same_payload (v v' : value) : Prop :=
  match v, v' with
  | VNum a, VNum b => a = b
  | VStr a, VStr b => same_letters a b
  | _, _ => False
  end.

(** The calls a user of the client can make. *)
Inductive method :=
| GetMatch (matchId : value)
| GetPlayer (accountId : value)
| GetPlayerMatches (accountId : value) (options : option Effects.loc)
| GetPlayerRecentMatches (accountId : value)
| GetPlayerHeroes (accountId : value)
| GetHeroes
| SearchPlayers (query : value)
| GetProMatches
| GetPublicMatches.

Definition invoke (ToString : value -> jsstr)
    (upstream : Effects.request -> Axios.outcome)
    (this : Client.OpenDotaClient) (m : method) : Effects.M value :=
  match m with
  | GetMatch v => Client.getMatch ToString upstream this v
  | GetPlayer v => Client.getPlayer ToString upstream this v
  | GetPlayerMatches v o => Client.getPlayerMatches ToString upstream this v o
  | GetPlayerRecentMatches v => Client.getPlayerRecentMatches ToString upstream this v
  | GetPlayerHeroes v => Client.getPlayerHeroes ToString upstream this v
  | GetHeroes => Client.getHeroes ToString upstream this
  | SearchPlayers q => Client.searchPlayers ToString upstream this q
  | GetProMatches => Client.getProMatches ToString upstream this
  | GetPublicMatches => Client.getPublicMatches ToString upstream this
  end.

(** The resource path of each call (the table of upstream resources). *)
Definition path (ToString : value -> jsstr) (m : method) : jsstr :=
  match m with
  | GetMatch v => js "/matches/" ++ ToString v
  | GetPlayer v => js "/players/" ++ ToString v
  | GetPlayerMatches v _ => js "/players/" ++ ToString v ++ js "/matches"
  | GetPlayerRecentMatches v => js "/players/" ++ ToString v ++ js "/recentMatches"
  | GetPlayerHeroes v => js "/players/" ++ ToString v ++ js "/heroes"
  | GetHeroes => js "/heroes"
  | SearchPlayers _ => js "/search"
  | GetProMatches => js "/proMatches"
  | GetPublicMatches => js "/publicMatches"
  end.

(** The query parameters a call starts from, before the key is added:
    the caller's options object, the search text under [q], or nothing. *)
Definition own_params (st : Effects.state) (m : method) : gmap string value :=
  match m with
  | GetPlayerMatches _ (Some l) => default ∅ (Effects.heap st !! l)
  | SearchPlayers q => {[ "q"%string := q ]}
  | _ => ∅
  end.

(** The configured key, if it counts as one: a non-empty string. *)
Definition usable_key (this : Client.OpenDotaClient) : option jsstr :=
  match Client.apiKey this with
  | Some (c :: k) => Some (c :: k)
  | _ => None
  end.

(** Query parameters with the key added when there is one. *)
Definition with_key (this : Client.OpenDotaClient) (o : gmap string value)
  : gmap string value :=
  match usable_key this with
  | Some key => <["api_key"%string := VStr key]> o
  | None => o
  end.

(** The [api_call] log entry of an attempt. *)
Definition api_call_entry (url : jsstr) (out : Axios.outcome) : Effects.log_event :=
  match out with
  | Axios.Resolve response =>
      Effects.ApiCall url (Some (Axios.status response)) None
  | Axios.Reject error =>
      Effects.ApiCall url (Axios.status <$> Axios.response error)
        (Some (Errors.new_APIError
                 (js "OpenDota API request failed: " ++ Axios.message error)
                 (Some (Client.status_or_500 (Axios.status <$> Axios.response error)))
                 (VObj [("code"%string, Client.opt_value (Axios.code error));
                        ("response"%string, Client.response_data error)])))
  end.

(** The caller's object a call works on, if any. *)
Definition uses_caller_object (m : method) : option Effects.loc :=
  match m with
  | GetPlayerMatches _ (Some l) => Some l
  | _ => None
  end.

(** A call whose options reference, if it has one, is a live object. *)
Definition valid_call (st : Effects.state) (m : method) : Prop :=
  match m with
  | GetPlayerMatches _ (Some l) => is_Some (Effects.heap st !! l)
  | _ => True
  end.

(** The request a call issues. *)
Definition request_of (ToString : value -> jsstr) (this : Client.OpenDotaClient)
    (st : Effects.state) (m : method) : Effects.request :=
  {| Effects.req_url := Client.baseURL this ++ path ToString m;
     Effects.req_params := with_key this (own_params st m);
     Effects.req_timeout := Client.timeout this;
     Effects.req_userAgent := Client.userAgent this |}.

(** The schema the call handler validates the arguments of a tool with;
    none for the tools without arguments and for unknown names. *)
Definition schema_of (name : jsstr) : option Zod.shape :=
  if Router.tool_is name "get_match" then Some Router.GetMatchSchema
  else if Router.tool_is name "get_player" then Some Router.GetPlayerSchema
  else if Router.tool_is name "get_player_matches" then Some Router.GetPlayerMatchesSchema
  else if Router.tool_is name "get_player_recent_matches" then Some Router.GetPlayerSchema
  else if Router.tool_is name "get_player_heroes" then Some Router.GetPlayerSchema
  else if Router.tool_is name "search_players" then Some Router.SearchPlayersSchema
  else if Router.tool_is name "get_heroes" then None
  else if Router.tool_is name "get_pro_matches" then None
  else if Router.tool_is name "natural_query" then Some Router.NaturalQuerySchema
  else None.

(** The names the tool listing advertises. *)
Definition listed_names : list jsstr := map Tools.name Tools.tools.

(** A computation that issues no upstream GET. *)
Definition no_call {A} (m : Effects.M A) : Prop :=
  forall st, Effects.calls (m st).2 = Effects.calls st.

(** A computation that issues one upstream GET at most. *)
Definition at_most_one_call {A} (m : Effects.M A) : Prop :=
  forall st,
    Effects.calls (m st).2 = Effects.calls st
    \/ exists req, Effects.calls (m st).2 = Effects.calls st ++ [req].

(** The fields a schema demands: those that are not optional. *)
Definition demanded (sh : Zod.shape) : list string :=
  map fst (List.filter (fun kt => match kt.2 with Zod.ZOptional _ => false | _ => true end) sh).

(** The JSON type name of a schema field. *)
Fixpoint type_name (t : Zod.ztype) : jsstr :=
  match t with
  | Zod.ZNumber => js "number"
  | Zod.ZString => js "string"
  | Zod.ZOptional t' => type_name t'
  end.

(** A value the schema type [z.number()] accepts. *)
Definition number_value (v : value) : Prop :=
  match v with
  | VNum NaN => False
  | VNum _ => True
  | _ => False
  end.

(** The answer of a tool that went as far as the upstream request: the
    body of the upstream response printed as JSON after a label, or an
    error response that carries the message of the error the client
    throws (followed in development by its details). *)
Definition answers (ToString JSON_stringify : value -> jsstr)
    (this : Client.OpenDotaClient) (label : jsstr) (out : Axios.outcome)
    (r : Router.CallToolResult) : Prop :=
  match out with
  | Axios.Resolve response =>
      r = {| Router.content :=
               [{| Router.type := js "text";
                   Router.text := label ++ JSON_stringify (Axios.data response) |}];
             Router.isError := false |}
  | Axios.Reject error =>
      exists tail,
        r = {| Router.content :=
                 [{| Router.type := js "text";
                     Router.text :=
                       js "Error: "
                       ++ Errors.message (Client.classify ToString this error)
                       ++ tail |}];
               Router.isError := true |}
  end.

(** The value of a field with a default. *)
Definition with_default (v d : value) : value :=
  match v with
  | VUndef => d
  | _ => v
  end.

(** The first of the candidates that is set and not empty, or else the
    fallback: how a chain of [||] over optional strings resolves. *)
Fixpoint first_nonempty (candidates : list (option jsstr)) (fallback : jsstr) : jsstr :=
  match candidates with
  | [] => fallback
  | Some (c :: s) :: _ => c :: s
  | _ :: rest => first_nonempty rest fallback
  end.

(* ================================================================== *)
(** * Properties *)

(** ** Digits and [parseInt] *)

Lemma is_digit_cases d :
  is_digit d = true ->
  d = 48 \/ d = 49 \/ d = 50 \/ d = 51 \/ d = 52 \/
  d = 53 \/ d = 54 \/ d = 55 \/ d = 56 \/ d = 57.
Proof.
  unfold is_digit. rewrite andb_true_iff, N.leb_le, N.leb_le. lia.
Qed.

(** Case analysis on a digit: ten goals, each with a concrete digit. *)
Ltac digit_cases d H :=
  destruct (is_digit_cases d H) as [->|[->|[->|[->|[->|[->|[->|[->|[->| ->]]]]]]]]].

Lemma digit_not_space d : is_digit d = true -> is_space d = false.
Proof. intros H. digit_cases d H; reflexivity. Qed.

Lemma digit_value_dec d :
  is_digit d = true -> digit_value 10 d = Some (Z.of_N d - 48)%Z.
Proof. intros H. digit_cases d H; reflexivity. Qed.

Lemma digits_value_dec ds acc :
  forallb is_digit ds = true ->
  digits_value 10 (Some acc) ds
  = Some (fold_left (fun a d => (a * 10 + (Z.of_N d - 48))%Z) ds acc).
Proof.
  revert acc. induction ds as [|d ds IH]; intros acc H; simpl in *.
  - reflexivity.
  - apply andb_true_iff in H as [Hd Hds].
    rewrite (digit_value_dec d Hd). simpl. now rewrite IH.
Qed.

(** On a numeral [parseInt] is the Number nearest to its value. *)
Lemma parseInt_numeral ds :
  numeral ds -> parseInt ds = to_double (dec_value ds).
Proof.
  intros [Hne Hall]. destruct ds as [|d ds]; [congruence|clear Hne].
  simpl in Hall. apply andb_true_iff in Hall as [Hd Hds].
  assert (Hstep : digits_value 10 None (d :: ds) = Some (dec_value (d :: ds))).
  { simpl. rewrite (digit_value_dec d Hd). simpl.
    rewrite (digits_value_dec ds _ Hds). reflexivity. }
  unfold parseInt. simpl skip_space. rewrite (digit_not_space d Hd).
  digit_cases d Hd; try (rewrite Hstep; reflexivity).
  (* a leading 0: the next character decides the radix *)
  destruct ds as [|x ds]; [reflexivity|].
  simpl in Hds. apply andb_true_iff in Hds as [Hx Hds].
  assert (Hr : (x =? 120) || (x =? 88) = false).
  { digit_cases x Hx; reflexivity. }
  rewrite Hr, Hstep. reflexivity.
Qed.

(** Below [2^53] the Number is the integer itself. *)
Lemma to_double_exact n : (n < 2 ^ 53)%Z -> to_double n = Finite n.
Proof.
  intros H. unfold to_double.
  destruct (Z.ltb_spec n (2 ^ 53)); [reflexivity | lia].
Qed.

(** ** The matcher on inputs with a symbolic numeral *)

Section Matcher.

Lemma exec_cons_None r x s :
  match_here r (x :: s) = None -> exec r (x :: s) = exec r s.
Proof. intros H. simpl. now rewrite H. Qed.

Lemma exec_here r s m : match_here r s = Some m -> exec r s = Some m.
Proof. intros H. destruct s; simpl; now rewrite H. Qed.

(** Greedy repetition takes the whole run when what follows succeeds. *)
Lemma star_app a xs rest c k res :
  forallb (accepts a) xs = true ->
  star a rest c k = Some res ->
  star a (xs ++ rest) c k = Some res.
Proof.
  induction xs as [|x xs IH]; simpl; intros H Hk; [exact Hk|].
  apply andb_true_iff in H as [Hx Hs]. rewrite Hx, (IH Hs Hk). reflexivity.
Qed.

Lemma plus_app a xs rest c k res :
  xs <> [] ->
  forallb (accepts a) xs = true ->
  star a rest c k = Some res ->
  plus a (xs ++ rest) c k = Some res.
Proof.
  destruct xs as [|x xs]; [congruence|]. intros _ H Hk. simpl in *.
  apply andb_true_iff in H as [Hx Hs]. rewrite Hx. now apply star_app.
Qed.

(** The text a group captured, from the lengths before and after it. *)
Lemma take_captured (a b : jsstr) :
  take (length (a ++ b) - length b) (a ++ b) = a.
Proof.
  rewrite length_app.
  replace (length a + length b - length b)%nat with (length a) by lia.
  apply take_app_length.
Qed.

Lemma star_stop rest c k : stops_digits rest -> star CDigit rest c k = k rest c.
Proof. destruct rest as [|x rest]; simpl; [reflexivity|]. now intros ->. Qed.

(** A pattern that cannot start on a digit finds nothing inside a run of
    digits. *)
Lemma exec_skip_digits r :
  (forall d s, is_digit d = true -> match_here r (d :: s) = None) ->
  forall ds rest, forallb is_digit ds = true -> exec r (ds ++ rest) = exec r rest.
Proof.
  intros Hd. induction ds as [|d ds IH]; intros rest H; [reflexivity|].
  simpl in H. apply andb_true_iff in H as [H1 H2].
  change ((d :: ds) ++ rest) with (d :: (ds ++ rest)).
  rewrite exec_cons_None by now apply Hd. now apply IH.
Qed.

End Matcher.

(** Replace a literal by its code units. *)
Ltac literal s :=
  let v := eval vm_compute in (js s) in change (js s) with v.

(** Skip the start positions at which the literal part of the input
    already rules a match out. *)
Ltac skip_positions :=
  repeat (rewrite exec_cons_None by (vm_compute; reflexivity)).

Ltac captured :=
  repeat f_equal;
  match goal with
  | |- take (length ?l - length ?r) ?l = ?a => exact (take_captured a r)
  end.

Section PatternsOnNumerals.

Lemma matchId_not_on_digit d s :
  is_digit d = true -> match_here matchIdPattern (d :: s) = None.
Proof. intros H. digit_cases d H; reflexivity. Qed.

Lemma playerName_not_on_digit d s :
  is_digit d = true -> match_here playerNamePattern (d :: s) = None.
Proof. intros H. digit_cases d H; reflexivity. Qed.

(** [player N ...]: the bare player-id pattern matches at the start and
    captures the whole numeral. *)
Lemma playerId_here ds rest :
  numeral ds -> stops_digits rest ->
  match_here playerIdPattern (js "player " ++ ds ++ rest)
  = Some [(0%nat, js "player " ++ ds); (1%nat, ds)].
Proof.
  intros [Hne Hall] Hrest. destruct ds as [|d ds]; [congruence|clear Hne].
  simpl in Hall. apply andb_true_iff in Hall as [Hd Hds].
  literal "player "%string. unfold match_here.
  digit_cases d Hd.
  all: cbn -[take length Nat.sub].
  all: erewrite star_app;
    [reflexivity | exact Hds | rewrite star_stop by exact Hrest].
  all: captured.
Qed.

(** [player N ...]: neither the match-id nor the quoted-name pattern
    matches anywhere, whatever digit-free literal follows. *)
Lemma playerName_player_numeral ds :
  numeral ds ->
  match_here playerNamePattern (js "player " ++ ds) = None
  /\ match_here playerNamePattern (js "player " ++ ds ++ js " heroes") = None.
Proof.
  intros [Hne Hall]. destruct ds as [|d ds]; [congruence|clear Hne].
  simpl in Hall. apply andb_true_iff in Hall as [Hd Hds].
  digit_cases d Hd; split; reflexivity.
Qed.

End PatternsOnNumerals.

Section DispatchOrder.

Lemma exec_digits_None r ds :
  (forall d s, is_digit d = true -> match_here r (d :: s) = None) ->
  match_here r [] = None ->
  forallb is_digit ds = true -> exec r ds = None.
Proof.
  intros Hd Hnil H. rewrite <- (app_nil_r ds), (exec_skip_digits r Hd ds [] H).
  simpl. now rewrite Hnil.
Qed.

(** The three queries of the claims, up to the pattern that wins. *)
Lemma matchId_misses ds :
  numeral ds ->
  exec matchIdPattern (js "recent matches for player " ++ ds) = None
  /\ exec matchIdPattern (js "heroes for player " ++ ds) = None
  /\ exec matchIdPattern (js "player " ++ ds ++ js " heroes") = None.
Proof.
  intros [_ Hall].
  literal "recent matches for player "%string.
  literal "heroes for player "%string.
  literal "player "%string. literal " heroes"%string. cbn [app].
  skip_positions.
  rewrite (exec_skip_digits _ matchId_not_on_digit ds _ Hall).
  rewrite (exec_digits_None _ ds matchId_not_on_digit eq_refl Hall).
  repeat split; reflexivity.
Qed.

Lemma playerName_misses ds :
  numeral ds ->
  exec playerNamePattern (js "recent matches for player " ++ ds) = None
  /\ exec playerNamePattern (js "heroes for player " ++ ds) = None
  /\ exec playerNamePattern (js "player " ++ ds ++ js " heroes") = None.
Proof.
  intros Hn. destruct (playerName_player_numeral ds Hn) as [H1 H2].
  destruct Hn as [_ Hall]. revert H1 H2.
  literal "recent matches for player "%string.
  literal "heroes for player "%string.
  literal "player "%string. literal " heroes"%string. cbn [app].
  intros H1 H2.
  repeat first
    [ rewrite exec_cons_None by (vm_compute; reflexivity)
    | rewrite (exec_cons_None _ _ _ H1)
    | rewrite (exec_cons_None _ _ _ H2) ].
  rewrite (exec_skip_digits _ playerName_not_on_digit ds _ Hall).
  rewrite (exec_digits_None _ ds playerName_not_on_digit eq_refl Hall).
  repeat split; reflexivity.
Qed.

Lemma playerId_hits ds :
  numeral ds ->
  let m := [(0%nat, js "player " ++ ds); (1%nat, ds)] in
  exec playerIdPattern (js "recent matches for player " ++ ds) = Some m
  /\ exec playerIdPattern (js "heroes for player " ++ ds) = Some m
  /\ exec playerIdPattern (js "player " ++ ds ++ js " heroes") = Some m.
Proof.
  intros Hn m.
  pose proof (playerId_here ds [] Hn I) as H1. rewrite app_nil_r in H1.
  pose proof (playerId_here ds (js " heroes") Hn eq_refl) as H2.
  apply exec_here in H1, H2. fold m in H1, H2. revert H1 H2.
  literal "recent matches for player "%string.
  literal "heroes for player "%string.
  literal "player "%string. literal " heroes"%string. cbn [app].
  intros H1 H2. skip_positions. auto.
Qed.

(** The bare player-id check runs before the recent-matches and heroes
    checks, so a query that says [player N] is answered [get_player]. *)
Lemma player_numeral_dispatch ds :
  numeral ds ->
  let r := {| Dispatcher.type := js "get_player";
              params := [("account_id"%string, VNum (to_double (dec_value ds)))] |} in
  parseNaturalQuery (js "recent matches for player " ++ ds) = r
  /\ parseNaturalQuery (js "heroes for player " ++ ds) = r
  /\ parseNaturalQuery (js "player " ++ ds ++ js " heroes") = r.
Proof.
  intros Hn r. subst r. rewrite <- (parseInt_numeral ds Hn).
  destruct (matchId_misses ds Hn) as (A1 & A2 & A3).
  destruct (playerName_misses ds Hn) as (B1 & B2 & B3).
  destruct (playerId_hits ds Hn) as (C1 & C2 & C3).
  unfold parseNaturalQuery.
  rewrite A1, A2, A3, B1, B2, B3, C1, C2, C3. auto.
Qed.

End DispatchOrder.

(** ** What a successful match tells about the input *)

Section MatchShape.

(** A successful repetition consumed a run of accepted characters and
    then the continuation succeeded on what was left. *)
Lemma star_Some a s c k res :
  star a s c k = Some res ->
  exists xs s1, s = xs ++ s1 /\ forallb (accepts a) xs = true /\ k s1 c = Some res.
Proof.
  induction s as [|x s IH]; simpl; intros H.
  - exists [], []. auto.
  - destruct (accepts a x) eqn:Hx.
    + destruct (star a s c k) as [res'|] eqn:Hs.
      * inversion H; subst res'.
        destruct (IH eq_refl) as (xs & s1 & -> & Hxs & Hk).
        exists (x :: xs), s1. simpl. now rewrite Hx, Hxs.
      * exists [], (x :: s). auto.
    + exists [], (x :: s). auto.
Qed.

Lemma plus_Some a s c k res :
  plus a s c k = Some res ->
  exists xs s1, xs <> [] /\ s = xs ++ s1
                /\ forallb (accepts a) xs = true /\ k s1 c = Some res.
Proof.
  destruct s as [|x s]; simpl; [discriminate|].
  destruct (accepts a x) eqn:Hx; [|discriminate]. intros H.
  destruct (star_Some _ _ _ _ _ H) as (xs & s1 & -> & Hxs & Hk).
  exists (x :: xs), s1. simpl. rewrite Hx, Hxs. auto.
Qed.

(** A groupless pattern consumes a prefix and leaves the captures alone. *)
Lemma run_groupless r :
  groupless r = true ->
  forall s c k res,
    run r s c k = Some res ->
    exists pre s1, s = pre ++ s1 /\ k s1 c = Some res.
Proof.
  induction r as [|a|r1 IH1 r2 IH2|r1 IH1 r2 IH2|r1 IH1|a|n r1 IH1];
    simpl; intros G s c k res H; try discriminate.
  - exists [], s. auto.
  - destruct s as [|x s]; [discriminate|].
    destruct (accepts a x); [|discriminate]. exists [x], s. auto.
  - apply andb_true_iff in G as [G1 G2].
    destruct (IH1 G1 _ _ _ _ H) as (p1 & s1 & -> & H1).
    destruct (IH2 G2 _ _ _ _ H1) as (p2 & s2 & -> & H2).
    exists (p1 ++ p2), s2. now rewrite <- app_assoc.
  - apply andb_true_iff in G as [G1 G2].
    destruct (run r1 s c k) as [res'|] eqn:E.
    + inversion H; subst. eauto.
    + eauto.
  - destruct (run r1 s c k) as [res'|] eqn:E.
    + inversion H; subst. eauto.
    + exists [], s. auto.
  - destruct (plus_Some _ _ _ _ _ H) as (xs & s1 & _ & -> & _ & Hk). eauto.
Qed.

(** The capturing group [(\d+)] captures a numeral. *)
Lemma run_digits_group n s c k res :
  run (Group n (Plus CDigit)) s c k = Some res ->
  exists ds s1, numeral ds /\ s = ds ++ s1 /\ k s1 ((n, ds) :: c) = Some res.
Proof.
  simpl. intros H.
  destruct (plus_Some _ _ _ _ _ H) as (ds & s1 & Hne & -> & Hds & Hk).
  rewrite take_captured in Hk. exists ds, s1. repeat split; auto.
Qed.

(** [exec] reports a match found at some position of the input. *)
Lemma exec_Some r s m :
  exec r s = Some m -> exists pre s', s = pre ++ s' /\ match_here r s' = Some m.
Proof.
  induction s as [|x s IH]; simpl.
  - destruct (match_here r []) eqn:E; [|discriminate].
    intros H; inversion H; subst. exists [], []. auto.
  - destruct (match_here r (x :: s)) eqn:E.
    + intros H; inversion H; subst. exists [], (x :: s). auto.
    + intros H. destruct (IH H) as (pre & s' & -> & Hm).
      exists (x :: pre), s'. auto.
Qed.

Lemma run_ends_in_digits n r :
  ends_in_digits n r = true ->
  forall s c k res,
    run r s c k = Some res ->
    exists pre ds s1,
      numeral ds /\ s = pre ++ ds ++ s1 /\ k s1 ((n, ds) :: c) = Some res.
Proof.
  induction r as [|a|r1 IH1 r2 IH2|r1 IH1 r2 IH2|r1 IH1|a|m r1 IH1];
    simpl; intros E s c k res H; try discriminate.
  - apply andb_true_iff in E as [G E].
    destruct (run_groupless r1 G _ _ _ _ H) as (p1 & s1 & -> & H1).
    destruct (IH2 E _ _ _ _ H1) as (p2 & ds & s2 & Hn & -> & Hk).
    exists (p1 ++ p2), ds, s2.
    split; [exact Hn | split; [now rewrite <- app_assoc | exact Hk]].
  - destruct r1; try discriminate. destruct a; try discriminate.
    apply Nat.eqb_eq in E as ->.
    destruct (run_digits_group _ _ _ _ _ H) as (ds & s1 & Hn & -> & Hk).
    exists [], ds, s1. auto.
Qed.

(** For such a pattern the match array holds a numeral at the group's
    index, and that numeral is part of the input. *)
Lemma exec_ends_in_digits n r s m :
  ends_in_digits n r = true -> n <> 0%nat ->
  exec r s = Some m ->
  exists ds pre post,
    numeral ds /\ s = pre ++ ds ++ post /\ capture n m = Some ds.
Proof.
  intros E Hn H. destruct (exec_Some _ _ _ H) as (p0 & s' & -> & Hm).
  unfold match_here in Hm. simpl in Hm.
  destruct (run_ends_in_digits n r E _ _ _ _ Hm) as (p1 & ds & s2 & Hds & -> & Hk).
  inversion Hk; subst. exists ds, (p0 ++ p1), s2.
  split; [exact Hds | split].
  - now rewrite <- app_assoc.
  - simpl. destruct n; [congruence|]. simpl. now rewrite Nat.eqb_refl.
Qed.

End MatchShape.

(** ** Priority of the match-id pattern, and quoted names *)

Section Priority.

(** When the match-id pattern matches, its first group is a numeral and
    the dispatcher answers [get_match] with the Number of that numeral,
    whatever else the text contains. *)
Lemma matchId_wins query m :
  exec matchIdPattern query = Some m ->
  exists ds pre post,
    numeral ds /\ query = pre ++ ds ++ post /\ capture 1 m = Some ds
    /\ parseNaturalQuery query
       = {| Dispatcher.type := js "get_match";
            params := [("match_id"%string, VNum (to_double (dec_value ds)))] |}.
Proof.
  intros H.
  destruct (exec_ends_in_digits 1 matchIdPattern query m eq_refl
              ltac:(discriminate) H) as (ds & pre & post & Hn & Hq & Hc).
  exists ds, pre, post. repeat split; try apply Hn; auto.
  unfold parseNaturalQuery. rewrite H, Hc. simpl.
  now rewrite (parseInt_numeral ds Hn).
Qed.

(** Text without a digit cannot match the match-id pattern. *)
Lemma matchId_needs_digit query :
  forallb (fun c => negb (is_digit c)) query = true ->
  exec matchIdPattern query = None.
Proof.
  intros H. destruct (exec matchIdPattern query) as [m|] eqn:E; [|reflexivity].
  destruct (matchId_wins query m E) as (ds & pre & post & [Hne Hds] & -> & _).
  destruct ds as [|d ds]; [congruence|].
  rewrite !forallb_app in H. simpl in *.
  apply andb_true_iff in Hds as [Hd _].
  rewrite Hd in H. simpl in H. now rewrite andb_false_r in H.
Qed.

Lemma not_quote c : c <> 34 -> c <> 39 -> in_class quotes c = false.
Proof.
  intros H1 H2. unfold in_class, quotes. cbn [existsb].
  change (canonicalize 34) with 34. change (canonicalize 39) with 39.
  unfold canonicalize. destruct ((97 <=? c) && (c <=? 122)) eqn:E.
  - apply andb_true_iff in E as [E1 E2]. apply N.leb_le in E1, E2.
    assert (A : (34 =? c - 32) = false) by (apply N.eqb_neq; lia).
    assert (B : (39 =? c - 32) = false) by (apply N.eqb_neq; lia).
    now rewrite A, B.
  - assert (A : (34 =? c) = false) by (apply N.eqb_neq; congruence).
    assert (B : (39 =? c) = false) by (apply N.eqb_neq; congruence).
    now rewrite A, B.
Qed.

Lemma quote_free_accepted name :
  quote_free name -> forallb (accepts (CNoneOf quotes)) name = true.
Proof.
  induction 1 as [|c name [H1 H2] _ IH]; cbn [forallb accepts]; [reflexivity|].
  now rewrite IH, (not_quote c H1 H2).
Qed.

(** [player named NAME], NAME in double quotes: the name pattern matches at the start and its
    group is exactly the text between the quotes. *)
Lemma playerName_here name :
  name <> [] -> quote_free name ->
  match_here playerNamePattern (js "player named " ++ 34 :: name ++ [34])
  = Some [(0%nat, js "player named " ++ 34 :: name ++ [34]); (1%nat, name)].
Proof.
  intros Hne Hq. apply quote_free_accepted in Hq.
  literal "player named "%string. unfold match_here.
  cbn -[take length Nat.sub].
  erewrite plus_app; [reflexivity | exact Hne | exact Hq | ].
  cbn -[take length Nat.sub]. repeat f_equal.
  - rewrite Nat.sub_0_r. apply firstn_all.
  - exact (take_captured name [34]).
Qed.

(** [find player named NAME], NAME in double quotes: when no match id is
    found in the text, it is a player search for NAME, character for
    character. *)
Lemma quoted_name_dispatch name :
  name <> [] -> quote_free name ->
  exec matchIdPattern (js "find player named " ++ 34 :: name ++ [34]) = None ->
  parseNaturalQuery (js "find player named " ++ 34 :: name ++ [34])
  = {| Dispatcher.type := js "search_players";
       params := [("query"%string, VStr name)] |}.
Proof.
  intros Hne Hq Hm. unfold parseNaturalQuery. rewrite Hm.
  pose proof (exec_here _ _ _ (playerName_here name Hne Hq)) as H. revert H.
  literal "find player named "%string. literal "player named "%string.
  cbn [app]. intros H. skip_positions. now rewrite H.
Qed.

(** A name without digits leaves nothing for the match-id pattern. *)
Lemma quoted_name_without_digits name :
  name <> [] -> quote_free name ->
  forallb (fun c => negb (is_digit c)) name = true ->
  parseNaturalQuery (js "find player named " ++ 34 :: name ++ [34])
  = {| Dispatcher.type := js "search_players";
       params := [("query"%string, VStr name)] |}.
Proof.
  intros Hne Hq Hd. apply quoted_name_dispatch; auto.
  apply matchId_needs_digit.
  literal "find player named "%string. cbn [app forallb].
  rewrite forallb_app, Hd. reflexivity.
Qed.

End Priority.

(** ** The operation tags *)

Section Tags.

Lemma jsstr_eqb_eq a b : jsstr_eqb a b = true <-> a = b.
Proof.
  revert b. induction a as [|x a IH]; intros [|y b]; simpl; split;
    try congruence; try discriminate.
  - intros H. apply andb_true_iff in H as [H1 H2].
    apply N.eqb_eq in H1. apply IH in H2. congruence.
  - intros H. inversion H; subst. rewrite N.eqb_refl. now apply IH.
Qed.

(** The answer is one of the six tagged shapes, chosen by the first
    pattern that matches. *)
Lemma parseNaturalQuery_shape query :
  let r := parseNaturalQuery query in
  (exists v, r = {| Dispatcher.type := js "get_match";
                    params := [("match_id"%string, VNum v)] |})
  \/ (exists v, r = {| Dispatcher.type := js "search_players";
                       params := [("query"%string, v)] |})
  \/ (exists v, r = {| Dispatcher.type := js "get_player";
                       params := [("account_id"%string, VNum v)] |})
  \/ (exists v, r = {| Dispatcher.type := js "get_player_recent_matches";
                       params := [("account_id"%string, VNum v)] |})
  \/ (exists v, r = {| Dispatcher.type := js "get_player_heroes";
                       params := [("account_id"%string, VNum v)] |})
  \/ r = {| Dispatcher.type := js "search";
            params := [("query"%string, VStr query)] |}.
Proof.
  unfold parseNaturalQuery.
  destruct (exec matchIdPattern query); [eauto|].
  destruct (exec playerNamePattern query); [eauto|].
  destruct (exec playerIdPattern query); [eauto 6|].
  destruct (exec recentMatchesPattern query); [eauto 7|].
  destruct (exec playerHeroesPattern query); [eauto 8|].
  tauto.
Qed.

End Tags.

(** ** Substring search *)

Section Includes.

Lemma starts_with_spec p s :
  starts_with p s = true <-> exists b, s = p ++ b.
Proof.
  revert s. induction p as [|a p IH]; intros s; simpl.
  - split; eauto.
  - destruct s as [|x s].
    + split; [discriminate|]. intros [b H]. discriminate.
    + rewrite andb_true_iff, N.eqb_eq, IH. split.
      * intros [-> [b ->]]. eauto.
      * intros [b H]. inversion H; subst. eauto.
Qed.

(** [includes] holds exactly of the texts that contain the searched one. *)
Lemma includes_spec s sub :
  includes s sub = true <-> exists a b, s = a ++ sub ++ b.
Proof.
  induction s as [|x s IH]; simpl.
  - rewrite orb_false_r, starts_with_spec. split.
    + intros [b H]. exists [], b. exact H.
    + intros (a & b & H). destruct a; [eauto|discriminate].
  - rewrite orb_true_iff, starts_with_spec, IH. split.
    + intros [[b H]|(a & b & ->)].
      * exists [], b. exact H.
      * exists (x :: a), b. reflexivity.
    + intros (a & b & H). destruct a as [|y a].
      * left. eauto.
      * right. inversion H; subst. eauto.
Qed.

End Includes.

(** ** The request routine of the client *)

Section MakeRequest.
Import Effects.

Variable ToString : value -> jsstr.
Variable upstream : request -> Axios.outcome.
Variable this : Client.OpenDotaClient.

Ltac run_monad :=
  unfold Client.makeRequest, mbind, mret, M_bind, M_ret, bind, ret, alloc,
    set_prop, read, log, record_call, throw; simpl.

(** Every run of [makeRequest] issues exactly one upstream GET, to the
    base URL followed by the endpoint, and its result is what the upstream
    outcome dictates: the response body, or the classified error. *)
Lemma makeRequest_outcome endpoint params st :
  exists req,
    calls (Client.makeRequest ToString upstream this endpoint params st).2
      = calls st ++ [req]
    /\ req_url req = Client.baseURL this ++ endpoint
    /\ (Client.makeRequest ToString upstream this endpoint params st).1
       = match upstream req with
         | Axios.Resolve response => Ok (Axios.data response)
         | Axios.Reject error =>
             Throw (ThrowMCP (Client.classify ToString this error))
         end.
Proof.
  run_monad.
  destruct params as [l|]; simpl;
    destruct (Client.apiKey this) as [[|c k]|]; simpl;
    match goal with
    | |- context [upstream ?r] =>
        exists r; destruct (upstream r); simpl; auto
    end.
Qed.

(** With an API key configured, the object the caller passed as [params]
    holds the key afterwards, whether the request succeeds or fails. *)
Lemma makeRequest_writes_api_key endpoint l o key st :
  Client.apiKey this = Some key -> key <> [] ->
  heap st !! l = Some o ->
  heap (Client.makeRequest ToString upstream this endpoint (Some l) st).2 !! l
  = Some (<["api_key"%string := VStr key]> o).
Proof.
  intros Hk Hne Hl. run_monad. rewrite Hk.
  destruct key as [|c k]; [congruence|]. simpl. rewrite Hl. simpl.
  match goal with
  | |- context [upstream ?r] => destruct (upstream r); simpl
  end; apply lookup_insert_eq.
Qed.

(** Without a key the caller's object is left as it was. *)
Lemma makeRequest_no_key endpoint l st :
  Client.apiKey this = None ->
  heap (Client.makeRequest ToString upstream this endpoint (Some l) st).2
  = heap st.
Proof.
  intros Hk. run_monad. rewrite Hk. simpl.
  match goal with
  | |- context [upstream ?r] => destruct (upstream r); reflexivity
  end.
Qed.

(** The class of the thrown error follows the timeout test. *)
Lemma classify_class error :
  Errors.cls (Client.classify ToString this error)
  = if Client.is_timeout error then Errors.ClsTimeoutError else Errors.ClsAPIError.
Proof. unfold Client.classify. now destruct (Client.is_timeout error). Qed.

(** The timeout test in words: the code [ECONNABORTED], or a message
    that contains [timeout]. *)
Lemma is_timeout_spec error :
  Client.is_timeout error = true <->
  Axios.code error = Some (js "ECONNABORTED")
  \/ exists a b, Axios.message error = a ++ js "timeout" ++ b.
Proof.
  unfold Client.is_timeout. rewrite orb_true_iff, includes_spec.
  destruct (Axios.code error) as [c|].
  - rewrite jsstr_eqb_eq. split; (intros [H|H]; [left; congruence | now right]).
  - split; (intros [H|H]; [discriminate | now right]).
Qed.

End MakeRequest.

(** ** The request handler *)

(** An object without the key reads as [undefined] there. *)
Lemma get_field_absent key o :
  ~ In key (map fst o) -> get_field key o = VUndef.
Proof.
  induction o as [|[k v] o IH]; simpl; intros H; [reflexivity|].
  destruct (String.eqb_spec k key) as [->|Hne]; [tauto|]. apply IH. tauto.
Qed.

Section Handler.
Import Effects.

Variable ToString : value -> jsstr.
Variable JSON_stringify : value -> jsstr.
Variable upstream : request -> Axios.outcome.
Variable env : Client.environment.

Local Abbreviation handler := (Router.handler ToString JSON_stringify upstream env).
Local Abbreviation tool_body := (Router.tool_body ToString JSON_stringify upstream env).
Local Abbreviation error_result := (Router.error_result JSON_stringify env).
Local Abbreviation normalize := (Router.normalize ToString).

(** Arguments that pass a one-field string schema hold a string in that
    field: the last branch of the [natural_query] case is never taken. *)
Lemma string_schema_passes key input a st st' :
  Zod.parse [(key, Zod.ZString)] input st = (Ok a, st') ->
  exists s, get_field key a = VStr s.
Proof.
  unfold Zod.parse. destruct input; try discriminate.
  cbn [flat_map Zod.check map app fst snd].
  destruct (get_field key o) eqn:E; try discriminate.
  intros H. inversion H; subst. cbn [get_field].
  rewrite String.eqb_refl. eauto.
Qed.

(** [get_match] without a [match_id]: the schema rejects the arguments,
    the catch block answers, and the state shows two log entries and no
    upstream call. *)
Lemma get_match_missing_id o st :
  get_field "match_id" o = VUndef ->
  let mcpError :=
    validation_error [Zod.invalid_type (js "number") ["match_id"%string] VUndef] in
  handler (js "get_match") (VObj o) st
  = (Ok (error_result mcpError),
     {| heap := heap st;
        calls := calls st;
        logs := (logs st ++ [ToolRequestStart (js "get_match") (VObj o)])
                ++ [ToolExecution (js "get_match") (VObj o) false (Some mcpError)] |}).
Proof.
  intros H. unfold Router.handler, Router.tool_body.
  change (Router.tool_is (js "get_match") "get_match") with true.
  unfold Zod.parse, Router.GetMatchSchema, try_catch, mbind, mret, M_bind, M_ret,
    bind, ret, throw, log. simpl.
  rewrite H. reflexivity.
Qed.

(** [natural_query] on a text the dispatcher answers with the fallback:
    an explanatory text, one log entry, no upstream call, no object
    created. *)
Lemma natural_query_fallback o query st :
  get_field "query" o = VStr query ->
  Dispatcher.type (parseNaturalQuery query) = js "search" ->
  handler (js "natural_query") (VObj o) st
  = (Ok (Router.text_result (Router.not_understood query)),
     {| heap := heap st;
        calls := calls st;
        logs := logs st ++ [ToolRequestStart (js "natural_query") (VObj o)] |}).
Proof.
  intros H Hs. unfold Router.handler, Router.tool_body.
  change (Router.tool_is (js "natural_query") "get_match") with false.
  change (Router.tool_is (js "natural_query") "get_player") with false.
  change (Router.tool_is (js "natural_query") "get_player_matches") with false.
  change (Router.tool_is (js "natural_query") "get_player_recent_matches") with false.
  change (Router.tool_is (js "natural_query") "get_player_heroes") with false.
  change (Router.tool_is (js "natural_query") "search_players") with false.
  change (Router.tool_is (js "natural_query") "get_heroes") with false.
  change (Router.tool_is (js "natural_query") "get_pro_matches") with false.
  change (Router.tool_is (js "natural_query") "natural_query") with true.
  cbv iota.
  unfold Zod.parse, Router.NaturalQuerySchema, try_catch, mbind, mret,
    M_bind, M_ret, bind, throw, ret, log.
  cbn [flat_map Zod.check map app fst snd]. rewrite H. cbn [app].
  cbn [get_field String.eqb Ascii.eqb Bool.eqb].
  unfold Router.run_parsed. rewrite Hs.
  change (Router.tool_is (js "search") "get_match") with false.
  change (Router.tool_is (js "search") "get_player") with false.
  change (Router.tool_is (js "search") "search_players") with false.
  change (Router.tool_is (js "search") "get_player_recent_matches") with false.
  change (Router.tool_is (js "search") "get_player_heroes") with false.
  reflexivity.
Qed.

(** The handler is the body with every thrown value caught: it returns
    the body's response, or the error response built from the normalized
    error, after logging the failure. *)
Lemma handler_catches name args st :
  let st0 := (log (ToolRequestStart name args) st).2 in
  handler name args st
  = match tool_body name args st0 with
    | (Ok r, st') => (Ok r, st')
    | (Throw error, st') =>
        (Ok (error_result (normalize error)),
         (log (ToolExecution name args false (Some (normalize error))) st').2)
    end.
Proof.
  unfold Router.handler, try_catch, mbind, mret, M_bind, M_ret, bind, ret, log.
  simpl. now destruct (tool_body _ _ _) as [[r|e] st'].
Qed.

(** Nothing escapes the handler: every invocation returns a response. *)
Lemma handler_never_throws name args st :
  exists r st', handler name args st = (Ok r, st').
Proof.
  rewrite handler_catches. cbv zeta.
  destruct (tool_body _ _ _) as [[r|e] st']; eauto.
Qed.

(** The error response: flagged, one text item, the message after
    [Error: ], and the details only in development. *)
Lemma error_result_shape mcpError :
  exists tail,
    error_result mcpError
    = {| Router.content :=
           [{| Router.type := js "text";
               Router.text := js "Error: " ++ Errors.message mcpError ++ tail |}];
         Router.isError := true |}
    /\ (tail <> [] ->
        Router.development env = true
        /\ truthy (Errors.details mcpError) = true
        /\ tail = Router.newline2 ++ js "Details: "
                  ++ JSON_stringify (Errors.details mcpError))
    /\ (Router.development env = true ->
        truthy (Errors.details mcpError) = true ->
        tail = Router.newline2 ++ js "Details: "
               ++ JSON_stringify (Errors.details mcpError)).
Proof.
  unfold Router.error_result.
  destruct (Router.development env), (truthy (Errors.details mcpError)); simpl;
    eexists; (split; [reflexivity|]); split; intros; auto; congruence.
Qed.

(** What each kind of thrown value is normalized to. *)
Lemma normalize_kinds :
  (forall errors,
      normalize (ThrowZod errors) = validation_error errors
      /\ Errors.cls (normalize (ThrowZod errors)) = Errors.ClsValidationError
      /\ Errors.statusCode (normalize (ThrowZod errors)) = Finite 400)
  /\ (forall e, normalize (ThrowMCP e) = e)
  /\ (forall message,
         Errors.message (normalize (ThrowError message)) = message
         /\ Errors.code (normalize (ThrowError message)) = js "TOOL_EXECUTION_ERROR"
         /\ Errors.statusCode (normalize (ThrowError message)) = Finite 500)
  /\ (forall v,
         Errors.message (normalize (ThrowValue v)) = ToString v
         /\ Errors.code (normalize (ThrowValue v)) = js "UNKNOWN_ERROR"
         /\ Errors.statusCode (normalize (ThrowValue v)) = Finite 500).
Proof. repeat split. Qed.

End Handler.

(* ================================================================== *)
(** * The claims *)

(** ** Dispatcher *)

(** Claim C1, as the code has it.  For every numeral N, the text
    [recent matches for player N] is dispatched to [get_player] with
    account id N (the Number nearest to N), because the bare player-id
    pattern is tried before the recent-matches pattern; the answer is
    never [get_player_recent_matches]. *)
Theorem recent_matches_for_player_is_get_player ds :
  numeral ds ->
  parseNaturalQuery (js "recent matches for player " ++ ds)
  = {| Dispatcher.type := js "get_player";
       params := [("account_id"%string, VNum (to_double (dec_value ds)))] |}
  /\ Dispatcher.type (parseNaturalQuery (js "recent matches for player " ++ ds))
     <> js "get_player_recent_matches".
Proof.
  intros Hn. destruct (player_numeral_dispatch ds Hn) as (H & _ & _).
  rewrite H. split; [reflexivity | discriminate].
Qed.

Lemma recent_matches_for_player_123456789 :
  numeral (js "123456789")
  /\ parseNaturalQuery (js "recent matches for player 123456789")
     = {| Dispatcher.type := js "get_player";
          params := [("account_id"%string, VNum (Finite 123456789))] |}
  /\ Dispatcher.type (parseNaturalQuery (js "recent matches for player 123456789"))
     <> js "get_player_recent_matches".
Proof.
  split; [split; [discriminate | reflexivity]|].
  apply (recent_matches_for_player_is_get_player (js "123456789")).
  split; [discriminate | reflexivity].
Defined.

(** The copy of the parser in the unit test answers what claim C1 says. *)
Example test_copy_recent_matches :
  IndexTest.parseNaturalQuery (js "recent matches for player 123456789")
  = {| Dispatcher.type := js "get_player_recent_matches";
       params := [("account_id"%string, VNum (Finite 123456789))] |}.
Proof. vm_compute. reflexivity. Qed.

(** Claim C2, as the code has it.  For every numeral N, both
    [heroes for player N] and [player N heroes] are dispatched to
    [get_player] with account id N, not to [get_player_heroes]: the bare
    player-id pattern is tried first and matches [player N]. *)
Theorem heroes_for_player_is_get_player ds :
  numeral ds ->
  let r := {| Dispatcher.type := js "get_player";
              params := [("account_id"%string, VNum (to_double (dec_value ds)))] |} in
  parseNaturalQuery (js "heroes for player " ++ ds) = r
  /\ parseNaturalQuery (js "player " ++ ds ++ js " heroes") = r
  /\ Dispatcher.type r <> js "get_player_heroes".
Proof.
  intros Hn. destruct (player_numeral_dispatch ds Hn) as (_ & H1 & H2).
  repeat split; [exact H1 | exact H2 | discriminate].
Qed.

Lemma heroes_for_player_123456789 :
  numeral (js "123456789")
  /\ parseNaturalQuery (js "heroes for player 123456789")
     = {| Dispatcher.type := js "get_player";
          params := [("account_id"%string, VNum (Finite 123456789))] |}
  /\ parseNaturalQuery (js "player 123456789 heroes")
     = {| Dispatcher.type := js "get_player";
          params := [("account_id"%string, VNum (Finite 123456789))] |}.
Proof.
  split; [split; [discriminate | reflexivity]|].
  destruct (heroes_for_player_is_get_player (js "123456789")) as (H1 & H2 & _).
  - split; [discriminate | reflexivity].
  - split; [exact H1 | exact H2].
Defined.

(** The copy of the parser in the unit test answers what claim C2 says. *)
Example test_copy_heroes :
  IndexTest.parseNaturalQuery (js "heroes for player 123456789")
  = {| Dispatcher.type := js "get_player_heroes";
       params := [("account_id"%string, VNum (Finite 123456789))] |}
  /\ IndexTest.parseNaturalQuery (js "player 123456789 heroes")
     = {| Dispatcher.type := js "get_player_heroes";
          params := [("account_id"%string, VNum (Finite 123456789))] |}.
Proof. split; vm_compute; reflexivity. Qed.

(** Claim C6.  A text that matches both the match-id pattern and the bare
    player-id pattern is dispatched to [get_match], with the integer the
    match-id pattern captured: its first group is a numeral of the text
    and the match id is the Number of that numeral. *)
Theorem match_id_has_priority query m m' :
  exec matchIdPattern query = Some m ->
  exec playerIdPattern query = Some m' ->
  exists ds,
    numeral ds /\ capture 1 m = Some ds
    /\ parseNaturalQuery query
       = {| Dispatcher.type := js "get_match";
            params := [("match_id"%string, VNum (to_double (dec_value ds)))] |}.
Proof.
  intros H _. destruct (matchId_wins query m H) as (ds & _ & _ & Hn & _ & Hc & Hr).
  eauto.
Qed.

Lemma match_5_player_9 :
  exec matchIdPattern (js "match 5 player 9")
    = Some [(0%nat, js "match 5"); (1%nat, js "5")]
  /\ exec playerIdPattern (js "match 5 player 9")
       = Some [(0%nat, js "player 9"); (1%nat, js "9")]
  /\ exists ds,
       numeral ds
       /\ capture 1 [(0%nat, js "match 5"); (1%nat, js "5")] = Some ds
       /\ parseNaturalQuery (js "match 5 player 9")
          = {| Dispatcher.type := js "get_match";
               params := [("match_id"%string, VNum (to_double (dec_value ds)))] |}.
Proof.
  split; [reflexivity|]. split; [reflexivity|].
  apply (match_id_has_priority (js "match 5 player 9")
           [(0%nat, js "match 5"); (1%nat, js "5")]
           [(0%nat, js "player 9"); (1%nat, js "9")]); reflexivity.
Defined.

Example match_5_player_9_result :
  parseNaturalQuery (js "match 5 player 9")
  = {| Dispatcher.type := js "get_match";
       params := [("match_id"%string, VNum (Finite 5))] |}.
Proof. reflexivity. Qed.

(** Claim C8.  [find player named NAME], with NAME in double quotes, for
    a non-empty NAME without quote characters and a text in which no match id is found, is
    dispatched to [search_players] with query NAME exactly: nothing is
    trimmed but the quotes. *)
Theorem quoted_player_name_is_search_players name :
  name <> [] -> quote_free name ->
  exec matchIdPattern (js "find player named " ++ 34 :: name ++ [34]) = None ->
  parseNaturalQuery (js "find player named " ++ 34 :: name ++ [34])
  = {| Dispatcher.type := js "search_players";
       params := [("query"%string, VStr name)] |}.
Proof. exact (quoted_name_dispatch name). Qed.

Lemma find_player_named_Foo :
  js "Foo" <> []
  /\ quote_free (js "Foo")
  /\ exec matchIdPattern (js "find player named " ++ 34 :: js "Foo" ++ [34]) = None
  /\ parseNaturalQuery (js "find player named " ++ 34 :: js "Foo" ++ [34])
     = {| Dispatcher.type := js "search_players";
          params := [("query"%string, VStr (js "Foo"))] |}.
Proof.
  assert (Hq : quote_free (js "Foo")).
  { repeat constructor; discriminate. }
  split; [discriminate|]. split; [exact Hq|]. split; [reflexivity|].
  apply (quoted_player_name_is_search_players (js "Foo"));
    [discriminate | exact Hq | reflexivity].
Defined.

(** Surrounding blanks inside the quotes are kept. *)
Example find_player_named_padded :
  parseNaturalQuery (js "find player named " ++ 34 :: js "  Foo Bar " ++ [34])
  = {| Dispatcher.type := js "search_players";
       params := [("query"%string, VStr (js "  Foo Bar "))] |}.
Proof. reflexivity. Qed.

(** Claim C9.  [parseNaturalQuery] is a function on all strings; the tag
    of its answer is one of [get_match], [search_players], [get_player],
    [get_player_recent_matches], [get_player_heroes], [search], and is
    never [get_heroes] or [get_pro_matches]. *)
Theorem parseNaturalQuery_tags query :
  In (Dispatcher.type (parseNaturalQuery query)) operation_tags
  /\ Dispatcher.type (parseNaturalQuery query) <> js "get_heroes"
  /\ Dispatcher.type (parseNaturalQuery query) <> js "get_pro_matches".
Proof.
  destruct (parseNaturalQuery_shape query)
    as [[v ->]|[[v ->]|[[v ->]|[[v ->]|[[v ->]| ->]]]]];
    (split; [simpl; tauto | split; discriminate]).
Qed.

(** ** Client *)

Section ClientCalls.
Import Effects.

Variable ToString : value -> jsstr.
Variable upstream : request -> Axios.outcome.
Variable this : Client.OpenDotaClient.

Lemma makeRequest_calls_once endpoint params :
  calls_once (Client.makeRequest ToString upstream this endpoint params).
Proof.
  intros st.
  destruct (makeRequest_outcome ToString upstream this endpoint params st)
    as (req & H & _). eauto.
Qed.

(** Every method of the client reaches the upstream service: a run that
    leaves the trace of calls unchanged has invoked none of them. *)
Lemma client_methods_call_once :
  (forall v, calls_once (Client.getMatch ToString upstream this v))
  /\ (forall v, calls_once (Client.getPlayer ToString upstream this v))
  /\ (forall v o, calls_once (Client.getPlayerMatches ToString upstream this v o))
  /\ (forall v, calls_once (Client.getPlayerRecentMatches ToString upstream this v))
  /\ (forall v, calls_once (Client.getPlayerHeroes ToString upstream this v))
  /\ calls_once (Client.getHeroes ToString upstream this)
  /\ (forall v, calls_once (Client.searchPlayers ToString upstream this v))
  /\ calls_once (Client.getProMatches ToString upstream this)
  /\ calls_once (Client.getPublicMatches ToString upstream this).
Proof.
  refine (conj _ (conj _ (conj _ (conj _ (conj _ (conj _ (conj _ (conj _ _))))))));
    intros; try apply makeRequest_calls_once.
  all: intros st;
    unfold Client.getPlayerMatches, Client.searchPlayers, mbind, M_bind, bind;
    simpl;
    match goal with
    | |- context [Client.makeRequest _ _ _ ?e ?p ?s] =>
        exact (makeRequest_calls_once e p s)
    end.
Qed.

End ClientCalls.

(** Claim C4.  When the upstream GET of [makeRequest] fails, the routine
    throws a [TimeoutError] if the error has the connection-abort code or
    a message containing [timeout]; otherwise it throws an [APIError]
    that carries the upstream HTTP status when there is one (500 when
    there is no response) and the upstream error body under [response] in
    its details. *)
Theorem makeRequest_failure_classification
    ToString upstream this endpoint params st req error :
  last (Effects.calls (Client.makeRequest ToString upstream this endpoint params st).2)
    = Some req ->
  upstream req = Axios.Reject error ->
  exists e,
    (Client.makeRequest ToString upstream this endpoint params st).1
      = Effects.Throw (Effects.ThrowMCP e)
    /\ ((Axios.code error = Some (js "ECONNABORTED")
         \/ exists a b, Axios.message error = a ++ js "timeout" ++ b) ->
        Errors.cls e = Errors.ClsTimeoutError)
    /\ (~ (Axios.code error = Some (js "ECONNABORTED")
           \/ exists a b, Axios.message error = a ++ js "timeout" ++ b) ->
        Errors.cls e = Errors.ClsAPIError
        /\ (forall r, Axios.response error = Some r ->
                      truthy (VNum (Axios.status r)) = true ->
                      Errors.statusCode e = Axios.status r)
        /\ (Axios.response error = None -> Errors.statusCode e = Finite 500)
        /\ get "response" (Errors.details e) = Client.response_data error
        /\ (forall r, Axios.response error = Some r ->
                      get "response" (Errors.details e) = Axios.data r)).
Proof.
  intros Hlast Hup.
  destruct (makeRequest_outcome ToString upstream this endpoint params st)
    as (req' & Hc & _ & Hr).
  rewrite Hc, last_snoc in Hlast. inversion Hlast; subst req'.
  rewrite Hup in Hr. exists (Client.classify ToString this error).
  split; [exact Hr|]. rewrite <- is_timeout_spec, classify_class.
  split.
  - now intros ->.
  - intros Hn. apply not_true_is_false in Hn. rewrite Hn.
    unfold Client.classify, Client.response_data. rewrite Hn. simpl.
    repeat split.
    + intros r Hresp Ht. rewrite Hresp. simpl. now rewrite Ht.
    + now intros ->.
    + now intros r ->.
Qed.

Lemma makeRequest_404 :
  let ToString := fun _ : value => js "30000" in
  let upstream := fun _ : Effects.request => Axios.Reject not_found in
  let this := Client.new_OpenDotaClient ∅ in
  let req := {| Effects.req_url := js "https://api.opendota.com/api/heroes";
                Effects.req_params := ∅;
                Effects.req_timeout := Finite 30000;
                Effects.req_userAgent := js "OpenDota-MCP-Server/1.0.0" |} in
  last (Effects.calls
          (Client.makeRequest ToString upstream this (js "/heroes") None
             Effects.initial).2) = Some req
  /\ upstream req = Axios.Reject not_found
  /\ exists e,
       (Client.makeRequest ToString upstream this (js "/heroes") None
          Effects.initial).1 = Effects.Throw (Effects.ThrowMCP e)
       /\ Errors.cls e = Errors.ClsAPIError
       /\ Errors.statusCode e = Finite 404
       /\ get "response" (Errors.details e)
          = VObj [("error"%string, VStr (js "not found"))].
Proof.
  intros ToString upstream this req.
  assert (Hlast : last (Effects.calls
            (Client.makeRequest ToString upstream this (js "/heroes") None
               Effects.initial).2) = Some req) by (vm_compute; reflexivity).
  split; [exact Hlast|]. split; [reflexivity|].
  destruct (makeRequest_failure_classification ToString upstream this
              (js "/heroes") None Effects.initial req not_found Hlast eq_refl)
    as (e & He & _ & Hapi).
  exists e. split; [exact He|].
  assert (Hn : ~ (Axios.code not_found = Some (js "ECONNABORTED")
                  \/ exists a b, Axios.message not_found = a ++ js "timeout" ++ b)).
  { rewrite <- is_timeout_spec. vm_compute. discriminate. }
  destruct (Hapi Hn) as (Hcls & Hst & _ & _ & Hbody).
  split; [exact Hcls|]. split.
  - exact (Hst _ eq_refl eq_refl).
  - exact (Hbody _ eq_refl).
Defined.

(** Claim C10.  With an API key configured, [makeRequest] writes
    [api_key] into the very object its caller passed as [params]; the
    options object handed to [getPlayerMatches] therefore holds an
    [api_key] entry after the call and, unless it held that entry before,
    is no longer what the caller built. *)
Theorem api_key_is_written_into_caller_options
    ToString upstream this endpoint accountId l o key st :
  Client.apiKey this = Some key -> key <> [] ->
  Effects.heap st !! l = Some o ->
  let after_request :=
    Effects.heap (Client.makeRequest ToString upstream this endpoint (Some l) st).2 in
  let after_matches :=
    Effects.heap (Client.getPlayerMatches ToString upstream this accountId (Some l) st).2 in
  after_request !! l = Some (<["api_key"%string := VStr key]> o)
  /\ after_matches !! l = Some (<["api_key"%string := VStr key]> o)
  /\ (forall o', after_matches !! l = Some o' ->
                 o' !! "api_key"%string = Some (VStr key))
  /\ (o !! "api_key"%string <> Some (VStr key) ->
      after_matches !! l <> Effects.heap st !! l).
Proof.
  intros Hk Hne Hl after_request after_matches.
  assert (H1 : after_request !! l = Some (<["api_key"%string := VStr key]> o))
    by now apply makeRequest_writes_api_key.
  assert (H2 : after_matches !! l = Some (<["api_key"%string := VStr key]> o))
    by now apply makeRequest_writes_api_key.
  split; [exact H1|]. split; [exact H2|]. split.
  - intros o' Ho'. rewrite H2 in Ho'. inversion Ho'; subst.
    apply lookup_insert_eq.
  - intros Hold Heq. rewrite H2, Hl in Heq. inversion Heq as [Ho].
    apply Hold. rewrite <- Ho. apply lookup_insert_eq.
Qed.

Lemma api_key_in_options_example :
  let ToString := fun _ : value => js "123456789" in
  let upstream := fun _ : Effects.request =>
    Axios.Resolve {| Axios.status := Finite 200; Axios.data := VArr [] |} in
  let this := Client.new_OpenDotaClient {[ "OPENDOTA_API_KEY"%string := js "test-key" ]} in
  let o : gmap string value :=
    {[ "limit"%string := VNum (Finite 10); "hero_id"%string := VNum (Finite 1) ]} in
  let st := {| Effects.heap := {[ 0%nat := o ]}; Effects.calls := [];
               Effects.logs := [] |} in
  Client.apiKey this = Some (js "test-key")
  /\ js "test-key" <> []
  /\ Effects.heap st !! 0%nat = Some o
  /\ Effects.heap
       (Client.getPlayerMatches ToString upstream this
          (VNum (Finite 123456789)) (Some 0%nat) st).2 !! 0%nat
     = Some (<["api_key"%string := VStr (js "test-key")]> o).
Proof.
  intros ToString upstream this o st.
  assert (Hk : Client.apiKey this = Some (js "test-key")) by (vm_compute; reflexivity).
  assert (Hl : Effects.heap st !! 0%nat = Some o) by (vm_compute; reflexivity).
  split; [exact Hk|]. split; [discriminate|]. split; [exact Hl|].
  destruct (api_key_is_written_into_caller_options ToString upstream this
              (js "/players/123456789/matches") (VNum (Finite 123456789))
              0%nat o (js "test-key") st Hk ltac:(discriminate) Hl)
    as (_ & H & _).
  exact H.
Defined.

(** ** Router *)

(** Claim C3.  [get_match] invoked with an argument object that has no
    [match_id] field answers with the error response of a
    [ValidationError] (code [VALIDATION_ERROR], status 400), and the run
    issues no upstream call and creates no object: no method of the
    client was invoked. *)
Theorem get_match_requires_match_id
    ToString JSON_stringify upstream env o st :
  ~ In "match_id"%string (map fst o) ->
  exists mcpError st',
    Router.handler ToString JSON_stringify upstream env
      (js "get_match") (VObj o) st
    = (Effects.Ok (Router.error_result JSON_stringify env mcpError), st')
    /\ Router.isError (Router.error_result JSON_stringify env mcpError) = true
    /\ Errors.cls mcpError = Errors.ClsValidationError
    /\ Errors.message mcpError = js "Invalid tool arguments"
    /\ Errors.code mcpError = js "VALIDATION_ERROR"
    /\ Errors.statusCode mcpError = Finite 400
    /\ last (Effects.logs st')
       = Some (Effects.ToolExecution (js "get_match") (VObj o) false (Some mcpError))
    /\ Effects.calls st' = Effects.calls st
    /\ Effects.heap st' = Effects.heap st.
Proof.
  intros Habs. apply get_field_absent in Habs.
  do 2 eexists. split.
  - exact (get_match_missing_id ToString JSON_stringify upstream env o st Habs).
  - cbn [Effects.logs Effects.calls Effects.heap].
    rewrite last_snoc. repeat split.
Qed.

Lemma get_match_empty_arguments :
  let ToString := fun _ : value => js "0" in
  let JSON_stringify := fun _ : value => js "{}" in
  let upstream := fun _ : Effects.request =>
    Axios.Resolve {| Axios.status := Finite 200; Axios.data := VObj [] |} in
  ~ In "match_id"%string (map fst (@nil (string * value)))
  /\ exists r st',
       Router.handler ToString JSON_stringify upstream ∅
         (js "get_match") (VObj []) Effects.initial = (Effects.Ok r, st')
       /\ Router.isError r = true
       /\ Router.content r
          = [{| Router.type := js "text";
                Router.text := js "Error: Invalid tool arguments" |}]
       /\ Effects.calls st' = [].
Proof.
  intros ToString JSON_stringify upstream.
  assert (Habs : ~ In "match_id"%string (map fst (@nil (string * value))))
    by (simpl; tauto).
  split; [exact Habs|].
  destruct (get_match_requires_match_id ToString JSON_stringify upstream ∅
              [] Effects.initial Habs)
    as (e & st' & Hrun & Herr & _ & Hmsg & _ & _ & _ & Hcalls & _).
  exists (Router.error_result JSON_stringify ∅ e), st'.
  split; [exact Hrun|]. split; [exact Herr|]. split; [|exact Hcalls].
  unfold Router.error_result. cbn [Router.content]. rewrite Hmsg. reflexivity.
Defined.

(** Claim C5.  A text that none of the five patterns matches is answered
    with the fallback [search] operation carrying the text itself, and
    the [natural_query] tool turns that answer into a plain explanatory
    text, not flagged as an error: one text item that says the query
    could not be understood, repeats the query between double quotes
    (code unit 34) and points to the other tools.  The run issues no
    upstream call and creates no object, so no method of the client was
    invoked. *)
Theorem unmatched_query_falls_back
    ToString JSON_stringify upstream env query :
  exec matchIdPattern query = None ->
  exec playerNamePattern query = None ->
  exec playerIdPattern query = None ->
  exec recentMatchesPattern query = None ->
  exec playerHeroesPattern query = None ->
  parseNaturalQuery query
  = {| Dispatcher.type := js "search";
       params := [("query"%string, VStr query)] |}
  /\ forall o st,
       get_field "query" o = VStr query ->
       exists st',
         Router.handler ToString JSON_stringify upstream env
           (js "natural_query") (VObj o) st
         = (Effects.Ok
              {| Router.content :=
                   [{| Router.type := js "text";
                       Router.text :=
                         js "I couldn't understand your query: "
                         ++ [34] ++ query ++ [34]
                         ++ js ". Please try asking about specific matches, players, or use one of the available tools." |}];
                 Router.isError := false |},
            st')
         /\ Effects.calls st' = Effects.calls st
         /\ Effects.heap st' = Effects.heap st.
Proof.
  intros H1 H2 H3 H4 H5.
  assert (Hp : parseNaturalQuery query
               = {| Dispatcher.type := js "search";
                    params := [("query"%string, VStr query)] |}).
  { unfold parseNaturalQuery. now rewrite H1, H2, H3, H4, H5. }
  split; [exact Hp|]. intros o st Hq. eexists. split.
  - apply (natural_query_fallback ToString JSON_stringify upstream env
             o query st Hq). now rewrite Hp.
  - split; reflexivity.
Qed.

Lemma meaning_of_life_falls_back :
  let ToString := fun _ : value => js "0" in
  let JSON_stringify := fun _ : value => js "{}" in
  let upstream := fun _ : Effects.request =>
    Axios.Resolve {| Axios.status := Finite 200; Axios.data := VObj [] |} in
  let query := js "what is the meaning of life" in
  exec matchIdPattern query = None
  /\ exec playerNamePattern query = None
  /\ exec playerIdPattern query = None
  /\ exec recentMatchesPattern query = None
  /\ exec playerHeroesPattern query = None
  /\ parseNaturalQuery query
     = {| Dispatcher.type := js "search";
          params := [("query"%string, VStr query)] |}
  /\ exists r st',
       Router.handler ToString JSON_stringify upstream ∅ (js "natural_query")
         (VObj [("query"%string, VStr query)]) Effects.initial = (Effects.Ok r, st')
       /\ Router.content r
          = [{| Router.type := js "text";
                Router.text :=
                  js "I couldn't understand your query: "
                  ++ [34] ++ js "what is the meaning of life" ++ [34]
                  ++ js ". Please try asking about specific matches, players, or use one of the available tools." |}]
       /\ Router.isError r = false
       /\ Effects.calls st' = [].
Proof.
  intros ToString JSON_stringify upstream query.
  do 5 (split; [reflexivity|]).
  destruct (unmatched_query_falls_back ToString JSON_stringify upstream ∅ query
              eq_refl eq_refl eq_refl eq_refl eq_refl) as [Hp Hh].
  split; [exact Hp|].
  destruct (Hh [("query"%string, VStr query)] Effects.initial eq_refl)
    as (st' & Hrun & Hcalls & _).
  eexists _, st'. split; [exact Hrun|].
  split; [reflexivity|]. split; [reflexivity | exact Hcalls].
Defined.

(** Claim C7.  Whatever the body of a tool invocation throws (a schema
    violation, a [TimeoutError] or [APIError] of the client, another
    error, or any other value), the handler does not throw: it returns a
    response flagged as an error whose single text item is [Error: ]
    followed by the message of the normalized error; the details follow
    the message only when [NODE_ENV] is [development] (and the error has
    details). *)
Theorem thrown_errors_become_error_responses
    ToString JSON_stringify upstream env name args st error st1 :
  Router.tool_body ToString JSON_stringify upstream env name args
    (Effects.log (Effects.ToolRequestStart name args) st).2
  = (Effects.Throw error, st1) ->
  let mcpError := Router.normalize ToString error in
  exists tail st2,
    Router.handler ToString JSON_stringify upstream env name args st
    = (Effects.Ok
         {| Router.content :=
              [{| Router.type := js "text";
                  Router.text := js "Error: " ++ Errors.message mcpError ++ tail |}];
            Router.isError := true |},
       st2)
    /\ (tail <> [] ->
        Router.development env = true
        /\ tail = Router.newline2 ++ js "Details: "
                  ++ JSON_stringify (Errors.details mcpError))
    /\ (Router.development env = false -> tail = [])
    /\ (Router.development env = true ->
        truthy (Errors.details mcpError) = true ->
        tail = Router.newline2 ++ js "Details: "
               ++ JSON_stringify (Errors.details mcpError))
    /\ last (Effects.logs st2)
       = Some (Effects.ToolExecution name args false (Some mcpError)).
Proof.
  intros Hbody mcpError.
  rewrite (handler_catches ToString JSON_stringify upstream env name args st).
  cbv zeta. rewrite Hbody.
  destruct (error_result_shape JSON_stringify env mcpError)
    as (tail & Hr & Hsome & Hdev).
  exists tail. eexists. split; [now rewrite <- Hr|].
  split; [|split; [|split]].
  - intros Ht. destruct (Hsome Ht) as (Hd & _ & Htail). auto.
  - intros Hf. destruct tail as [|c tail]; [reflexivity|].
    destruct (Hsome ltac:(discriminate)) as (Hd & _). congruence.
  - exact Hdev.
  - unfold Effects.log. cbn [snd Effects.logs]. apply last_snoc.
Qed.

Lemma unknown_tool_is_an_error_response :
  let ToString := fun _ : value => js "0" in
  let JSON_stringify := fun _ : value => js "{}" in
  let upstream := fun _ : Effects.request =>
    Axios.Resolve {| Axios.status := Finite 200; Axios.data := VObj [] |} in
  let st1 := (Effects.log (Effects.ToolRequestStart (js "nope") (VObj []))
                Effects.initial).2 in
  Router.tool_body ToString JSON_stringify upstream ∅ (js "nope") (VObj []) st1
  = (Effects.Throw (Effects.ThrowError (js "Unknown tool: nope")), st1)
  /\ exists st2,
       Router.handler ToString JSON_stringify upstream ∅ (js "nope") (VObj [])
         Effects.initial
       = (Effects.Ok
            {| Router.content :=
                 [{| Router.type := js "text";
                     Router.text := js "Error: Unknown tool: nope" |}];
               Router.isError := true |},
          st2).
Proof.
  intros ToString JSON_stringify upstream st1.
  assert (Hbody :
    Router.tool_body ToString JSON_stringify upstream ∅ (js "nope") (VObj []) st1
    = (Effects.Throw (Effects.ThrowError (js "Unknown tool: nope")), st1))
    by reflexivity.
  split; [exact Hbody|].
  destruct (thrown_errors_become_error_responses ToString JSON_stringify
              upstream ∅ (js "nope") (VObj []) Effects.initial _ _ Hbody)
    as (tail & st2 & Hr & _ & Hoff & _).
  exists st2. rewrite Hr, (Hoff eq_refl). reflexivity.
Defined.

(* ================================================================== *)
(** * Further properties *)

(** ** The matcher against the declarative reading of patterns *)

Section Meta.

Lemma run_sound r :
  forall s c k res,
    run r s c k = Some res ->
    exists s1 c1, matches r s s1 /\ k s1 c1 = Some res.
Proof.
  induction r as [|a|r1 IH1 r2 IH2|r1 IH1 r2 IH2|r1 IH1|a|n r1 IH1];
    simpl; intros s c k res H.
  - exists s, c. split; [constructor | exact H].
  - destruct s as [|x s]; [discriminate|].
    destruct (accepts a x) eqn:E; [|discriminate].
    exists s, c. split; [now constructor | exact H].
  - destruct (IH1 _ _ _ _ H) as (s1 & c1 & M1 & H1).
    destruct (IH2 _ _ _ _ H1) as (s2 & c2 & M2 & H2).
    exists s2, c2. split; [econstructor; eauto | exact H2].
  - destruct (run r1 s c k) as [res'|] eqn:E.
    + inversion H; subst. destruct (IH1 _ _ _ _ E) as (s1 & c1 & M1 & H1).
      exists s1, c1. split; [now apply M_AltL | exact H1].
    + destruct (IH2 _ _ _ _ H) as (s1 & c1 & M1 & H1).
      exists s1, c1. split; [now apply M_AltR | exact H1].
  - destruct (run r1 s c k) as [res'|] eqn:E.
    + inversion H; subst. destruct (IH1 _ _ _ _ E) as (s1 & c1 & M1 & H1).
      exists s1, c1. split; [now apply M_OptSome | exact H1].
    + exists s, c. split; [apply M_OptNone | exact H].
  - destruct (plus_Some _ _ _ _ _ H) as (xs & s1 & Hne & -> & Hxs & Hk).
    exists s1, c. split; [now constructor | exact Hk].
  - destruct (IH1 _ _ _ _ H) as (s1 & c1 & M1 & H1).
    eexists s1, _. split; [now constructor | exact H1].
Qed.

Lemma star_keeps a s c k : is_Some (k s c) -> is_Some (star a s c k).
Proof.
  intros H. destruct s as [|x s]; simpl; [exact H|].
  destruct (accepts a x); [|exact H].
  destruct (star a s c k); [eauto | exact H].
Qed.

Lemma star_reaches a xs rest c k :
  forallb (accepts a) xs = true ->
  is_Some (k rest c) -> is_Some (star a (xs ++ rest) c k).
Proof.
  induction xs as [|x xs IH]; simpl; intros H Hk.
  - now apply star_keeps.
  - apply andb_true_iff in H as [Hx Hxs]. rewrite Hx.
    destruct (IH Hxs Hk) as [res ->]. eauto.
Qed.

Lemma run_complete r s s1 :
  matches r s s1 ->
  forall c k, (forall c1, is_Some (k s1 c1)) -> is_Some (run r s c k).
Proof.
  induction 1 as [s|a x s Ha|r1 r2 s s1 s2 _ IH1 _ IH2|r1 r2 s s1 _ IH
                 |r1 r2 s s1 _ IH|r s s1 _ IH|r s|a xs s Hne Hxs|n r s s1 _ IH];
    intros c k Hk; simpl.
  - apply Hk.
  - rewrite Ha. apply Hk.
  - apply IH1. intros c1. now apply IH2.
  - destruct (IH c k Hk) as [res ->]. eauto.
  - destruct (run r1 s c k); [eauto|]. now apply IH.
  - destruct (IH c k Hk) as [res ->]. eauto.
  - destruct (run r s c k); [eauto|]. apply Hk.
  - destruct xs as [|x xs]; [congruence|]. simpl in *.
    apply andb_true_iff in Hxs as [Hx Hxs]. rewrite Hx.
    now apply star_reaches.
  - apply IH. intros c1. apply Hk.
Qed.

Lemma exec_found r s : is_Some (exec r s) <-> found r s.
Proof.
  split.
  - intros [m H]. destruct (exec_Some _ _ _ H) as (pre & s' & -> & Hm).
    unfold match_here in Hm.
    destruct (run_sound _ _ _ _ _ Hm) as (s1 & c1 & M & _).
    inversion M; subst. exists pre, s', s1. auto.
  - intros (pre & s' & s1 & -> & M).
    assert (Hh : is_Some (match_here r s')).
    { unfold match_here. apply run_complete with (s1 := s1);
        [now constructor | eauto]. }
    clear M. induction pre as [|x pre IH]; simpl.
    + destruct Hh as [m Hm]. rewrite (exec_here _ _ _ Hm). eauto.
    + destruct (match_here r (x :: pre ++ s')); [eauto | exact IH].
Qed.

Lemma exec_None_found r s : exec r s = None <-> ~ found r s.
Proof.
  rewrite <- exec_found. destruct (exec r s); split; intros H;
    try discriminate; try reflexivity.
  - destruct H. eauto.
  - intros [m Hm]. discriminate.
Qed.

End Meta.

Section Words.

Lemma matches_suffix r s s1 : matches r s s1 -> exists pre, s = pre ++ s1.
Proof.
  induction 1 as [s|a x s Ha|r1 r2 s s1 s2 _ [p1 ->] _ [p2 ->]|r1 r2 s s1 _ IH
                 |r1 r2 s s1 _ IH|r s s1 _ IH|r s|a xs s Hne Hxs|n r s s1 _ IH]; eauto.
  - now exists [].
  - now exists [x].
  - exists (p1 ++ p2). now rewrite app_assoc.
  - now exists [].
Qed.

Lemma matches_word l s s1 :
  matches (foldr (fun c r => Seq (Atom (CChar c)) r) Eps l) s s1 <->
  exists w0, s = w0 ++ s1 /\ Forall2 (fun p c => canonicalize p = canonicalize c) l w0.
Proof.
  revert s. induction l as [|p l IH]; intros s; simpl.
  - split.
    + intros M. inversion M; subst. exists []. split; [reflexivity | constructor].
    + intros (w0 & -> & F). inversion F; subst. constructor.
  - split.
    + intros M. inversion M as [| |? ? ? sm ? M1 M2| | | | | |]; subst.
      inversion M1 as [|? c0 ? Hc| | | | | | |]; subst.
      apply IH in M2 as (w0 & -> & F).
      exists (c0 :: w0). split; [reflexivity|]. constructor; [|exact F].
      now apply N.eqb_eq.
    + intros (w0 & -> & F). inversion F as [|? c ? x' Hc F']; subst.
      econstructor.
      * constructor. simpl. apply N.eqb_eq. exact Hc.
      * apply IH. eauto.
Qed.

Lemma matches_Str w s s1 :
  matches (Str w) s s1 <-> exists x, s = x ++ s1 /\ spells w x.
Proof. apply matches_word. Qed.

Lemma matches_blanks s s1 :
  matches (Plus CSpace) s s1 <-> exists ws, s = ws ++ s1 /\ blanks ws.
Proof.
  split.
  - intros M. inversion M; subst. exists xs. repeat split; auto.
  - intros (ws & -> & Hne & H). now constructor.
Qed.

Lemma matches_digits n s s1 :
  matches (Group n (Plus CDigit)) s s1 <-> exists ds, s = ds ++ s1 /\ numeral ds.
Proof.
  split.
  - intros M. inversion M as [| | | | | | | |? ? ? ? M']; subst.
    inversion M'; subst. exists xs. repeat split; auto.
  - intros (ds & -> & Hne & H). constructor. now constructor.
Qed.

End Words.

Section Equations.

Lemma run_Seq r1 r2 s c k :
  run (Seq r1 r2) s c k = run r1 s c (fun s1 c1 => run r2 s1 c1 k).
Proof. reflexivity. Qed.

Lemma run_Alt r1 r2 s c k :
  run (Alt r1 r2) s c k
  = match run r1 s c k with Some res => Some res | None => run r2 s c k end.
Proof. reflexivity. Qed.

Lemma run_Group n r s c k :
  run (Group n r) s c k
  = run r s c (fun s1 c1 => k s1 ((n, take (length s - length s1) s) :: c1)).
Proof. reflexivity. Qed.

Lemma run_Plus a s c k : run (Plus a) s c k = plus a s c k.
Proof. reflexivity. Qed.

(** A literal word consumes a spelling of it and leaves the captures. *)
Lemma run_word w s c k res :
  run (Str w) s c k = Some res ->
  exists p s1, s = p ++ s1 /\ spells w p /\ k s1 c = Some res.
Proof.
  unfold Str, spells. generalize (js w) as l. intros l. revert s.
  induction l as [|a l IH]; intros s; simpl.
  - intros H. exists [], s. repeat split; [constructor | exact H].
  - destruct s as [|x s]; [discriminate|].
    destruct (canonicalize a =? canonicalize x) eqn:E; [|discriminate].
    intros H. destruct (IH _ H) as (p & s1 & -> & Hp & Hk).
    exists (x :: p), s1. repeat split; [|exact Hk].
    constructor; [now apply N.eqb_eq | exact Hp].
Qed.

(** A capturing group around a repeated class captures a non-empty run
    of that class. *)
Lemma run_class_group n a s c k res :
  run (Group n (Plus a)) s c k = Some res ->
  exists xs s1, xs <> [] /\ forallb (accepts a) xs = true
                /\ s = xs ++ s1 /\ k s1 ((n, xs) :: c) = Some res.
Proof.
  simpl. intros H.
  destruct (plus_Some _ _ _ _ _ H) as (xs & s1 & Hne & -> & Hxs & Hk).
  rewrite take_captured in Hk. exists xs, s1. auto.
Qed.

Lemma blanks_stop ws s : blanks ws -> stops_digits (ws ++ s).
Proof.
  intros [Hne H]. destruct ws as [|x ws]; [congruence|]. simpl in *.
  apply andb_true_iff in H as [Hx _].
  destruct (is_digit x) eqn:E; [|reflexivity].
  now rewrite (digit_not_space x E) in Hx.
Qed.

End Equations.

Section Heroes.

(** The two alternatives of the heroes pattern: the text after [heroes],
    giving group 1, or [player N heroes], giving group 2. *)
Lemma heroes_alternatives s m :
  match_here playerHeroesPattern s = Some m ->
  (exists w ds pre post,
      numeral ds /\ m = [(0%nat, w); (1%nat, ds)] /\ s = pre ++ ds ++ post)
  \/ (exists w ds p ws post,
        numeral ds /\ m = [(0%nat, w); (2%nat, ds)]
        /\ s = p ++ ws ++ ds ++ post
        /\ spells "player" p /\ blanks ws /\ stops_digits post).
Proof.
  unfold match_here, playerHeroesPattern. rewrite run_Group, run_Alt.
  match goal with
  | |- match run ?A _ _ _ with _ => _ end = _ -> _ =>
      destruct (run A s [] _) as [res|] eqn:EA
  end.
  - intros H; inversion H; subst res. left.
    apply run_ends_in_digits with (n := 1%nat) in EA
      as (pre & ds & s2 & Hn & -> & Hk); [|reflexivity].
    inversion Hk; subst. eauto 10.
  - clear EA. intros H. right.
    rewrite run_Seq in H. apply run_word in H as (p & s1 & Hs & Hp & H).
    rewrite run_Seq, run_Plus in H.
    apply plus_Some in H as (ws & s2 & Hne & -> & Hws & H).
    rewrite run_Seq in H.
    apply run_class_group in H as (ds & s3 & Hdne & Hds & -> & H).
    rewrite run_Seq, run_Plus in H.
    apply plus_Some in H as (ws2 & s4 & Hne2 & -> & Hws2 & H).
    apply run_groupless in H as (p5 & s5 & -> & H); [|reflexivity].
    inversion H; subst.
    eexists _, ds, p, ws, _. repeat split; eauto.
    now apply blanks_stop.
Qed.

(** Where the second alternative matches, so does the bare player-id
    pattern. *)
Lemma player_numeral_found p ws ds post :
  spells "player" p -> blanks ws -> numeral ds ->
  exists s1, matches playerIdPattern (p ++ ws ++ ds ++ post) s1.
Proof.
  intros Hp [Hne Hws] [Hdne Hds]. exists post. unfold playerIdPattern.
  eapply M_Seq.
  { apply M_AltL. apply matches_Str. eauto. }
  eapply M_Seq.
  { now apply M_Plus. }
  eapply M_Seq.
  { apply M_OptNone. }
  apply M_Group. now apply M_Plus.
Qed.

(** The alternative [player N heroes] is dead: whenever the heroes
    pattern matches through it, the player-id pattern, tried earlier,
    matches as well. *)
Lemma heroes_group_2_is_shadowed query m :
  exec playerHeroesPattern query = Some m ->
  capture 1 m = None ->
  is_Some (exec playerIdPattern query).
Proof.
  intros H Hc. destruct (exec_Some _ _ _ H) as (pre & s' & -> & Hm).
  destruct (heroes_alternatives _ _ Hm)
    as [(w & ds & p1 & p2 & Hn & -> & _)
       |(w & ds & p & ws & post & Hn & -> & -> & Hp & Hws & _)].
  - discriminate.
  - apply exec_found.
    destruct (player_numeral_found p ws ds post Hp Hws Hn) as [s1 M].
    exists pre, (p ++ ws ++ ds ++ post), s1. auto.
Qed.

(** In the heroes branch the account id is [match[1]]: the fallback of
    [match[1] || match[2]] is never taken. *)
Lemma heroes_id_is_group_1 query :
  Dispatcher.type (parseNaturalQuery query) = js "get_player_heroes" ->
  exists m ds pre post,
    exec playerHeroesPattern query = Some m
    /\ numeral ds /\ capture 1 m = Some ds
    /\ query = pre ++ ds ++ post
    /\ params (parseNaturalQuery query)
       = [("account_id"%string, VNum (to_double (dec_value ds)))].
Proof.
  unfold parseNaturalQuery.
  destruct (exec matchIdPattern query); [discriminate|].
  destruct (exec playerNamePattern query); [discriminate|].
  destruct (exec playerIdPattern query) eqn:Eid; [discriminate|].
  destruct (exec recentMatchesPattern query); [discriminate|].
  destruct (exec playerHeroesPattern query) as [m|] eqn:Eh; [|discriminate].
  intros _. destruct (exec_Some _ _ _ Eh) as (pre & s' & -> & Hm).
  destruct (heroes_alternatives _ _ Hm)
    as [(w & ds & p1 & p2 & Hn & -> & ->)
       |(w & ds & p & ws & post & Hn & -> & _)].
  - exists [(0%nat, w); (1%nat, ds)], ds, (pre ++ p1), p2.
    split; [reflexivity|]. split; [exact Hn|]. split; [reflexivity|].
    split; [now rewrite <- app_assoc|].
    cbn [params capture Nat.eqb or_else]. destruct Hn as [Hne Hds].
    destruct ds as [|d ds]; [congruence|].
    cbn [parseInt_capture]. now rewrite parseInt_numeral.
  - destruct (heroes_group_2_is_shadowed _ _ Eh eq_refl) as [x Hx]. congruence.
Qed.

End Heroes.

Section Payloads.

Lemma to_double_not_NaN n : to_double n <> NaN.
Proof.
  unfold to_double. destruct (n <? 2 ^ 53)%Z; [discriminate|].
  cbv zeta. match goal with |- (if ?b then _ else _) <> _ => destruct b end;
    discriminate.
Qed.

(** Every number the dispatcher puts in its answer is the Number of a
    numeral that stands in the text; it is never NaN. *)
Lemma numeric_params_are_numerals query key v :
  In (key, VNum v) (params (parseNaturalQuery query)) ->
  exists ds pre post,
    numeral ds /\ query = pre ++ ds ++ post
    /\ v = to_double (dec_value ds) /\ v <> NaN.
Proof.
  intros Hin.
  assert (Hgoal : exists ds pre post,
             numeral ds /\ query = pre ++ ds ++ post /\ v = to_double (dec_value ds)).
  { destruct (jsstr_eqb (Dispatcher.type (parseNaturalQuery query)) (js "get_player_heroes"))
      eqn:Eh.
    - rewrite jsstr_eqb_eq in Eh.
      destruct (heroes_id_is_group_1 query Eh)
        as (m & ds & pre & post & _ & Hn & _ & -> & Hp).
      rewrite Hp in Hin. destruct Hin as [Hin|[]]. inversion Hin. eauto 10.
    - revert Hin Eh. unfold parseNaturalQuery.
      destruct (exec matchIdPattern query) as [m1|] eqn:E1.
      { intros [Hin|[]] _. inversion Hin; subst.
        destruct (exec_ends_in_digits 1 matchIdPattern query m1 eq_refl
                    ltac:(discriminate) E1) as (ds & pre & post & Hn & -> & ->).
        cbn [parseInt_capture]. rewrite (parseInt_numeral ds Hn). eauto 10. }
      destruct (exec playerNamePattern query) as [m2|] eqn:E2.
      { intros [Hin|[]] _. destruct (capture 1 m2); discriminate. }
      destruct (exec playerIdPattern query) as [m3|] eqn:E3.
      { intros [Hin|[]] _. inversion Hin; subst.
        destruct (exec_ends_in_digits 1 playerIdPattern query m3 eq_refl
                    ltac:(discriminate) E3) as (ds & pre & post & Hn & -> & ->).
        cbn [parseInt_capture]. rewrite (parseInt_numeral ds Hn). eauto 10. }
      destruct (exec recentMatchesPattern query) as [m4|] eqn:E4.
      { intros [Hin|[]] _. inversion Hin; subst.
        destruct (exec_ends_in_digits 1 recentMatchesPattern query m4 eq_refl
                    ltac:(discriminate) E4) as (ds & pre & post & Hn & -> & ->).
        cbn [parseInt_capture]. rewrite (parseInt_numeral ds Hn). eauto 10. }
      destruct (exec playerHeroesPattern query) as [m5|] eqn:E5.
      { intros _ Hf. discriminate Hf. }
      intros [Hin|[]] _. discriminate. }
  destruct Hgoal as (ds & pre & post & Hn & Hq & ->).
  exists ds, pre, post. repeat split; try apply Hn; auto.
  apply to_double_not_NaN.
Qed.

End Payloads.

Section Order.

(** The tag of the answer names the first pattern, in the order of the
    source, that occurs somewhere in the text. *)
Lemma dispatch_by_first_found query :
  let t := Dispatcher.type (parseNaturalQuery query) in
  (t = js "get_match" <-> found matchIdPattern query)
  /\ (t = js "search_players" <->
      ~ found matchIdPattern query /\ found playerNamePattern query)
  /\ (t = js "get_player" <->
      ~ found matchIdPattern query /\ ~ found playerNamePattern query
      /\ found playerIdPattern query)
  /\ (t = js "get_player_recent_matches" <->
      ~ found matchIdPattern query /\ ~ found playerNamePattern query
      /\ ~ found playerIdPattern query /\ found recentMatchesPattern query)
  /\ (t = js "get_player_heroes" <->
      ~ found matchIdPattern query /\ ~ found playerNamePattern query
      /\ ~ found playerIdPattern query /\ ~ found recentMatchesPattern query
      /\ found playerHeroesPattern query)
  /\ (t = js "search" <->
      ~ found matchIdPattern query /\ ~ found playerNamePattern query
      /\ ~ found playerIdPattern query /\ ~ found recentMatchesPattern query
      /\ ~ found playerHeroesPattern query).
Proof.
  cbv zeta. rewrite <- !exec_found. unfold parseNaturalQuery.
  destruct (exec matchIdPattern query) as [m1|].
  { cbn [Dispatcher.type]. repeat split; intros; try discriminate; eauto;
      repeat match goal with H : _ /\ _ |- _ => destruct H end;
      exfalso; eauto. }
  destruct (exec playerNamePattern query) as [m2|].
  { cbn [Dispatcher.type]. repeat split; intros; try discriminate; eauto;
      repeat match goal with H : _ /\ _ |- _ => destruct H end;
      try (exfalso; eauto; fail);
      match goal with H : is_Some None |- _ => destruct H; discriminate end. }
  destruct (exec playerIdPattern query) as [m3|].
  { cbn [Dispatcher.type]. repeat split; intros; try discriminate; eauto;
      repeat match goal with H : _ /\ _ |- _ => destruct H end;
      try (exfalso; eauto; fail);
      match goal with H : is_Some None |- _ => destruct H; discriminate end. }
  destruct (exec recentMatchesPattern query) as [m4|].
  { cbn [Dispatcher.type]. repeat split; intros; try discriminate; eauto;
      repeat match goal with H : _ /\ _ |- _ => destruct H end;
      try (exfalso; eauto; fail);
      match goal with H : is_Some None |- _ => destruct H; discriminate end. }
  destruct (exec playerHeroesPattern query) as [m5|].
  { cbn [Dispatcher.type]. repeat split; intros; try discriminate; eauto;
      repeat match goal with H : _ /\ _ |- _ => destruct H end;
      try (exfalso; eauto; fail);
      match goal with H : is_Some None |- _ => destruct H; discriminate end. }
  cbn [Dispatcher.type]. repeat split; intros; try discriminate; eauto;
    repeat match goal with H : _ /\ _ |- _ => destruct H end;
    try (exfalso; eauto; fail);
    try match goal with H : is_Some None |- _ => destruct H; discriminate end.
Qed.

End Order.

Section Names.

Lemma run_Atom a s c k :
  run (Atom a) s c k
  = match s with
    | x :: s' => if accepts a x then k s' c else None
    | [] => None
    end.
Proof. reflexivity. Qed.

Lemma in_quotes x : in_class quotes x = true -> x = 34 \/ x = 39.
Proof.
  unfold in_class, quotes. cbn [existsb].
  change (canonicalize 34) with 34. change (canonicalize 39) with 39.
  rewrite orb_false_r, !orb_true_iff, !N.eqb_eq. unfold canonicalize.
  destruct ((97 <=? x) && (x <=? 122)) eqn:E.
  - apply andb_true_iff in E as [E1 E2]. apply N.leb_le in E1, E2. lia.
  - intuition.
Qed.

Lemma accepted_quote_free name :
  forallb (accepts (CNoneOf quotes)) name = true -> quote_free name.
Proof.
  induction name as [|c name IH]; cbn [forallb accepts]; intros H.
  - constructor.
  - apply andb_true_iff in H as [Hc H]. constructor; [|now apply IH].
    apply negb_true_iff in Hc.
    split; intros ->; discriminate.
Qed.

(** A player search carries a non-empty piece of the text that stands
    between two quote characters and holds none itself. *)
Lemma search_players_query_shape query :
  Dispatcher.type (parseNaturalQuery query) = js "search_players" ->
  exists name pre o c post,
    params (parseNaturalQuery query) = [("query"%string, VStr name)]
    /\ query = pre ++ o :: name ++ c :: post
    /\ (o = 34 \/ o = 39) /\ (c = 34 \/ c = 39)
    /\ name <> [] /\ quote_free name.
Proof.
  unfold parseNaturalQuery.
  destruct (exec matchIdPattern query); [discriminate|].
  destruct (exec playerNamePattern query) as [m|] eqn:E.
  2:{ destruct (exec playerIdPattern query); [discriminate|].
      destruct (exec recentMatchesPattern query); [discriminate|].
      destruct (exec playerHeroesPattern query); discriminate. }
  intros _. destruct (exec_Some _ _ _ E) as (p0 & s & -> & H).
  unfold match_here, playerNamePattern in H.
  rewrite run_Group, run_Seq in H.
  apply run_groupless in H as (p1 & s1 & -> & H); [|reflexivity].
  rewrite run_Seq in H.
  apply run_groupless in H as (p2 & s2 & -> & H); [|reflexivity].
  rewrite run_Seq in H.
  apply run_groupless in H as (p3 & s3 & -> & H); [|reflexivity].
  rewrite run_Seq, run_Atom in H.
  destruct s3 as [|o s3]; [discriminate|].
  destruct (accepts (COneOf quotes) o) eqn:Ho; [|discriminate].
  rewrite run_Seq in H.
  apply run_class_group in H as (name & s4 & Hne & Hname & -> & H).
  rewrite run_Atom in H.
  destruct s4 as [|c s4]; [discriminate|].
  destruct (accepts (COneOf quotes) c) eqn:Hc; [|discriminate].
  inversion H; subst m.
  exists name, (p0 ++ p1 ++ p2 ++ p3), o, c, s4.
  split; [reflexivity|]. split; [now rewrite <- !app_assoc|].
  split; [now apply in_quotes|]. split; [now apply in_quotes|].
  split; [exact Hne | now apply accepted_quote_free].
Qed.

End Names.

Section Shape.

Lemma matches_Seq_inv r1 r2 s s2 :
  matches (Seq r1 r2) s s2 -> exists s1, matches r1 s s1 /\ matches r2 s1 s2.
Proof. intros M. inversion M; subst. eauto. Qed.

Lemma matches_Alt_inv r1 r2 s s1 :
  matches (Alt r1 r2) s s1 -> matches r1 s s1 \/ matches r2 s s1.
Proof. intros M. inversion M; subst; auto. Qed.

Lemma matches_Opt_inv r s s1 :
  matches (Opt r) s s1 -> s = s1 \/ matches r s s1.
Proof. intros M. inversion M; subst; auto. Qed.

(** The texts in which the match-id pattern occurs. *)
Lemma matchId_found_shape query :
  found matchIdPattern query <->
  exists pre kw ws opt ds post,
    query = pre ++ kw ++ ws ++ opt ++ ds ++ post
    /\ (spells "match" kw \/ spells "game" kw)
    /\ blanks ws /\ optional_id opt /\ numeral ds.
Proof.
  unfold matchIdPattern. split.
  - intros (pre & s & s1 & -> & M).
    apply matches_Seq_inv in M as (sa & Mk & M).
    apply matches_Seq_inv in M as (sb & Mw & M).
    apply matches_Seq_inv in M as (sc & Mo & Md).
    apply matches_blanks in Mw as (ws & -> & Hws).
    apply matches_digits in Md as (ds & -> & Hds).
    assert (Hkw : exists kw, s = kw ++ ws ++ sb
                             /\ (spells "match" kw \/ spells "game" kw)).
    { apply matches_Alt_inv in Mk as [Mk|Mk];
        apply matches_Str in Mk as (kw & -> & Hkw); eauto. }
    destruct Hkw as (kw & -> & Hkw).
    assert (Hopt : exists opt, sb = opt ++ ds ++ s1 /\ optional_id opt).
    { apply matches_Opt_inv in Mo as [->|Mo].
      - exists []. split; [reflexivity | now left].
      - apply matches_Seq_inv in Mo as (sd & Mi & Mw').
        apply matches_Str in Mi as (i & -> & Hi).
        apply matches_blanks in Mw' as (ws' & -> & Hws').
        exists (i ++ ws'). split; [now rewrite <- app_assoc|].
        right. eauto. }
    destruct Hopt as (opt & -> & Hopt).
    exists pre, kw, ws, opt, ds, s1. auto.
  - intros (pre & kw & ws & opt & ds & post & -> & Hkw & Hws & Hopt & Hds).
    exists pre, (kw ++ ws ++ opt ++ ds ++ post), post. split; [reflexivity|].
    eapply M_Seq.
    { destruct Hkw as [Hkw|Hkw];
        [apply M_AltL | apply M_AltR]; apply matches_Str; eauto. }
    eapply M_Seq; [apply matches_blanks; eauto|].
    eapply M_Seq; [|apply matches_digits; eauto].
    destruct Hopt as [->|(i & ws' & -> & Hi & Hws')].
    + apply M_OptNone.
    + apply M_OptSome. rewrite <- app_assoc. eapply M_Seq.
      * apply matches_Str; eauto.
      * apply matches_blanks; eauto.
Qed.

(** [get_match] is answered exactly for the texts that hold, somewhere,
    the word match or game (in any letter case), white space, optionally
    the word id and white space, and then a digit. *)
Theorem get_match_iff_shape query :
  Dispatcher.type (parseNaturalQuery query) = js "get_match" <->
  exists pre kw ws opt ds post,
    query = pre ++ kw ++ ws ++ opt ++ ds ++ post
    /\ (spells "match" kw \/ spells "game" kw)
    /\ blanks ws /\ optional_id opt /\ numeral ds.
Proof.
  rewrite <- matchId_found_shape.
  apply (dispatch_by_first_found query).
Qed.

End Shape.

Section CaseInsensitive.

Lemma canonicalize_eq x y :
  canonicalize x = canonicalize y ->
  x = y \/ (65 <= x <= 122 /\ 65 <= y <= 122).
Proof.
  unfold canonicalize.
  destruct ((97 <=? x) && (x <=? 122)) eqn:Ex;
    destruct ((97 <=? y) && (y <=? 122)) eqn:Ey;
    rewrite ?andb_true_iff, ?N.leb_le in *; lia.
Qed.

Lemma letter_range x :
  65 <= x <= 122 -> is_digit x = false /\ is_space x = false.
Proof.
  intros H. unfold is_digit, is_space.
  assert (A1 : (x <=? 57) = false) by (apply N.leb_gt; lia).
  assert (A2 : (x <=? 13) = false) by (apply N.leb_gt; lia).
  assert (A3 : (x =? 32) = false) by (apply N.eqb_neq; lia).
  assert (A4 : (x =? 160) = false) by (apply N.eqb_neq; lia).
  assert (A5 : (x =? 5760) = false) by (apply N.eqb_neq; lia).
  assert (A6 : (8192 <=? x) = false) by (apply N.leb_gt; lia).
  assert (A7 : (x =? 8232) = false) by (apply N.eqb_neq; lia).
  assert (A8 : (x =? 8233) = false) by (apply N.eqb_neq; lia).
  assert (A9 : (x =? 8239) = false) by (apply N.eqb_neq; lia).
  assert (A10 : (x =? 8287) = false) by (apply N.eqb_neq; lia).
  assert (A11 : (x =? 12288) = false) by (apply N.eqb_neq; lia).
  assert (A12 : (x =? 65279) = false) by (apply N.eqb_neq; lia).
  rewrite A1, A2, A3, A4, A5, A6, A7, A8, A9, A10, A11, A12.
  now rewrite !andb_false_r.
Qed.

Lemma accepts_same a x y :
  canonicalize x = canonicalize y -> accepts a x = accepts a y.
Proof.
  intros H. destruct a; simpl; unfold in_class; rewrite ?H; try reflexivity.
  - destruct (canonicalize_eq x y H) as [->|[Hx Hy]]; [reflexivity|].
    destruct (letter_range x Hx) as [-> _]. now destruct (letter_range y Hy) as [-> _].
  - destruct (canonicalize_eq x y H) as [->|[Hx Hy]]; [reflexivity|].
    destruct (letter_range x Hx) as [_ ->]. now destruct (letter_range y Hy) as [_ ->].
Qed.

Local Abbreviation cont_same k k' :=
  (forall s1 s1' c1 c1',
      same_letters s1 s1' -> same_captures c1 c1' -> same_result (k s1 c1) (k' s1' c1')).

Lemma star_same a s s' c c' (k k' : cont) :
  same_letters s s' -> same_captures c c' -> cont_same k k' ->
  same_result (star a s c k) (star a s' c' k').
Proof.
  intros Hs Hc Hk. induction Hs as [|x y s s' Hxy Hs IH]; simpl.
  - apply Hk; [constructor | exact Hc].
  - rewrite (accepts_same a x y Hxy). destruct (accepts a y).
    + destruct IH as [r r' Hr|]; [now constructor|].
      apply Hk; [now constructor | exact Hc].
    + apply Hk; [now constructor | exact Hc].
Qed.

Lemma run_same r :
  forall s s' c c' (k k' : cont),
    same_letters s s' -> same_captures c c' -> cont_same k k' ->
    same_result (run r s c k) (run r s' c' k').
Proof.
  induction r as [|a|r1 IH1 r2 IH2|r1 IH1 r2 IH2|r1 IH1|a|n r1 IH1];
    simpl; intros s s' c c' k k' Hs Hc Hk.
  - now apply Hk.
  - destruct Hs as [|x y s s' Hxy Hs]; [constructor|].
    rewrite (accepts_same a x y Hxy). destruct (accepts a y); [|constructor].
    now apply Hk.
  - apply IH1; [exact Hs | exact Hc | intros; now apply IH2].
  - destruct (IH1 s s' c c' k k' Hs Hc Hk) as [r r' Hr|]; [now constructor|].
    now apply IH2.
  - destruct (IH1 s s' c c' k k' Hs Hc Hk) as [r r' Hr|]; [now constructor|].
    now apply Hk.
  - destruct Hs as [|x y s s' Hxy Hs]; [constructor|]. unfold plus.
    rewrite (accepts_same a x y Hxy). destruct (accepts a y); [|constructor].
    now apply star_same.
  - apply IH1; [exact Hs | exact Hc |].
    intros s1 s1' c1 c1' Hs1 Hc1. apply Hk; [exact Hs1|].
    constructor; [|exact Hc1]. split; [reflexivity|]. simpl.
    unfold same_letters in *.
    rewrite (Forall2_length _ _ _ Hs), (Forall2_length _ _ _ Hs1).
    now apply Forall2_take.
Qed.

Lemma match_here_same r s s' :
  same_letters s s' -> same_result (match_here r s) (match_here r s').
Proof.
  intros Hs. apply run_same; [exact Hs | constructor |].
  intros s1 s1' c1 c1' _ Hc. constructor. exact Hc.
Qed.

Lemma exec_same r s s' :
  same_letters s s' -> same_result (exec r s) (exec r s').
Proof.
  intros Hs. induction Hs as [|x y s s' Hxy Hs IH].
  - pose proof (match_here_same r [] [] ltac:(constructor)) as H.
    simpl. destruct (match_here r []); [exact H | constructor].
  - assert (H : same_result (match_here r (x :: s)) (match_here r (y :: s')))
      by (apply match_here_same; now constructor).
    simpl. destruct H; [now constructor | exact IH].
Qed.

Lemma capture_same n c c' :
  same_captures c c' -> option_Forall2 same_letters (capture n c) (capture n c').
Proof.
  induction 1 as [|[i v] [i' v'] c c' [Hi Hv] _ IH]; simpl in *; [constructor|].
  subst i'. destruct (Nat.eqb i n); [now constructor | exact IH].
Qed.

(** Letter case cannot turn a numeral into another text. *)
Lemma numeral_same ds ds' :
  forallb is_digit ds = true -> same_letters ds ds' -> ds' = ds.
Proof.
  intros H Hs. induction Hs as [|x y s s' Hxy Hs IH]; [reflexivity|].
  simpl in H. apply andb_true_iff in H as [Hx H]. rewrite (IH H). f_equal.
  destruct (canonicalize_eq x y Hxy) as [->|[Hr _]]; [reflexivity|].
  destruct (letter_range x Hr) as [E _]. congruence.
Qed.

End CaseInsensitive.

Section CaseTheorem.

Lemma or_else_same a a' b b' :
  option_Forall2 same_letters a a' -> option_Forall2 same_letters b b' ->
  option_Forall2 same_letters (or_else a b) (or_else a' b').
Proof.
  intros [x y Hxy|] Hb; [|exact Hb].
  destruct Hxy; simpl; [exact Hb|]. constructor. now constructor.
Qed.

Lemma heroes_id_numeral s m :
  match_here playerHeroesPattern s = Some m ->
  exists ds, numeral ds /\ or_else (capture 1 m) (capture 2 m) = Some ds.
Proof.
  intros H. destruct (heroes_alternatives _ _ H)
    as [(w & ds & p1 & p2 & Hn & -> & _)
       |(w & ds & p & ws & post & Hn & -> & _)];
    exists ds; (split; [exact Hn|]); simpl; destruct Hn as [Hne _];
    destruct ds; congruence.
Qed.

Lemma parseInt_capture_same x x' ds :
  x = Some ds -> forallb is_digit ds = true ->
  option_Forall2 same_letters x x' ->
  parseInt_capture x' = parseInt_capture x.
Proof.
  intros -> Hds H. inversion H as [? ds' Hs|]; subst.
  now rewrite (numeral_same ds ds' Hds Hs).
Qed.

(** Changing the case of ASCII letters in the text changes neither the
    operation chosen nor the numbers in its parameters; text parameters
    change in letter case only. *)
Theorem dispatch_same_letters q q' :
  same_letters q q' ->
  Dispatcher.type (parseNaturalQuery q) = Dispatcher.type (parseNaturalQuery q')
  /\ Forall2 (fun p p' => p.1 = p'.1 /\ same_payload p.2 p'.2)
       (params (parseNaturalQuery q)) (params (parseNaturalQuery q')).
Proof.
  intros Hs. unfold parseNaturalQuery.
  pose proof (exec_same matchIdPattern q q' Hs) as R1.
  destruct (exec matchIdPattern q) as [m1|] eqn:E1;
    destruct (exec matchIdPattern q') as [m1'|] eqn:E1';
    inversion R1 as [? ? C1|]; subst; clear R1.
  { split; [reflexivity|]. repeat constructor. cbn [snd same_payload].
    destruct (exec_ends_in_digits 1 matchIdPattern q m1 eq_refl
                ltac:(discriminate) E1) as (ds & _ & _ & [_ Hds] & _ & Hc).
    symmetry. eapply parseInt_capture_same; eauto using capture_same. }
  pose proof (exec_same playerNamePattern q q' Hs) as R2.
  destruct (exec playerNamePattern q) as [m2|] eqn:E2;
    destruct (exec playerNamePattern q') as [m2'|] eqn:E2';
    inversion R2 as [? ? C2|]; subst; clear R2.
  { split; [reflexivity|]. repeat constructor. cbn [snd].
    assert (Ht : Dispatcher.type (parseNaturalQuery q) = js "search_players")
      by (unfold parseNaturalQuery; now rewrite E1, E2).
    destruct (search_players_query_shape q Ht) as (name & _ & _ & _ & _ & Hp & _).
    unfold parseNaturalQuery in Hp. rewrite E1, E2 in Hp. cbn [params] in Hp.
    inversion Hp as [Hv]. pose proof (capture_same 1 _ _ C2) as Hc.
    destruct Hc as [x y Hxy|]; [exact Hxy | discriminate]. }
  pose proof (exec_same playerIdPattern q q' Hs) as R3.
  destruct (exec playerIdPattern q) as [m3|] eqn:E3;
    destruct (exec playerIdPattern q') as [m3'|] eqn:E3';
    inversion R3 as [? ? C3|]; subst; clear R3.
  { split; [reflexivity|]. repeat constructor. cbn [snd same_payload].
    destruct (exec_ends_in_digits 1 playerIdPattern q m3 eq_refl
                ltac:(discriminate) E3) as (ds & _ & _ & [_ Hds] & _ & Hc).
    symmetry. eapply parseInt_capture_same; eauto using capture_same. }
  pose proof (exec_same recentMatchesPattern q q' Hs) as R4.
  destruct (exec recentMatchesPattern q) as [m4|] eqn:E4;
    destruct (exec recentMatchesPattern q') as [m4'|] eqn:E4';
    inversion R4 as [? ? C4|]; subst; clear R4.
  { split; [reflexivity|]. repeat constructor. cbn [snd same_payload].
    destruct (exec_ends_in_digits 1 recentMatchesPattern q m4 eq_refl
                ltac:(discriminate) E4) as (ds & _ & _ & [_ Hds] & _ & Hc).
    symmetry. eapply parseInt_capture_same; eauto using capture_same. }
  pose proof (exec_same playerHeroesPattern q q' Hs) as R5.
  destruct (exec playerHeroesPattern q) as [m5|] eqn:E5;
    destruct (exec playerHeroesPattern q') as [m5'|] eqn:E5';
    inversion R5 as [? ? C5|]; subst; clear R5.
  { split; [reflexivity|]. repeat constructor. cbn [snd same_payload].
    destruct (exec_Some _ _ _ E5) as (pre & s' & _ & Hm).
    destruct (heroes_id_numeral _ _ Hm) as (ds & [_ Hds] & Hc).
    symmetry. eapply parseInt_capture_same; eauto.
    apply or_else_same; now apply capture_same. }
  split; [reflexivity|]. repeat constructor. exact Hs.
Qed.

End CaseTheorem.

Lemma star_all a s c k res :
  forallb (accepts a) s = true -> k [] c = Some res -> star a s c k = Some res.
Proof.
  intros H Hk. rewrite <- (app_nil_r s). now apply star_app.
Qed.

(** [exec P (c1 :: ... :: cn :: ds) = None], the literal part and the
    first digit being concrete. *)
Ltac misses Hds :=
  skip_positions;
  apply exec_digits_None;
  [ let d := fresh "d" in let H := fresh in
    intros d ? H; digit_cases d H; reflexivity
  | reflexivity
  | exact Hds ].

Ltac miss P Hds :=
  match goal with
  | |- context [exec P ?s] =>
      let H := fresh in
      assert (H : exec P s = None) by misses Hds; rewrite H; clear H
  end.

Ltac hit P Hds :=
  match goal with
  | |- context [exec P ?s] =>
      match s with
      | context [?d :: ?ds] =>
          match type of Hds with forallb is_digit ds = true =>
            let H := fresh in
            assert (H : exists w, exec P s = Some [(0%nat, w); (1%nat, d :: ds)]);
            [ eexists; skip_positions; apply exec_here; unfold match_here;
              cbn -[take length Nat.sub];
              erewrite star_all;
                [ | exact Hds | cbn -[take length Nat.sub]; reflexivity];
              change (length (@nil char)) with 0%nat;
              rewrite !Nat.sub_0_r, !firstn_all; reflexivity
            | destruct H as [? H]; rewrite H; clear H ]
          end
      end
  end.

(** Opens a statement about [lit ++ ds]: the answer in terms of
    [parseInt], the numeral split into a concrete first digit and the
    rest. *)
Ltac open_numeral ds Hn Hds :=
  rewrite <- (parseInt_numeral ds Hn);
  let Hne := fresh in let Hall := fresh in let Hd := fresh in
  destruct Hn as [Hne Hall];
  destruct ds as [|?d ds]; [congruence|clear Hne];
  simpl in Hall; apply andb_true_iff in Hall as [Hd Hds];
  unfold parseNaturalQuery;
  match type of Hd with is_digit ?d = true => digit_cases d Hd end.

Section Forms.

(** The phrasings of a match query: [match N], [game N], [match id N]
    and [recent match N] are all dispatched to [get_match] with the
    number N, for every numeral N. *)
Theorem match_forms ds :
  numeral ds ->
  let r := {| Dispatcher.type := js "get_match";
              params := [("match_id"%string, VNum (to_double (dec_value ds)))] |} in
  parseNaturalQuery (js "match " ++ ds) = r
  /\ parseNaturalQuery (js "game " ++ ds) = r
  /\ parseNaturalQuery (js "match id " ++ ds) = r
  /\ parseNaturalQuery (js "recent match " ++ ds) = r.
Proof.
  intros Hn r. subst r.
  literal "match "%string. literal "game "%string. literal "match id "%string.
  literal "recent match "%string. cbn [app].
  open_numeral ds Hn Hds.
  all: repeat split; hit matchIdPattern Hds; reflexivity.
Qed.

(** The phrasings of a player query: [player N], [user N] and
    [player id N] are all dispatched to [get_player] with the number N. *)
Theorem player_forms ds :
  numeral ds ->
  let r := {| Dispatcher.type := js "get_player";
              params := [("account_id"%string, VNum (to_double (dec_value ds)))] |} in
  parseNaturalQuery (js "player " ++ ds) = r
  /\ parseNaturalQuery (js "user " ++ ds) = r
  /\ parseNaturalQuery (js "player id " ++ ds) = r.
Proof.
  intros Hn r. subst r.
  literal "player "%string. literal "user "%string. literal "player id "%string.
  cbn [app].
  open_numeral ds Hn Hds.
  all: repeat split; miss matchIdPattern Hds; miss playerNamePattern Hds;
    hit playerIdPattern Hds; reflexivity.
Qed.

(** The phrasings of a recent-matches query that do reach
    [get_player_recent_matches]: those without the word player before
    the id. *)
Theorem recent_forms ds :
  numeral ds ->
  let r := {| Dispatcher.type := js "get_player_recent_matches";
              params := [("account_id"%string, VNum (to_double (dec_value ds)))] |} in
  parseNaturalQuery (js "recent matches " ++ ds) = r
  /\ parseNaturalQuery (js "recent matches for " ++ ds) = r
  /\ parseNaturalQuery (js "recent matches for id " ++ ds) = r.
Proof.
  intros Hn r. subst r.
  literal "recent matches "%string. literal "recent matches for "%string.
  literal "recent matches for id "%string. cbn [app].
  open_numeral ds Hn Hds.
  all: repeat split; miss matchIdPattern Hds; miss playerNamePattern Hds;
    miss playerIdPattern Hds; hit recentMatchesPattern Hds; reflexivity.
Qed.

(** The phrasings of a heroes query that do reach
    [get_player_heroes]: [heroes N], [heroes for N] and even [heroe N]
    (the pattern reads [heroes?]); [hero N] does not, it falls back to
    [search] with the whole text. *)
Theorem heroes_forms ds :
  numeral ds ->
  let r := {| Dispatcher.type := js "get_player_heroes";
              params := [("account_id"%string, VNum (to_double (dec_value ds)))] |} in
  parseNaturalQuery (js "heroes " ++ ds) = r
  /\ parseNaturalQuery (js "heroes for " ++ ds) = r
  /\ parseNaturalQuery (js "heroe " ++ ds) = r
  /\ parseNaturalQuery (js "hero " ++ ds)
     = {| Dispatcher.type := js "search";
          params := [("query"%string, VStr (js "hero " ++ ds))] |}.
Proof.
  intros Hn r. subst r.
  literal "heroes "%string. literal "heroes for "%string.
  literal "heroe "%string. literal "hero "%string. cbn [app].
  open_numeral ds Hn Hds.
  all: repeat split; miss matchIdPattern Hds; miss playerNamePattern Hds;
    miss playerIdPattern Hds; miss recentMatchesPattern Hds;
    first [ hit playerHeroesPattern Hds; reflexivity
          | miss playerHeroesPattern Hds; reflexivity ].
Qed.

End Forms.

Lemma match_forms_123456 :
  parseNaturalQuery (js "match 123456")
  = {| Dispatcher.type := js "get_match";
       params := [("match_id"%string, VNum (Finite 123456))] |}
  /\ parseNaturalQuery (js "recent match 123456")
     = {| Dispatcher.type := js "get_match";
          params := [("match_id"%string, VNum (Finite 123456))] |}.
Proof.
  assert (Hn : numeral (js "123456")) by (split; [discriminate|reflexivity]).
  destruct (match_forms (js "123456") Hn) as (H1 & _ & _ & H4).
  split; [exact H1 | exact H4].
Defined.

Lemma player_forms_987654321 :
  parseNaturalQuery (js "user 987654321")
  = {| Dispatcher.type := js "get_player";
       params := [("account_id"%string, VNum (Finite 987654321))] |}
  /\ parseNaturalQuery (js "player id 987654321")
     = {| Dispatcher.type := js "get_player";
          params := [("account_id"%string, VNum (Finite 987654321))] |}.
Proof.
  assert (Hn : numeral (js "987654321")) by (split; [discriminate|reflexivity]).
  destruct (player_forms (js "987654321") Hn) as (_ & H2 & H3).
  split; [exact H2 | exact H3].
Defined.

Lemma recent_forms_123456789 :
  parseNaturalQuery (js "recent matches for 123456789")
  = {| Dispatcher.type := js "get_player_recent_matches";
       params := [("account_id"%string, VNum (Finite 123456789))] |}.
Proof.
  assert (Hn : numeral (js "123456789")) by (split; [discriminate|reflexivity]).
  exact (proj1 (proj2 (recent_forms (js "123456789") Hn))).
Defined.

Lemma heroes_forms_123456789 :
  parseNaturalQuery (js "heroes for 123456789")
  = {| Dispatcher.type := js "get_player_heroes";
       params := [("account_id"%string, VNum (Finite 123456789))] |}
  /\ parseNaturalQuery (js "hero 123456789")
     = {| Dispatcher.type := js "search";
          params := [("query"%string, VStr (js "hero 123456789"))] |}.
Proof.
  assert (Hn : numeral (js "123456789")) by (split; [discriminate|reflexivity]).
  destruct (heroes_forms (js "123456789") Hn) as (_ & H2 & _ & H4).
  split; [exact H2 | exact H4].
Defined.

Section TestCopy.

(** The parser copied into the unit test and the parser of the server
    disagree exactly on the texts in which neither a match id nor a
    quoted name is found, the bare player id is, and so is the
    recent-matches or the heroes pattern. *)
Theorem test_copy_differs query :
  IndexTest.parseNaturalQuery query <> parseNaturalQuery query <->
  ~ found matchIdPattern query /\ ~ found playerNamePattern query
  /\ found playerIdPattern query
  /\ (found recentMatchesPattern query \/ found playerHeroesPattern query).
Proof.
  rewrite <- !exec_found. unfold IndexTest.parseNaturalQuery, parseNaturalQuery.
  destruct (exec matchIdPattern query) as [m1|];
    [split; [congruence | intros [H _]; destruct H; eauto]|].
  destruct (exec playerNamePattern query) as [m2|];
    [split; [congruence | intros (_ & H & _); destruct H; eauto]|].
  destruct (exec playerIdPattern query) as [m3|],
           (exec recentMatchesPattern query) as [m4|],
           (exec playerHeroesPattern query) as [m5|].
  all: split; [intros H | intros (H1 & H2 & H3 & H4)].
  all: try congruence.
  all: try (destruct H3 as [? H3]; discriminate).
  all: try (repeat split; eauto;
            try (intros [? ?]; discriminate); fail).
  all: try discriminate.
  all: try (destruct H4 as [[? H4]|[? H4]]; discriminate).
Qed.

End TestCopy.

Lemma test_copy_differs_on_recent_matches_for_player :
  IndexTest.parseNaturalQuery (js "recent matches for player 123456789")
  <> parseNaturalQuery (js "recent matches for player 123456789").
Proof.
  apply test_copy_differs.
  split; [apply exec_None_found; reflexivity|].
  split; [apply exec_None_found; reflexivity|].
  split; [apply exec_found; vm_compute; eauto|].
  left. apply exec_found. vm_compute. eauto.
Defined.

(** ** What the dispatcher guarantees to its callers *)

Lemma get_match_for_Game_ID_77 :
  Dispatcher.type (parseNaturalQuery (js "show me Game  ID 77 please")) = js "get_match".
Proof.
  apply get_match_iff_shape.
  exists (js "show me "), (js "Game"), (js "  "), (js "ID "), (js "77"), (js " please").
  split; [reflexivity|].
  split; [right; repeat constructor|].
  split; [split; [discriminate|reflexivity]|].
  split.
  - right. exists (js "ID"), (js " ").
    split; [reflexivity|]. split; [repeat constructor|].
    split; [discriminate|reflexivity].
  - split; [discriminate|reflexivity].
Defined.

Lemma upper_case_match_5 :
  Dispatcher.type (parseNaturalQuery (js "SHOW Match 5"))
  = Dispatcher.type (parseNaturalQuery (js "show match 5")).
Proof.
  assert (Hs : same_letters (js "SHOW Match 5") (js "show match 5"))
    by (repeat constructor).
  exact (proj1 (dispatch_same_letters _ _ Hs)).
Defined.

(** The second alternative of the heroes pattern, [player N heroes], is
    dead code: a text that matches through it (group 1 empty) also
    matches the player-id pattern, which is tried earlier, so it is
    never answered with [get_player_heroes]. *)
Theorem heroes_second_alternative_is_dead query m :
  exec playerHeroesPattern query = Some m ->
  capture 1 m = None ->
  is_Some (exec playerIdPattern query)
  /\ Dispatcher.type (parseNaturalQuery query) <> js "get_player_heroes".
Proof.
  intros H Hc.
  destruct (heroes_group_2_is_shadowed query m H Hc) as [m' Hid].
  split; [eauto|].
  unfold parseNaturalQuery. rewrite Hid.
  destruct (exec matchIdPattern query); [discriminate|].
  destruct (exec playerNamePattern query); discriminate.
Qed.

Lemma player_5_heroes_is_get_player :
  exists m,
    exec playerHeroesPattern (js "player 5 heroes") = Some m
    /\ capture 1 m = None
    /\ is_Some (exec playerIdPattern (js "player 5 heroes"))
    /\ Dispatcher.type (parseNaturalQuery (js "player 5 heroes")) <> js "get_player_heroes".
Proof.
  eexists. split; [vm_compute; reflexivity|]. split; [reflexivity|].
  exact (heroes_second_alternative_is_dead (js "player 5 heroes") _ eq_refl eq_refl).
Defined.

(** Every number the dispatcher hands on is the Number of a decimal
    numeral that stands in the text, and is never NaN: no operation is
    started with an id the text does not spell. *)
Theorem dispatcher_numbers_come_from_the_text query key v :
  In (key, VNum v) (params (parseNaturalQuery query)) ->
  exists ds pre post,
    numeral ds /\ query = pre ++ ds ++ post
    /\ v = to_double (dec_value ds) /\ v <> NaN.
Proof. apply numeric_params_are_numerals. Qed.

Lemma player_42_comes_from_the_text :
  exists ds pre post,
    numeral ds /\ js "show player 42" = pre ++ ds ++ post
    /\ Finite 42 = to_double (dec_value ds).
Proof.
  destruct (dispatcher_numbers_come_from_the_text (js "show player 42")
              "account_id"%string (Finite 42) (or_introl eq_refl))
    as (ds & pre & post & Hn & Hq & Hv & _).
  exists ds, pre, post. auto.
Defined.

(** A [search_players] answer carries a name that stands in the text
    between two quote characters, unchanged, non-empty and itself free
    of quote characters. *)
Theorem search_players_name_is_the_quoted_text query :
  Dispatcher.type (parseNaturalQuery query) = js "search_players" ->
  exists name pre o c post,
    params (parseNaturalQuery query) = [("query"%string, VStr name)]
    /\ query = pre ++ o :: name ++ c :: post
    /\ (o = 34 \/ o = 39) /\ (c = 34 \/ c = 39)
    /\ name <> [] /\ quote_free name.
Proof. apply search_players_query_shape. Qed.

Lemma search_for_user_Miracle :
  exists name pre o c post,
    params (parseNaturalQuery (js "user 'Miracle' please"))
    = [("query"%string, VStr name)]
    /\ js "user 'Miracle' please" = pre ++ o :: name ++ c :: post
    /\ name <> [].
Proof.
  destruct (search_players_name_is_the_quoted_text (js "user 'Miracle' please") eq_refl)
    as (name & pre & o & c & post & H1 & H2 & _ & _ & H3 & _).
  exists name, pre, o, c, post. auto.
Defined.

(** ** More of the client *)

Section ClientRequests.
Import Effects.

Variable ToString : value -> jsstr.
Variable upstream : request -> Axios.outcome.
Variable this : Client.OpenDotaClient.

Ltac run_monad :=
  unfold Client.makeRequest, mbind, mret, M_bind, M_ret, bind, ret, alloc,
    set_prop, read, log, record_call, throw; simpl.

(** The whole effect of one run of [makeRequest] on an object [o] behind
    the reference [l]. *)
Lemma makeRequest_effects endpoint l o st :
  heap st !! l = Some o ->
  let url := Client.baseURL this ++ endpoint in
  let req := {| req_url := url; req_params := with_key this o;
                req_timeout := Client.timeout this;
                req_userAgent := Client.userAgent this |} in
  let out := Client.makeRequest ToString upstream this endpoint (Some l) st in
  out.1 = match upstream req with
          | Axios.Resolve response => Ok (Axios.data response)
          | Axios.Reject error =>
              Throw (ThrowMCP (Client.classify ToString this error))
          end
  /\ calls out.2 = calls st ++ [req]
  /\ logs out.2
     = logs st ++ [ApiRequestStart url (with_key this o);
                   api_call_entry url (upstream req)]
  /\ heap out.2 !! l = Some (with_key this o)
  /\ forall l', l' <> l -> heap out.2 !! l' = heap st !! l'.
Proof.
  intros Hl. cbv zeta. run_monad. unfold with_key, usable_key.
  destruct (Client.apiKey this) as [[|c k]|]; simpl; rewrite ?Hl; simpl;
    rewrite ?lookup_insert_eq; simpl;
    match goal with
    | |- context [upstream ?r] => destruct (upstream r)
    end; simpl; rewrite <- ?app_assoc; simpl;
    repeat split; auto; try (intros; now rewrite lookup_insert_ne);
    apply lookup_insert_eq.
Qed.

(** Every call of the client is one run of [makeRequest] on an object of
    its own or on the caller's options. *)
Lemma invoke_as_request m st :
  valid_call st m ->
  exists l st1,
    invoke ToString upstream this m st
    = Client.makeRequest ToString upstream this (path ToString m) (Some l) st1
    /\ heap st1 !! l = Some (own_params st m)
    /\ calls st1 = calls st /\ logs st1 = logs st
    /\ (forall l', l' <> l -> heap st1 !! l' = heap st !! l')
    /\ (uses_caller_object m = Some l \/ (uses_caller_object m = None /\ heap st !! l = None)).
Proof.
  intros Hv.
  set (l0 := fresh (dom (heap st))).
  assert (Hfresh : heap st !! l0 = None)
    by (apply not_elem_of_dom; apply is_fresh).
  destruct m as [v|v|v [l|]|v|v| |q| |]; simpl in *.
  3:{ destruct Hv as [o Ho]. exists l, st. rewrite Ho. simpl.
      repeat split; auto. }
  all: eexists l0, {| heap := <[l0 := _]> (heap st); calls := calls st; logs := logs st |}.
  all: split; [reflexivity|]; simpl.
  all: split; [apply lookup_insert_eq|].
  all: repeat split; auto; intros; now rewrite lookup_insert_ne.
Qed.

(** The whole effect of a call. *)
Lemma invoke_effects m st :
  valid_call st m ->
  let url := Client.baseURL this ++ path ToString m in
  let sent := with_key this (own_params st m) in
  let req := {| req_url := url; req_params := sent;
                req_timeout := Client.timeout this;
                req_userAgent := Client.userAgent this |} in
  let out := invoke ToString upstream this m st in
  out.1 = match upstream req with
          | Axios.Resolve response => Ok (Axios.data response)
          | Axios.Reject error =>
              Throw (ThrowMCP (Client.classify ToString this error))
          end
  /\ calls out.2 = calls st ++ [req]
  /\ logs out.2 = logs st ++ [ApiRequestStart url sent; api_call_entry url (upstream req)]
  /\ (forall l o, heap st !! l = Some o -> uses_caller_object m <> Some l ->
                   heap out.2 !! l = Some o)
  /\ (forall l, uses_caller_object m = Some l -> heap out.2 !! l = Some sent).
Proof.
  intros Hv. cbv zeta.
  destruct (invoke_as_request m st Hv) as (l & st1 & -> & Hl & Hc & Hlog & Hframe & Hwho).
  destruct (makeRequest_effects (path ToString m) l _ st1 Hl)
    as (H1 & H2 & H3 & H4 & H5).
  rewrite H1, H2, H3, Hc, Hlog. repeat split; auto.
  - intros l' o Ho Hne. rewrite H5, Hframe; auto.
    all: intros ->; destruct Hwho as [Hw|[_ Hw]]; congruence.
  - intros l' Hu. destruct Hwho as [Hw|[Hw _]]; congruence.
Qed.

End ClientRequests.

(** Every call of the client issues exactly one GET: to the base URL
    followed by the resource path of the call, with the configured
    timeout and User-Agent, and with the call's own query parameters
    plus the key. *)
Theorem client_call_issues_one_request ToString upstream this m st :
  valid_call st m ->
  Effects.calls (invoke ToString upstream this m st).2
  = Effects.calls st ++ [request_of ToString this st m].
Proof.
  intros Hv. now destruct (invoke_effects ToString upstream this m st Hv) as (_ & H & _).
Qed.

(** When the upstream answers, the call hands its body back unchanged. *)
Theorem client_call_returns_body ToString upstream this m st response :
  valid_call st m ->
  upstream (request_of ToString this st m) = Axios.Resolve response ->
  (invoke ToString upstream this m st).1 = Effects.Ok (Axios.data response).
Proof.
  intros Hv Hup. destruct (invoke_effects ToString upstream this m st Hv) as (H & _).
  rewrite H. unfold request_of in Hup. now rewrite Hup.
Qed.


(** A call never touches an object it was not given: every object of
    the heap other than the caller's options is as before. *)
Theorem client_call_leaves_other_objects ToString upstream this m st l o :
  valid_call st m ->
  Effects.heap st !! l = Some o ->
  uses_caller_object m <> Some l ->
  Effects.heap (invoke ToString upstream this m st).2 !! l = Some o.
Proof.
  intros Hv Hl Hne.
  destruct (invoke_effects ToString upstream this m st Hv) as (_ & _ & _ & H & _).
  now apply H.
Qed.



Lemma getMatch_issues_one_request :
  let ToString := fun _ : value => js "42" in
  let upstream := fun _ : Effects.request =>
    Axios.Resolve {| Axios.status := Finite 200; Axios.data := VObj [] |} in
  Effects.calls
    (invoke ToString upstream (Client.new_OpenDotaClient ∅)
       (GetMatch (VNum (Finite 42))) Effects.initial).2
  = [{| Effects.req_url := js "https://api.opendota.com/api/matches/42";
        Effects.req_params := ∅;
        Effects.req_timeout := Finite 30000;
        Effects.req_userAgent := js "OpenDota-MCP-Server/1.0.0" |}].
Proof.
  intros ToString upstream.
  exact (client_call_issues_one_request ToString upstream (Client.new_OpenDotaClient ∅)
           (GetMatch (VNum (Finite 42))) Effects.initial I).
Defined.

Lemma getHeroes_returns_body :
  let ToString := fun _ : value => js "0" in
  let upstream := fun _ : Effects.request =>
    Axios.Resolve {| Axios.status := Finite 200; Axios.data := VArr [VStr (js "axe")] |} in
  (invoke ToString upstream (Client.new_OpenDotaClient ∅) GetHeroes Effects.initial).1
  = Effects.Ok (VArr [VStr (js "axe")]).
Proof.
  intros ToString upstream.
  exact (client_call_returns_body ToString upstream (Client.new_OpenDotaClient ∅)
           GetHeroes Effects.initial _ I eq_refl).
Defined.


Lemma getPlayerMatches_leaves_other_objects :
  let ToString := fun _ : value => js "7" in
  let upstream := fun _ : Effects.request =>
    Axios.Resolve {| Axios.status := Finite 200; Axios.data := VArr [] |} in
  let this := {| Client.baseURL := js "https://api.opendota.com/api";
                 Client.timeout := Finite 30000;
                 Client.apiKey := Some (js "secret");
                 Client.userAgent := js "OpenDota-MCP-Server/1.0.0" |} in
  let st := {| Effects.heap := {[ 0%nat := {[ "limit"%string := VNum (Finite 5) ]};
                                  1%nat := {[ "other"%string := VNull ]} ]};
               Effects.calls := []; Effects.logs := [] |} in
  Effects.heap (invoke ToString upstream this
                  (GetPlayerMatches (VNum (Finite 7)) (Some 0%nat)) st).2 !! 1%nat
  = Some {[ "other"%string := VNull ]}.
Proof.
  intros ToString upstream this st.
  apply (client_call_leaves_other_objects ToString upstream this
           (GetPlayerMatches (VNum (Finite 7)) (Some 0%nat)) st 1%nat).
  - simpl. eexists. reflexivity.
  - reflexivity.
  - discriminate.
Defined.



(** ** The configuration of the client *)

Section Configuration.

Lemma not_digit_value c : is_digit c = false -> digit_value 10 c = None.
Proof.
  intros Hd. unfold digit_value. rewrite Hd.
  destruct ((97 <=? c) && (c <=? 122)) eqn:E1.
  - apply andb_true_iff in E1 as [E1 _]. apply N.leb_le in E1.
    destruct (Z.ltb_spec (Z.of_N c - 87) 10); [lia | reflexivity].
  - destruct ((65 <=? c) && (c <=? 90)) eqn:E2; [|reflexivity].
    apply andb_true_iff in E2 as [E2 _]. apply N.leb_le in E2.
    destruct (Z.ltb_spec (Z.of_N c - 55) 10); [lia | reflexivity].
Qed.

(** [parseInt] of a text whose first character is no white space, sign or
    digit. *)
Lemma parseInt_not_a_number c s :
  is_space c = false -> is_digit c = false -> c <> 45 -> c <> 43 ->
  parseInt (c :: s) = NaN.
Proof.
  intros Hsp Hd Hm Hp.
  assert (Hdig : digits_value 10 None (c :: s) = None)
    by (simpl; now rewrite (not_digit_value c Hd)).
  unfold parseInt. cbn [skip_space]. rewrite Hsp. clear Hsp.
  destruct c as [|p]; [now rewrite Hdig|].
  do 6 (try (destruct p as [p|p|]));
    try congruence; try discriminate Hd; now rewrite Hdig.
Qed.

Lemma env_or_unset (env : Client.environment) (key : string) fallback :
  env !! key = None \/ env !! key = Some [] -> Client.env_or env key fallback = fallback.
Proof. unfold Client.env_or, jsstr. now intros [-> | ->]. Qed.

Lemma env_or_set (env : Client.environment) (key : string) fallback c s :
  env !! key = Some (c :: s) -> Client.env_or env key fallback = c :: s.
Proof. unfold Client.env_or, jsstr. now intros ->. Qed.

End Configuration.

(** The timeout of a client is read with [parseInt] and is not checked:
    unset or empty, the variable gives 30000; a decimal numeral gives its
    value; text that starts with anything but white space, a sign or a
    digit gives NaN, with no fallback to the default. *)
Theorem client_timeout_configuration env :
  let this := Client.new_OpenDotaClient env in
  let setting := env !! "OPENDOTA_TIMEOUT"%string in
  ((setting = None \/ setting = Some []) -> Client.timeout this = Finite 30000)
  /\ (forall ds, setting = Some ds -> numeral ds ->
                 Client.timeout this = to_double (dec_value ds))
  /\ (forall c s, setting = Some (c :: s) ->
                  is_space c = false -> is_digit c = false -> c <> 45 -> c <> 43 ->
                  Client.timeout this = NaN).
Proof.
  cbv zeta. unfold Client.new_OpenDotaClient. cbn [Client.timeout].
  split; [|split].
  - intros H. now rewrite env_or_unset.
  - intros ds H [Hne Hall]. destruct ds as [|d ds]; [congruence|].
    rewrite (env_or_set _ _ _ _ _ H). now apply parseInt_numeral.
  - intros c s H Hsp Hd Hm Hp.
    rewrite (env_or_set _ _ _ _ _ H). now apply parseInt_not_a_number.
Qed.

Lemma client_timeout_examples :
  Client.timeout (Client.new_OpenDotaClient ∅) = Finite 30000
  /\ Client.timeout (Client.new_OpenDotaClient {[ "OPENDOTA_TIMEOUT"%string := js "5000" ]})
     = Finite 5000
  /\ Client.timeout (Client.new_OpenDotaClient {[ "OPENDOTA_TIMEOUT"%string := js "fast" ]})
     = NaN.
Proof.
  split; [|split].
  - apply (proj1 (client_timeout_configuration ∅)). now left.
  - apply (proj1 (proj2 (client_timeout_configuration
                           {[ "OPENDOTA_TIMEOUT"%string := js "5000" ]})) (js "5000"));
      [reflexivity | split; [discriminate | reflexivity]].
  - apply (proj2 (proj2 (client_timeout_configuration
                           {[ "OPENDOTA_TIMEOUT"%string := js "fast" ]})) 102 (js "ast"));
      [reflexivity | reflexivity | reflexivity | discriminate | discriminate].
Defined.

(** ** More of the router *)

Section RouterCalls.
Import Effects.

Variable ToString : value -> jsstr.
Variable JSON_stringify : value -> jsstr.
Variable upstream : request -> Axios.outcome.
Variable env : Client.environment.

Local Abbreviation handler := (Router.handler ToString JSON_stringify upstream env).
Local Abbreviation tool_body := (Router.tool_body ToString JSON_stringify upstream env).
Local Abbreviation run_parsed := (Router.run_parsed ToString JSON_stringify upstream env).
Local Abbreviation error_result := (Router.error_result JSON_stringify env).
Local Abbreviation normalize := (Router.normalize ToString).
Local Abbreviation this := (Router.client env).
Local Abbreviation call := (invoke ToString upstream (Router.client env)).

(** Validation reads its input and nothing else: the state is as before,
    and a failure is a [ZodError] with at least one issue. *)
Lemma parse_cases sh input st :
  (exists a, Zod.parse sh input st = (Ok a, st))
  \/ (exists issues, issues <> [] /\ Zod.parse sh input st = (Throw (ThrowZod issues), st)).
Proof.
  unfold Zod.parse. destruct input; try (right; eexists; split; [|reflexivity]; discriminate).
  destruct (flat_map _ sh) eqn:E.
  - left. eauto.
  - right. eexists. split; [|reflexivity]. discriminate.
Qed.


Lemma no_call_parse sh input : no_call (Zod.parse sh input).
Proof.
  intros st. destruct (parse_cases sh input st) as [[a ->]|(i & _ & ->)]; reflexivity.
Qed.

Lemma no_call_ret {A} (a : A) : no_call (mret a).
Proof. intros st. reflexivity. Qed.

Lemma no_call_throw {A} e : no_call (@throw A e).
Proof. intros st. reflexivity. Qed.

Lemma no_call_log e : no_call (log e).
Proof. intros st. reflexivity. Qed.

Lemma no_call_alloc o : no_call (alloc o).
Proof. intros st. reflexivity. Qed.

Lemma no_call_bind {A B} (m : M A) (f : A -> M B) :
  no_call m -> (forall a, no_call (f a)) -> no_call (m ≫= f).
Proof.
  intros Hm Hf st. unfold mbind, M_bind, bind.
  specialize (Hm st). destruct (m st) as [[a|e] st1]; simpl in *.
  - now rewrite (Hf a st1).
  - exact Hm.
Qed.

Lemma once_at_most {A} (m : M A) : calls_once m -> at_most_one_call m.
Proof. intros H st. right. apply H. Qed.

Lemma none_at_most {A} (m : M A) : no_call m -> at_most_one_call m.
Proof. intros H st. left. apply H. Qed.

Lemma at_most_bind_l {A B} (m : M A) (f : A -> M B) :
  no_call m -> (forall a, at_most_one_call (f a)) -> at_most_one_call (m ≫= f).
Proof.
  intros Hm Hf st. unfold mbind, M_bind, bind.
  specialize (Hm st). destruct (m st) as [[a|e] st1]; simpl in *.
  - rewrite <- Hm. apply Hf.
  - now left.
Qed.

Lemma at_most_bind_r {A B} (m : M A) (f : A -> M B) :
  at_most_one_call m -> (forall a, no_call (f a)) -> at_most_one_call (m ≫= f).
Proof.
  intros Hm Hf st. unfold mbind, M_bind, bind.
  specialize (Hm st). destruct (m st) as [[a|e] st1]; simpl in *.
  - rewrite (Hf a st1). exact Hm.
  - exact Hm.
Qed.

Lemma at_most_try {A} (m : M A) (h : thrown -> M A) :
  at_most_one_call m -> (forall e, no_call (h e)) -> at_most_one_call (try_catch m h).
Proof.
  intros Hm Hh st. unfold try_catch.
  specialize (Hm st). destruct (m st) as [[a|e] st1]; simpl in *.
  - exact Hm.
  - rewrite (Hh e st1). exact Hm.
Qed.

Lemma call_once m : calls_once (call m).
Proof.
  destruct (client_methods_call_once ToString upstream this)
    as (H1 & H2 & H3 & H4 & H5 & H6 & H7 & H8 & H9).
  destruct m; simpl; auto.
Qed.

(** A client call followed by the construction of the answer. *)
Lemma call_then_answer m (f : value -> M Router.CallToolResult) :
  (forall d, no_call (f d)) -> at_most_one_call (call m ≫= f).
Proof.
  intros Hf. apply at_most_bind_r; [|exact Hf]. apply once_at_most, call_once.
Qed.

Ltac quiet :=
  repeat first
    [ apply no_call_ret | apply no_call_throw | apply no_call_log
    | (apply no_call_bind; [|intros]) ].

Lemma run_parsed_at_most query parsed : at_most_one_call (run_parsed query parsed).
Proof.
  unfold Router.run_parsed. cbv zeta.
  destruct (Router.tool_is _ "get_match");
    [apply (call_then_answer (GetMatch _)); intros; quiet|].
  destruct (Router.tool_is _ "get_player");
    [apply (call_then_answer (GetPlayer _)); intros; quiet|].
  destruct (Router.tool_is _ "search_players");
    [apply (call_then_answer (SearchPlayers _)); intros; quiet|].
  destruct (Router.tool_is _ "get_player_recent_matches");
    [apply (call_then_answer (GetPlayerRecentMatches _)); intros; quiet|].
  destruct (Router.tool_is _ "get_player_heroes");
    [apply (call_then_answer (GetPlayerHeroes _)); intros; quiet|].
  apply none_at_most. quiet.
Qed.

Lemma tool_body_at_most name args : at_most_one_call (tool_body name args).
Proof.
  unfold Router.tool_body.
  destruct (Router.tool_is name "get_match").
  { apply at_most_bind_l; [apply no_call_parse|intros a].
    apply (call_then_answer (GetMatch _)); intros; quiet. }
  destruct (Router.tool_is name "get_player").
  { apply at_most_bind_l; [apply no_call_parse|intros a].
    apply (call_then_answer (GetPlayer _)); intros; quiet. }
  destruct (Router.tool_is name "get_player_matches").
  { apply at_most_bind_l; [apply no_call_parse|intros a]. cbv zeta.
    apply at_most_bind_l; [apply no_call_alloc|intros l].
    apply (call_then_answer (GetPlayerMatches _ _)); intros; quiet. }
  destruct (Router.tool_is name "get_player_recent_matches").
  { apply at_most_bind_l; [apply no_call_parse|intros a].
    apply (call_then_answer (GetPlayerRecentMatches _)); intros; quiet. }
  destruct (Router.tool_is name "get_player_heroes").
  { apply at_most_bind_l; [apply no_call_parse|intros a].
    apply (call_then_answer (GetPlayerHeroes _)); intros; quiet. }
  destruct (Router.tool_is name "search_players").
  { apply at_most_bind_l; [apply no_call_parse|intros a].
    apply (call_then_answer (SearchPlayers _)); intros; quiet. }
  destruct (Router.tool_is name "get_heroes").
  { apply (call_then_answer GetHeroes); intros; quiet. }
  destruct (Router.tool_is name "get_pro_matches").
  { apply (call_then_answer GetProMatches); intros; quiet. }
  destruct (Router.tool_is name "natural_query").
  { apply at_most_bind_l; [apply no_call_parse|intros a].
    destruct (get_field "query" a);
      first [apply run_parsed_at_most | apply none_at_most; quiet]. }
  apply none_at_most. quiet.
Qed.

Lemma handler_at_most name args : at_most_one_call (handler name args).
Proof.
  unfold Router.handler.
  apply at_most_bind_l; [apply no_call_log|intros _].
  apply at_most_try; [apply tool_body_at_most|intros e; quiet].
Qed.

(** What the handler makes of the run of the body. *)
Lemma handler_run name args st :
  let st0 := (log (ToolRequestStart name args) st).2 in
  let body := tool_body name args st0 in
  (handler name args st).1
  = Ok (match body.1 with
        | Ok r => r
        | Throw e => error_result (normalize e)
        end)
  /\ calls (handler name args st).2 = calls body.2
  /\ heap (handler name args st).2 = heap body.2.
Proof.
  cbv zeta. rewrite (handler_catches ToString JSON_stringify upstream env name args st).
  cbv zeta. now destruct (tool_body _ _ _) as [[r|e] st'].
Qed.

(** A client call and what follows it, when what follows only builds the
    answer. *)
Lemma call_step (c : Client.OpenDotaClient) m (g : value -> Router.CallToolResult)
    (f : value -> M Router.CallToolResult) st :
  valid_call st m ->
  (forall d s, (f d s).1 = Ok (g d) /\ calls (f d s).2 = calls s /\ heap (f d s).2 = heap s) ->
  let req := request_of ToString c st m in
  let out := (invoke ToString upstream c m ≫= f) st in
  out.1 = match upstream req with
          | Axios.Resolve response => Ok (g (Axios.data response))
          | Axios.Reject error =>
              Throw (ThrowMCP (Client.classify ToString c error))
          end
  /\ calls out.2 = calls st ++ [req].
Proof.
  intros Hv Hf. cbv zeta.
  destruct (invoke_effects ToString upstream c m st Hv) as (H1 & H2 & _).
  unfold request_of. unfold mbind, M_bind, bind.
  destruct (invoke ToString upstream c m st) as [[d|e] st1]; cbn [fst snd] in *.
  - destruct (Hf d st1) as (F1 & F2 & _). rewrite F1, F2, H2. split; [|reflexivity].
    destruct (upstream _); [|discriminate]. now inversion H1.
  - split; [|exact H2]. destruct (upstream _); [discriminate|]. now inversion H1.
Qed.

End RouterCalls.

(** A tool invocation issues one upstream request at most, whatever the
    tool name and the arguments. *)
Theorem tool_call_issues_at_most_one_request
    ToString JSON_stringify upstream env name args st :
  let st' := (Router.handler ToString JSON_stringify upstream env name args st).2 in
  Effects.calls st' = Effects.calls st
  \/ exists req, Effects.calls st' = Effects.calls st ++ [req].
Proof. apply handler_at_most. Qed.

Lemma one_request_for_get_heroes :
  let ToString := fun _ : value => js "0" in
  let JSON_stringify := fun _ : value => js "[]" in
  let upstream := fun _ : Effects.request =>
    Axios.Resolve {| Axios.status := Finite 200; Axios.data := VArr [] |} in
  let st' := (Router.handler ToString JSON_stringify upstream ∅ (js "get_heroes")
                VUndef Effects.initial).2 in
  Effects.calls st' = [] \/ exists req, Effects.calls st' = [] ++ [req].
Proof.
  intros ToString JSON_stringify upstream.
  exact (tool_call_issues_at_most_one_request ToString JSON_stringify upstream ∅
           (js "get_heroes") VUndef Effects.initial).
Defined.

Section RouterValidation.
Import Effects.

Variable ToString : value -> jsstr.
Variable JSON_stringify : value -> jsstr.
Variable upstream : request -> Axios.outcome.
Variable env : Client.environment.

Local Abbreviation handler := (Router.handler ToString JSON_stringify upstream env).
Local Abbreviation tool_body := (Router.tool_body ToString JSON_stringify upstream env).
Local Abbreviation error_result := (Router.error_result JSON_stringify env).
Local Abbreviation normalize := (Router.normalize ToString).


(** A name outside the listing falls through every case of the switch. *)
Lemma unlisted_falls_through name lit :
  ~ In name listed_names -> In (js lit) listed_names -> Router.tool_is name lit = false.
Proof.
  intros Hn Hl. unfold Router.tool_is.
  destruct (jsstr_eqb name (js lit)) eqn:E; [|reflexivity].
  apply jsstr_eqb_eq in E. congruence.
Qed.

Lemma unlisted_body name args st :
  ~ In name listed_names ->
  tool_body name args st = (Throw (ThrowError (js "Unknown tool: " ++ name)), st).
Proof.
  intros Hn. unfold Router.tool_body.
  rewrite !(unlisted_falls_through name _ Hn); [reflexivity|..];
    unfold listed_names; simpl; tauto.
Qed.

End RouterValidation.



(** A tool name that the listing does not advertise is refused without
    any upstream request: the answer is an error response that names
    the tool. *)
Theorem unlisted_tool_is_refused
    ToString JSON_stringify upstream env name args st :
  ~ In name listed_names ->
  exists tail st',
    Router.handler ToString JSON_stringify upstream env name args st
    = (Effects.Ok
         {| Router.content :=
              [{| Router.type := js "text";
                  Router.text := js "Error: Unknown tool: " ++ name ++ tail |}];
            Router.isError := true |},
       st')
    /\ (Router.development env = false -> tail = [])
    /\ Effects.calls st' = Effects.calls st
    /\ Effects.heap st' = Effects.heap st.
Proof.
  intros Hn.
  set (e := Router.normalize ToString (Effects.ThrowError (js "Unknown tool: " ++ name))).
  destruct (error_result_shape JSON_stringify env e) as (tail & Hshape & Htail & _).
  exists tail. eexists. split.
  - rewrite (handler_catches ToString JSON_stringify upstream env name args st).
    cbv zeta. rewrite (unlisted_body ToString JSON_stringify upstream env name args _ Hn).
    fold e. rewrite Hshape. unfold e. cbn [Router.normalize Errors.message Errors.new_MCPError].
    rewrite <- app_assoc. reflexivity.
  - split.
    + intros Hd. destruct tail as [|x tail]; [reflexivity|].
      destruct Htail as (Hdev & _); [discriminate|congruence].
    + simpl. auto.
Qed.

Lemma get_teams_is_refused :
  exists tail st',
    Router.handler (fun _ => js "0") (fun _ => js "{}")
      (fun _ => Axios.Resolve {| Axios.status := Finite 200; Axios.data := VObj [] |})
      ∅ (js "get_teams") VUndef Effects.initial
    = (Effects.Ok
         {| Router.content :=
              [{| Router.type := js "text";
                  Router.text := js "Error: Unknown tool: " ++ js "get_teams" ++ tail |}];
            Router.isError := true |},
       st')
    /\ tail = [] /\ Effects.calls st' = [].
Proof.
  assert (Hn : ~ In (js "get_teams") listed_names).
  { unfold listed_names. simpl. intros H.
    repeat (destruct H as [H|H]; [discriminate H|]). exact H. }
  destruct (unlisted_tool_is_refused
              (fun _ => js "0") (fun _ => js "{}")
              (fun _ => Axios.Resolve {| Axios.status := Finite 200; Axios.data := VObj [] |})
              ∅ (js "get_teams") VUndef Effects.initial Hn)
    as (tail & st' & Hrun & Htail & Hcalls & _).
  exists tail, st'. split; [exact Hrun|].
  split; [apply Htail; reflexivity | exact Hcalls].
Defined.

(** What the listing advertises for a tool is what the call handler
    checks: the required fields are the fields of the schema that are
    not optional, and the properties are the fields of the schema with
    their types; a tool for which the handler validates nothing is
    listed without properties. *)
Theorem listing_agrees_with_schemas t :
  In t Tools.tools ->
  match schema_of (Tools.name t) with
  | Some sh =>
      Tools.required (Tools.inputSchema t) = Some (demanded sh)
      /\ map (fun p => (p.1, Tools.ptype p.2)) (Tools.properties (Tools.inputSchema t))
         = map (fun kt => (kt.1, type_name kt.2)) sh
  | None =>
      Tools.required (Tools.inputSchema t) = None
      /\ Tools.properties (Tools.inputSchema t) = []
  end.
Proof.
  unfold Tools.tools. simpl.
  intros H. repeat (destruct H as [<-|H]; [vm_compute; split; reflexivity|]).
  destruct H.
Qed.

Lemma listing_agrees_for_get_player_matches :
  exists t,
    nth_error Tools.tools 2 = Some t
    /\ In t Tools.tools
    /\ Tools.name t = js "get_player_matches"
    /\ Tools.required (Tools.inputSchema t) = Some ["account_id"%string]
    /\ map fst (Tools.properties (Tools.inputSchema t))
       = ["account_id"%string; "limit"%string; "hero_id"%string].
Proof.
  eexists. split; [reflexivity|].
  match goal with
  | |- In ?t _ /\ _ =>
      assert (Hin : In t Tools.tools) by (simpl; tauto);
      pose proof (listing_agrees_with_schemas t Hin) as H
  end.
  split; [exact Hin|]. split; [reflexivity|].
  split; [exact (proj1 H) | reflexivity].
Defined.

Section RouterTools.
Import Effects.

Variable ToString : value -> jsstr.
Variable JSON_stringify : value -> jsstr.
Variable upstream : request -> Axios.outcome.
Variable env : Client.environment.

Local Abbreviation handler := (Router.handler ToString JSON_stringify upstream env).
Local Abbreviation tool_body := (Router.tool_body ToString JSON_stringify upstream env).
Local Abbreviation run_parsed := (Router.run_parsed ToString JSON_stringify upstream env).
Local Abbreviation error_result := (Router.error_result JSON_stringify env).
Local Abbreviation normalize := (Router.normalize ToString).
Local Abbreviation this := (Router.client env).
Local Abbreviation call := (invoke ToString upstream (Router.client env)).

Lemma bind_ok {A B} (m : M A) (f : A -> M B) st a st' :
  m st = (Ok a, st') -> (m ≫= f) st = f a st'.
Proof. intros H. unfold mbind, M_bind, bind. now rewrite H. Qed.

(** The handler around a body that is one client call followed by the
    construction of the answer. *)
Lemma handler_of_call name args st st1 m label
    (f : value -> M Router.CallToolResult) :
  tool_body name args (log (ToolRequestStart name args) st).2 = (call m ≫= f) st1 ->
  calls st1 = calls st ->
  valid_call st1 m ->
  (forall d s, (f d s).1 = Ok (Router.text_result (label ++ JSON_stringify d))
               /\ calls (f d s).2 = calls s /\ heap (f d s).2 = heap s) ->
  forall req, req = request_of ToString this st1 m ->
  exists r st',
    handler name args st = (Ok r, st')
    /\ calls st' = calls st ++ [req]
    /\ answers ToString JSON_stringify this label (upstream req) r.
Proof.
  intros Hb Hc Hv Hf req ->. set (req := request_of ToString this st1 m).
  destruct (handler_run ToString JSON_stringify upstream env name args st)
    as (H1 & H2 & _). cbv zeta in H1, H2. rewrite Hb in H1, H2.
  destruct (call_step ToString upstream this m _ f st1 Hv Hf) as (C1 & C2).
  cbv zeta in C1, C2. fold req in C1, C2.
  destruct (handler name args st) as [res st'] eqn:E. cbn [fst snd] in H1, H2.
  subst res. eexists _, st'. split; [reflexivity|].
  split; [now rewrite H2, C2, Hc|].
  rewrite C1. unfold answers. destruct (upstream req) as [resp|err].
  - reflexivity.
  - destruct (error_result_shape JSON_stringify env
                (Client.classify ToString this err)) as (tail & Hs & _).
    exists tail. exact Hs.
Qed.

(** Validation of a one-field object that holds what the schema asks. *)
Lemma parse_number_field key v st :
  number_value v ->
  Zod.parse [(key, Zod.ZNumber)] (VObj [(key, v)]) st = (Ok [(key, v)], st).
Proof.
  intros Hv. unfold Zod.parse. cbn [flat_map Zod.check map app fst snd get_field].
  rewrite String.eqb_refl.
  destruct v as [| | |n| | | |]; try destruct Hv. now destruct n.
Qed.

Lemma parse_string_field key s st :
  Zod.parse [(key, Zod.ZString)] (VObj [(key, VStr s)]) st = (Ok [(key, VStr s)], st).
Proof.
  unfold Zod.parse. cbn [flat_map Zod.check map app fst snd get_field].
  now rewrite String.eqb_refl.
Qed.

(** The [natural_query] case up to the inner switch. *)
Lemma natural_query_body o query st :
  get_field "query" o = VStr query ->
  tool_body (js "natural_query") (VObj o) st
  = run_parsed query (parseNaturalQuery query) st.
Proof.
  intros H. unfold Router.tool_body.
  change (Router.tool_is (js "natural_query") "get_match") with false.
  change (Router.tool_is (js "natural_query") "get_player") with false.
  change (Router.tool_is (js "natural_query") "get_player_matches") with false.
  change (Router.tool_is (js "natural_query") "get_player_recent_matches") with false.
  change (Router.tool_is (js "natural_query") "get_player_heroes") with false.
  change (Router.tool_is (js "natural_query") "search_players") with false.
  change (Router.tool_is (js "natural_query") "get_heroes") with false.
  change (Router.tool_is (js "natural_query") "get_pro_matches") with false.
  change (Router.tool_is (js "natural_query") "natural_query") with true.
  cbv iota.
  unfold Zod.parse, Router.NaturalQuerySchema, mbind, mret, M_bind, M_ret, bind, throw, ret.
  cbn [flat_map Zod.check map app fst snd]. rewrite H. cbn [app].
  cbn [get_field String.eqb Ascii.eqb Bool.eqb]. reflexivity.
Qed.

End RouterTools.

Section RouterDelegation.
Import Effects.

Variable ToString : value -> jsstr.
Variable JSON_stringify : value -> jsstr.
Variable upstream : request -> Axios.outcome.
Variable env : Client.environment.

Local Abbreviation handler := (Router.handler ToString JSON_stringify upstream env).
Local Abbreviation tool_body := (Router.tool_body ToString JSON_stringify upstream env).
Local Abbreviation run_parsed := (Router.run_parsed ToString JSON_stringify upstream env).
Local Abbreviation this := (Router.client env).
Local Abbreviation call := (invoke ToString upstream (Router.client env)).
Local Abbreviation answers := (answers ToString JSON_stringify (Router.client env)).

(** Picks the case of a switch on a literal tool name. *)
Ltac pick_case :=
  repeat match goal with
         | |- context [Router.tool_is (js ?a) ?b] =>
             let r := eval vm_compute in (Router.tool_is (js a) b) in
             change (Router.tool_is (js a) b) with r
         end;
  cbv iota.

Ltac direct_number Hv m :=
  eapply (handler_of_call ToString JSON_stringify upstream env _ _ _ _ m []);
  [ unfold Router.tool_body; pick_case;
    unfold Router.GetMatchSchema, Router.GetPlayerSchema;
    rewrite (bind_ok _ _ _ _ _ (parse_number_field _ _ _ Hv));
    cbn [get_field]; rewrite String.eqb_refl; reflexivity
  | reflexivity | exact I | intros; repeat split | reflexivity ].

(** A direct tool whose schema is one number, on arguments that hold
    just that number. *)
Lemma direct_get_match v st :
  number_value v ->
  exists r st',
    handler (js "get_match") (VObj [("match_id"%string, v)]) st = (Ok r, st')
    /\ calls st' = calls st ++ [request_of ToString this st (GetMatch v)]
    /\ answers [] (upstream (request_of ToString this st (GetMatch v))) r.
Proof. intros Hv. direct_number Hv (GetMatch v). Qed.

Lemma direct_get_player v st :
  number_value v ->
  exists r st',
    handler (js "get_player") (VObj [("account_id"%string, v)]) st = (Ok r, st')
    /\ calls st' = calls st ++ [request_of ToString this st (GetPlayer v)]
    /\ answers [] (upstream (request_of ToString this st (GetPlayer v))) r.
Proof. intros Hv. direct_number Hv (GetPlayer v). Qed.

Lemma direct_get_player_recent_matches v st :
  number_value v ->
  exists r st',
    handler (js "get_player_recent_matches") (VObj [("account_id"%string, v)]) st
    = (Ok r, st')
    /\ calls st' = calls st ++ [request_of ToString this st (GetPlayerRecentMatches v)]
    /\ answers [] (upstream (request_of ToString this st (GetPlayerRecentMatches v))) r.
Proof. intros Hv. direct_number Hv (GetPlayerRecentMatches v). Qed.

Lemma direct_get_player_heroes v st :
  number_value v ->
  exists r st',
    handler (js "get_player_heroes") (VObj [("account_id"%string, v)]) st = (Ok r, st')
    /\ calls st' = calls st ++ [request_of ToString this st (GetPlayerHeroes v)]
    /\ answers [] (upstream (request_of ToString this st (GetPlayerHeroes v))) r.
Proof. intros Hv. direct_number Hv (GetPlayerHeroes v). Qed.

Lemma direct_search_players s st :
  exists r st',
    handler (js "search_players") (VObj [("query"%string, VStr s)]) st = (Ok r, st')
    /\ calls st' = calls st ++ [request_of ToString this st (SearchPlayers (VStr s))]
    /\ answers [] (upstream (request_of ToString this st (SearchPlayers (VStr s)))) r.
Proof.
  eapply (handler_of_call ToString JSON_stringify upstream env _ _ _ _
            (SearchPlayers (VStr s)) []);
  [ unfold Router.tool_body; pick_case;
    unfold Router.SearchPlayersSchema;
    rewrite (bind_ok _ _ _ _ _ (parse_string_field _ _ _));
    cbn [get_field]; rewrite String.eqb_refl; reflexivity
  | reflexivity | exact I | intros; repeat split | reflexivity ].
Qed.

(** The inner switch of [natural_query], case by case. *)
Ltac natural_case Hq Hp m :=
  eapply (handler_of_call ToString JSON_stringify upstream env _ _ _ _ m _);
  [ rewrite (natural_query_body ToString JSON_stringify upstream env _ _ _ Hq), Hp;
    unfold Router.run_parsed; cbn [Dispatcher.type Dispatcher.params];
    pick_case; cbn [get_field]; rewrite String.eqb_refl; reflexivity
  | reflexivity | exact I
  | intros; rewrite <- !app_assoc; repeat split | reflexivity ].

Lemma natural_get_match o query st v :
  get_field "query" o = VStr query ->
  parseNaturalQuery query
  = {| Dispatcher.type := js "get_match"; params := [("match_id"%string, v)] |} ->
  exists r st',
    handler (js "natural_query") (VObj o) st = (Ok r, st')
    /\ calls st' = calls st ++ [request_of ToString this st (GetMatch v)]
    /\ answers (js "Match " ++ ToString v ++ js " information:" ++ Router.newline2)
         (upstream (request_of ToString this st (GetMatch v))) r.
Proof. intros Hq Hp. natural_case Hq Hp (GetMatch v). Qed.

Lemma natural_get_player o query st v :
  get_field "query" o = VStr query ->
  parseNaturalQuery query
  = {| Dispatcher.type := js "get_player"; params := [("account_id"%string, v)] |} ->
  exists r st',
    handler (js "natural_query") (VObj o) st = (Ok r, st')
    /\ calls st' = calls st ++ [request_of ToString this st (GetPlayer v)]
    /\ answers (js "Player " ++ ToString v ++ js " information:" ++ Router.newline2)
         (upstream (request_of ToString this st (GetPlayer v))) r.
Proof. intros Hq Hp. natural_case Hq Hp (GetPlayer v). Qed.

Lemma natural_search_players o query st v :
  get_field "query" o = VStr query ->
  parseNaturalQuery query
  = {| Dispatcher.type := js "search_players"; params := [("query"%string, v)] |} ->
  exists r st',
    handler (js "natural_query") (VObj o) st = (Ok r, st')
    /\ calls st' = calls st ++ [request_of ToString this st (SearchPlayers v)]
    /\ answers (js "Search results for " ++ [34] ++ ToString v ++ [34] ++ js ":" ++ Router.newline2)
         (upstream (request_of ToString this st (SearchPlayers v))) r.
Proof. intros Hq Hp. natural_case Hq Hp (SearchPlayers v). Qed.

Lemma natural_get_player_recent_matches o query st v :
  get_field "query" o = VStr query ->
  parseNaturalQuery query
  = {| Dispatcher.type := js "get_player_recent_matches"; params := [("account_id"%string, v)] |} ->
  exists r st',
    handler (js "natural_query") (VObj o) st = (Ok r, st')
    /\ calls st' = calls st ++ [request_of ToString this st (GetPlayerRecentMatches v)]
    /\ answers (js "Recent matches for player " ++ ToString v ++ js ":" ++ Router.newline2)
         (upstream (request_of ToString this st (GetPlayerRecentMatches v))) r.
Proof. intros Hq Hp. natural_case Hq Hp (GetPlayerRecentMatches v). Qed.

Lemma natural_get_player_heroes o query st v :
  get_field "query" o = VStr query ->
  parseNaturalQuery query
  = {| Dispatcher.type := js "get_player_heroes"; params := [("account_id"%string, v)] |} ->
  exists r st',
    handler (js "natural_query") (VObj o) st = (Ok r, st')
    /\ calls st' = calls st ++ [request_of ToString this st (GetPlayerHeroes v)]
    /\ answers (js "Hero statistics for player " ++ ToString v ++ js ":" ++ Router.newline2)
         (upstream (request_of ToString this st (GetPlayerHeroes v))) r.
Proof. intros Hq Hp. natural_case Hq Hp (GetPlayerHeroes v). Qed.

End RouterDelegation.

(** The two tools without a schema do not look at their arguments:
    whatever is passed, [get_heroes] requests [/heroes] and
    [get_pro_matches] requests [/proMatches], with no query parameter but
    the key, and the answer is the body printed as JSON, or the error
    response of the client's error. *)
Theorem tools_without_schema_ignore_arguments
    ToString JSON_stringify upstream env args st :
  let this := Router.client env in
  let request endpoint :=
    {| Effects.req_url := Client.baseURL this ++ endpoint;
       Effects.req_params := with_key this ∅;
       Effects.req_timeout := Client.timeout this;
       Effects.req_userAgent := Client.userAgent this |} in
  (exists r st',
     Router.handler ToString JSON_stringify upstream env (js "get_heroes") args st
     = (Effects.Ok r, st')
     /\ Effects.calls st' = Effects.calls st ++ [request (js "/heroes")]
     /\ answers ToString JSON_stringify this [] (upstream (request (js "/heroes"))) r)
  /\ (exists r st',
        Router.handler ToString JSON_stringify upstream env (js "get_pro_matches") args st
        = (Effects.Ok r, st')
        /\ Effects.calls st' = Effects.calls st ++ [request (js "/proMatches")]
        /\ answers ToString JSON_stringify this []
             (upstream (request (js "/proMatches"))) r).
Proof.
  cbv zeta. split.
  - eapply (handler_of_call ToString JSON_stringify upstream env _ _ _ _ GetHeroes []);
      [reflexivity | reflexivity | exact I | intros; repeat split | reflexivity].
  - eapply (handler_of_call ToString JSON_stringify upstream env _ _ _ _ GetProMatches []);
      [reflexivity | reflexivity | exact I | intros; repeat split | reflexivity].
Qed.

(** [get_player_matches] on valid arguments: one request to
    [/players/<account_id>/matches] whose query parameters are [limit]
    (20 when the caller gave none), [hero_id] (undefined when the caller
    gave none) and the key when one is configured. *)
Theorem get_player_matches_request
    ToString JSON_stringify upstream env o st :
  number_value (get_field "account_id" o) ->
  get_field "limit" o = VUndef \/ number_value (get_field "limit" o) ->
  get_field "hero_id" o = VUndef \/ number_value (get_field "hero_id" o) ->
  let this := Router.client env in
  let req :=
    {| Effects.req_url :=
         Client.baseURL this ++ js "/players/"
         ++ ToString (get_field "account_id" o) ++ js "/matches";
       Effects.req_params :=
         with_key this
           (<["limit"%string := with_default (get_field "limit" o) (VNum (Finite 20))]>
              (<["hero_id"%string := get_field "hero_id" o]> ∅));
       Effects.req_timeout := Client.timeout this;
       Effects.req_userAgent := Client.userAgent this |} in
  exists r st',
    Router.handler ToString JSON_stringify upstream env
      (js "get_player_matches") (VObj o) st
    = (Effects.Ok r, st')
    /\ Effects.calls st' = Effects.calls st ++ [req]
    /\ answers ToString JSON_stringify this [] (upstream req) r.
Proof.
  intros Ha Hl Hh. cbv zeta.
  set (st0 := (Effects.log (Effects.ToolRequestStart (js "get_player_matches") (VObj o)) st).2).
  set (l := fresh (dom (Effects.heap st0))).
  set (obj := Router.object_of
                [("limit"%string,
                  Router.or_default (get_field "limit" o) (VNum (Finite 20)));
                 ("hero_id"%string, get_field "hero_id" o)]).
  set (st1 := {| Effects.heap := <[l := obj]> (Effects.heap st0);
                 Effects.calls := Effects.calls st0;
                 Effects.logs := Effects.logs st0 |}).
  assert (Hparse : Zod.parse Router.GetPlayerMatchesSchema (VObj o) st0
                   = (Effects.Ok [("account_id"%string, get_field "account_id" o);
                                  ("limit"%string, get_field "limit" o);
                                  ("hero_id"%string, get_field "hero_id" o)], st0)).
  { assert (Hn : forall v p, number_value v -> Zod.check Zod.ZNumber p v = []).
    { intros v p Hv. destruct v as [| | |k| | | |]; try destruct Hv. now destruct k. }
    assert (Ho : forall v p, v = VUndef \/ number_value v ->
                             Zod.check (Zod.ZOptional Zod.ZNumber) p v = []).
    { intros v p [->|Hv]; [reflexivity|].
      destruct v as [| | |k| | | |]; try destruct Hv. now destruct k. }
    unfold Zod.parse, Router.GetPlayerMatchesSchema.
    cbn [flat_map map fst snd].
    rewrite (Hn _ _ Ha), (Ho _ _ Hl), (Ho _ _ Hh). reflexivity. }
  eapply (handler_of_call ToString JSON_stringify upstream env _ _ st st1
            (GetPlayerMatches (get_field "account_id" o) (Some l)) []).
  - unfold Router.tool_body.
    change (Router.tool_is (js "get_player_matches") "get_match") with false.
    change (Router.tool_is (js "get_player_matches") "get_player") with false.
    change (Router.tool_is (js "get_player_matches") "get_player_matches") with true.
    cbv iota. fold st0. rewrite (bind_ok _ _ _ _ _ Hparse). cbv zeta.
    cbn [get_field String.eqb Ascii.eqb Bool.eqb].
    reflexivity.
  - reflexivity.
  - simpl. rewrite lookup_insert_eq. eauto.
  - intros; repeat split.
  - unfold request_of, own_params, st1. cbn [Effects.heap path].
    rewrite lookup_insert_eq. reflexivity.
Qed.

Lemma get_player_matches_defaults :
  let ToString := fun _ : value => js "7" in
  let JSON_stringify := fun _ : value => js "[]" in
  let upstream := fun _ : Effects.request =>
    Axios.Resolve {| Axios.status := Finite 200; Axios.data := VArr [] |} in
  exists st',
    Router.handler ToString JSON_stringify upstream ∅ (js "get_player_matches")
      (VObj [("account_id"%string, VNum (Finite 7))]) Effects.initial
    = (Effects.Ok {| Router.content := [{| Router.type := js "text";
                                           Router.text := js "[]" |}];
                     Router.isError := false |}, st')
    /\ Effects.calls st'
       = [{| Effects.req_url := js "https://api.opendota.com/api/players/7/matches";
             Effects.req_params :=
               <["limit"%string := VNum (Finite 20)]>
                 (<["hero_id"%string := VUndef]> ∅);
             Effects.req_timeout := Finite 30000;
             Effects.req_userAgent := js "OpenDota-MCP-Server/1.0.0" |}].
Proof.
  intros ToString JSON_stringify upstream.
  destruct (get_player_matches_request ToString JSON_stringify upstream ∅
              [("account_id"%string, VNum (Finite 7))] Effects.initial
              I (or_introl eq_refl) (or_introl eq_refl))
    as (r & st' & Hrun & Hcalls & Hans).
  exists st'. split.
  - rewrite Hrun. f_equal. f_equal. exact Hans.
  - exact Hcalls.
Defined.

Lemma get_heroes_with_any_arguments :
  let ToString := fun _ : value => js "0" in
  let JSON_stringify := fun _ : value => js "[]" in
  let upstream := fun _ : Effects.request =>
    Axios.Resolve {| Axios.status := Finite 200; Axios.data := VArr [] |} in
  exists r st',
    Router.handler ToString JSON_stringify upstream ∅ (js "get_heroes")
      (VStr (js "not an object")) Effects.initial
    = (Effects.Ok r, st')
    /\ map Effects.req_url (Effects.calls st') = [js "https://api.opendota.com/api/heroes"]
    /\ r = {| Router.content := [{| Router.type := js "text"; Router.text := js "[]" |}];
              Router.isError := false |}.
Proof.
  intros ToString JSON_stringify upstream.
  destruct (proj1 (tools_without_schema_ignore_arguments ToString JSON_stringify upstream ∅
                     (VStr (js "not an object")) Effects.initial))
    as (r & st' & Hrun & Hcalls & Hans).
  exists r, st'. split; [exact Hrun|]. split; [now rewrite Hcalls | exact Hans].
Defined.

(** A natural-language query that the dispatcher understands is served
    like the direct tool it names, called with the dispatcher's
    parameters as arguments: both issue the same single upstream
    request, and both print the same body or the same error; the
    natural-language answer only puts a label in front of the body. *)
Theorem natural_query_delegates
    ToString JSON_stringify upstream env o query st :
  get_field "query" o = VStr query ->
  Dispatcher.type (parseNaturalQuery query) <> js "search" ->
  exists req label natural st1 direct st2,
    Router.handler ToString JSON_stringify upstream env
      (js "natural_query") (VObj o) st
    = (Effects.Ok natural, st1)
    /\ Router.handler ToString JSON_stringify upstream env
         (Dispatcher.type (parseNaturalQuery query))
         (VObj (params (parseNaturalQuery query))) st
       = (Effects.Ok direct, st2)
    /\ Effects.calls st1 = Effects.calls st ++ [req]
    /\ Effects.calls st2 = Effects.calls st ++ [req]
    /\ answers ToString JSON_stringify (Router.client env) label (upstream req) natural
    /\ answers ToString JSON_stringify (Router.client env) [] (upstream req) direct
    /\ label <> [].
Proof.
  intros Hq Hns.
  assert (Hnum : forall key v, In (key, VNum v) (params (parseNaturalQuery query)) ->
                               number_value (VNum v)).
  { intros key v Hin.
    destruct (numeric_params_are_numerals query key v Hin) as (_ & _ & _ & _ & _ & _ & Hv).
    now destruct v. }
  destruct (parseNaturalQuery_shape query) as [[v Hp]|[[v Hp]|[[v Hp]|[[v Hp]|[[v Hp]|Hp]]]]].
  - specialize (Hnum "match_id"%string v). rewrite Hp in Hnum |- *.
    cbn [Dispatcher.type params].
    destruct (natural_get_match ToString JSON_stringify upstream env o query st _ Hq Hp)
      as (rn & stn & N1 & N2 & N3).
    destruct (direct_get_match ToString JSON_stringify upstream env (VNum v) st
                (Hnum (or_introl eq_refl))) as (rd & std & D1 & D2 & D3).
    eexists _, _, rn, stn, rd, std. repeat (split; [eassumption|]). discriminate.
  - destruct (search_players_query_shape query) as (name & _ & _ & _ & _ & Hname & _);
      [now rewrite Hp|].
    rewrite Hp in Hname |- *. cbn [Dispatcher.type params] in *.
    inversion Hname; subst v.
    destruct (natural_search_players ToString JSON_stringify upstream env o query st _ Hq Hp)
      as (rn & stn & N1 & N2 & N3).
    destruct (direct_search_players ToString JSON_stringify upstream env name st)
      as (rd & std & D1 & D2 & D3).
    eexists _, _, rn, stn, rd, std. repeat (split; [eassumption|]). discriminate.
  - specialize (Hnum "account_id"%string v). rewrite Hp in Hnum |- *.
    cbn [Dispatcher.type params].
    destruct (natural_get_player ToString JSON_stringify upstream env o query st _ Hq Hp)
      as (rn & stn & N1 & N2 & N3).
    destruct (direct_get_player ToString JSON_stringify upstream env (VNum v) st
                (Hnum (or_introl eq_refl))) as (rd & std & D1 & D2 & D3).
    eexists _, _, rn, stn, rd, std. repeat (split; [eassumption|]). discriminate.
  - specialize (Hnum "account_id"%string v). rewrite Hp in Hnum |- *.
    cbn [Dispatcher.type params].
    destruct (natural_get_player_recent_matches ToString JSON_stringify upstream env
                o query st _ Hq Hp) as (rn & stn & N1 & N2 & N3).
    destruct (direct_get_player_recent_matches ToString JSON_stringify upstream env
                (VNum v) st (Hnum (or_introl eq_refl))) as (rd & std & D1 & D2 & D3).
    eexists _, _, rn, stn, rd, std. repeat (split; [eassumption|]). discriminate.
  - specialize (Hnum "account_id"%string v). rewrite Hp in Hnum |- *.
    cbn [Dispatcher.type params].
    destruct (natural_get_player_heroes ToString JSON_stringify upstream env
                o query st _ Hq Hp) as (rn & stn & N1 & N2 & N3).
    destruct (direct_get_player_heroes ToString JSON_stringify upstream env
                (VNum v) st (Hnum (or_introl eq_refl))) as (rd & std & D1 & D2 & D3).
    eexists _, _, rn, stn, rd, std. repeat (split; [eassumption|]). discriminate.
  - exfalso. apply Hns. now rewrite Hp.
Qed.

Lemma natural_query_match_5 :
  let ToString := fun _ : value => js "5" in
  let JSON_stringify := fun _ : value => js "{}" in
  let upstream := fun _ : Effects.request =>
    Axios.Resolve {| Axios.status := Finite 200; Axios.data := VObj [] |} in
  exists req label natural st1 direct st2,
    Router.handler ToString JSON_stringify upstream ∅ (js "natural_query")
      (VObj [("query"%string, VStr (js "match 5"))]) Effects.initial
    = (Effects.Ok natural, st1)
    /\ Router.handler ToString JSON_stringify upstream ∅ (js "get_match")
         (VObj [("match_id"%string, VNum (Finite 5))]) Effects.initial
       = (Effects.Ok direct, st2)
    /\ Effects.calls st1 = [req] /\ Effects.calls st2 = [req]
    /\ Router.content natural
       = [{| Router.type := js "text"; Router.text := label ++ js "{}" |}]
    /\ Router.content direct
       = [{| Router.type := js "text"; Router.text := js "{}" |}]
    /\ label <> [].
Proof.
  intros ToString JSON_stringify upstream.
  destruct (natural_query_delegates ToString JSON_stringify upstream ∅
              [("query"%string, VStr (js "match 5"))] (js "match 5") Effects.initial
              eq_refl ltac:(discriminate))
    as (req & label & natural & st1 & direct & st2 & H1 & H2 & H3 & H4 & H5 & H6 & H7).
  exists req, label, natural, st1, direct, st2.
  split; [exact H1|]. split; [exact H2|]. split; [exact H3|]. split; [exact H4|].
  unfold answers in H5, H6. cbv beta iota in H5, H6.
  split; [now rewrite H5|]. split; [now rewrite H6|exact H7].
Defined.

(** End to end for a text in which the match-id pattern occurs: the
    id, a numeral of the text, is requested under [/matches/] with no
    query parameter but the key, and when the upstream answers, the
    response is the body printed as JSON under a heading that repeats
    the id. *)
Theorem natural_query_match_answer
    ToString JSON_stringify upstream env o query st :
  get_field "query" o = VStr query ->
  found matchIdPattern query ->
  exists ds pre post r st',
    numeral ds /\ query = pre ++ ds ++ post
    /\ let id := VNum (to_double (dec_value ds)) in
       let this := Router.client env in
       let req :=
         {| Effects.req_url := Client.baseURL this ++ js "/matches/" ++ ToString id;
            Effects.req_params := with_key this ∅;
            Effects.req_timeout := Client.timeout this;
            Effects.req_userAgent := Client.userAgent this |} in
       Router.handler ToString JSON_stringify upstream env
         (js "natural_query") (VObj o) st
       = (Effects.Ok r, st')
       /\ Effects.calls st' = Effects.calls st ++ [req]
       /\ forall response,
            upstream req = Axios.Resolve response ->
            r = {| Router.content :=
                     [{| Router.type := js "text";
                         Router.text :=
                           js "Match " ++ ToString id ++ js " information:"
                           ++ [10; 10] ++ JSON_stringify (Axios.data response) |}];
                   Router.isError := false |}.
Proof.
  intros Hq Hf. apply exec_found in Hf as [m Hm].
  destruct (matchId_wins query m Hm) as (ds & pre & post & Hn & Hqq & _ & Hp).
  destruct (natural_get_match ToString JSON_stringify upstream env o query st _ Hq Hp)
    as (r & st' & H1 & H2 & H3).
  exists ds, pre, post, r, st'. split; [exact Hn|]. split; [exact Hqq|].
  cbv zeta. split; [exact H1|]. split; [exact H2|].
  intros response Hup. unfold answers, request_of in H3.
  cbn [path own_params] in H3. rewrite Hup in H3.
  rewrite H3. rewrite <- !app_assoc. reflexivity.
Qed.

Lemma natural_query_show_me_match_42 :
  let ToString := fun _ : value => js "42" in
  let JSON_stringify := fun _ : value => js "{}" in
  let upstream := fun _ : Effects.request =>
    Axios.Resolve {| Axios.status := Finite 200; Axios.data := VObj [] |} in
  exists r st',
    Router.handler ToString JSON_stringify upstream ∅ (js "natural_query")
      (VObj [("query"%string, VStr (js "show me match 42"))]) Effects.initial
    = (Effects.Ok r, st')
    /\ map Effects.req_url (Effects.calls st')
       = [js "https://api.opendota.com/api/matches/42"]
    /\ Router.content r
       = [{| Router.type := js "text";
             Router.text := js "Match 42 information:" ++ [10; 10] ++ js "{}" |}].
Proof.
  intros ToString JSON_stringify upstream.
  assert (Hf : found matchIdPattern (js "show me match 42"))
    by (apply exec_found; vm_compute; eauto).
  destruct (natural_query_match_answer ToString JSON_stringify upstream ∅
              [("query"%string, VStr (js "show me match 42"))] (js "show me match 42")
              Effects.initial eq_refl Hf)
    as (ds & pre & post & r & st' & Hn & Hq & H1 & H2 & H3).
  exists r, st'. split; [exact H1|]. split.
  - rewrite H2. reflexivity.
  - rewrite (H3 _ eq_refl). reflexivity.
Defined.

(** ** The logger configuration *)

Lemma jsstr_eqb_neq a b : a <> b -> jsstr_eqb a b = false.
Proof.
  intros H. destruct (jsstr_eqb a b) eqn:E; [|reflexivity].
  apply jsstr_eqb_eq in E. contradiction.
Qed.

Lemma jsstr_eqb_refl a : jsstr_eqb a a = true.
Proof. now apply jsstr_eqb_eq. Qed.

(** Where the default logger instance writes, by [NODE_ENV]: the pretty
    console when it is unset, empty or [development]; a file named
    after the service in [LOG_DIR] (or [./logs]) when it is
    [production]; JSON on the console for every other value. *)
Theorem default_logger_destination (env : Client.environment) :
  let node_env := env !! "NODE_ENV"%string in
  let log_dir := match env !! "LOG_DIR"%string with
                 | Some (c :: s) => c :: s
                 | _ => js "./logs"
                 end in
  ((node_env = None \/ node_env = Some [] \/ node_env = Some (js "development")) ->
   Logger.new_ProductionLogger Logger.empty_config env = Logger.PrettyConsole)
  /\ (node_env = Some (js "production") ->
      Logger.new_ProductionLogger Logger.empty_config env
      = Logger.LogFile log_dir (js "opendota-mcp-server.log"))
  /\ (forall v, node_env = Some v ->
                v <> [] -> v <> js "development" -> v <> js "production" ->
                Logger.new_ProductionLogger Logger.empty_config env = Logger.JsonConsole).
Proof.
  cbv zeta.
  unfold Logger.new_ProductionLogger, Logger.createLogger, Logger.resolve,
    Logger.node_env_is_production, Logger.empty_config, Logger.or_str, Logger.nullish, jsstr.
  cbn [Logger.cfg_environment Logger.cfg_enableConsole Logger.cfg_enableFile
       Logger.cfg_logDir Logger.cfg_serviceName Logger.level Logger.environment
       Logger.enableConsole Logger.enableFile Logger.logDir Logger.serviceName
       Logger.version].
  split; [|split].
  - intros [H|[H|H]]; rewrite H; reflexivity.
  - intros H. rewrite H. reflexivity.
  - intros v H Hne Hd Hp. rewrite H.
    destruct v as [|c s]; [congruence|].
    rewrite (jsstr_eqb_neq _ _ Hd), (jsstr_eqb_neq _ _ Hp). reflexivity.
Qed.

Lemma resolve_strings (config : Logger.LoggerConfig) (env : Client.environment) :
  Logger.cfg_environment (Logger.resolve config env)
  = first_nonempty [Logger.environment config; env !! "NODE_ENV"%string] (js "development")
  /\ Logger.cfg_serviceName (Logger.resolve config env)
     = first_nonempty [Logger.serviceName config] (js "opendota-mcp-server")
  /\ Logger.cfg_logDir (Logger.resolve config env)
     = first_nonempty [Logger.logDir config; env !! "LOG_DIR"%string] (js "./logs").
Proof.
  unfold Logger.resolve, Logger.or_str, jsstr.
  cbn [Logger.cfg_environment Logger.cfg_serviceName Logger.cfg_logDir first_nonempty].
  destruct (Logger.environment config) as [[|]|], (env !! "NODE_ENV"%string) as [[|]|],
    (Logger.serviceName config) as [[|]|], (Logger.logDir config) as [[|]|],
    (env !! "LOG_DIR"%string) as [[|]|]; repeat split.
Qed.

(** The log goes to a file only when the resolved environment (the
    configured one, or else [NODE_ENV], or else [development]) is
    [production] and file logging is on, which it is when the caller
    asked for it or, if the caller said nothing, when [NODE_ENV] is
    [production]; the file is named after the service and lies in the
    configured directory, or else [LOG_DIR], or else [./logs].  Naming
    the environment [production] in the configuration is not enough on
    its own: with [NODE_ENV] anything else and [enableFile] left out,
    the log goes to the console as JSON. *)
Theorem file_logging_conditions (config : Logger.LoggerConfig) (env : Client.environment) :
  (forall dir file,
      Logger.new_ProductionLogger config env = Logger.LogFile dir file ->
      first_nonempty [Logger.environment config; env !! "NODE_ENV"%string]
        (js "development")
      = js "production"
      /\ (Logger.enableFile config = Some true
          \/ Logger.enableFile config = None
             /\ env !! "NODE_ENV"%string = Some (js "production"))
      /\ file = first_nonempty [Logger.serviceName config] (js "opendota-mcp-server")
                ++ js ".log"
      /\ dir = first_nonempty [Logger.logDir config; env !! "LOG_DIR"%string]
                 (js "./logs"))
  /\ (Logger.environment config = Some (js "production") ->
      Logger.enableFile config = None ->
      env !! "NODE_ENV"%string <> Some (js "production") ->
      Logger.new_ProductionLogger config env = Logger.JsonConsole).
Proof.
  destruct (resolve_strings config env) as (Renv & Rname & Rdir).
  split.
  - intros dir file. unfold Logger.new_ProductionLogger, Logger.createLogger.
    rewrite <- Renv, <- Rname, <- Rdir.
    destruct (jsstr_eqb (Logger.cfg_environment _) (js "development")
              && Logger.cfg_enableConsole _); [discriminate|].
    destruct (Logger.cfg_enableFile (Logger.resolve config env)) eqn:Ef;
      [|discriminate].
    destruct (jsstr_eqb (Logger.cfg_environment _) (js "production")) eqn:Ep;
      [|discriminate].
    cbn [andb]. intros [= <- <-]. apply jsstr_eqb_eq in Ep.
    split; [exact Ep|]. split; [|split; reflexivity].
    revert Ef. unfold Logger.resolve, Logger.nullish, Logger.node_env_is_production.
    cbn [Logger.cfg_enableFile].
    destruct (Logger.enableFile config) as [[|]|]; [now left|discriminate|].
    destruct (env !! "NODE_ENV"%string) as [v|]; [|discriminate].
    intros H. apply jsstr_eqb_eq in H. subst v. now right.
  - intros He Hf Hn.
    unfold Logger.new_ProductionLogger, Logger.createLogger, Logger.resolve,
      Logger.nullish, Logger.node_env_is_production.
    cbn [Logger.cfg_environment Logger.cfg_enableConsole Logger.cfg_enableFile
         Logger.cfg_logDir Logger.cfg_serviceName].
    rewrite He, Hf.
    change (Logger.or_str (Some (js "production")) _) with (js "production").
    change (jsstr_eqb (js "production") (js "development")) with false.
    cbn [andb].
    destruct (env !! "NODE_ENV"%string) as [v|]; [|reflexivity].
    rewrite jsstr_eqb_neq; [reflexivity|congruence].
Qed.

Lemma file_logging_examples :
  Logger.new_ProductionLogger
    {| Logger.level := None; Logger.environment := Some (js "production");
       Logger.enableConsole := None; Logger.enableFile := None;
       Logger.logDir := None; Logger.serviceName := None; Logger.version := None |}
    {[ "NODE_ENV"%string := js "staging" ]}
  = Logger.JsonConsole
  /\ (forall dir file,
        Logger.new_ProductionLogger Logger.empty_config
          {[ "NODE_ENV"%string := js "production" ]}
        = Logger.LogFile dir file ->
        file = js "opendota-mcp-server.log" /\ dir = js "./logs").
Proof.
  split.
  - apply (proj2 (file_logging_conditions _ _)); [reflexivity|reflexivity|discriminate].
  - intros dir file H.
    destruct (proj1 (file_logging_conditions Logger.empty_config
                       {[ "NODE_ENV"%string := js "production" ]}) dir file H)
      as (_ & _ & Hfile & Hdir).
    split; [exact Hfile | exact Hdir].
Defined.

Lemma default_logger_examples :
  Logger.new_ProductionLogger Logger.empty_config ∅ = Logger.PrettyConsole
  /\ Logger.new_ProductionLogger Logger.empty_config
       {[ "NODE_ENV"%string := js "production" ]}
     = Logger.LogFile (js "./logs") (js "opendota-mcp-server.log")
  /\ Logger.new_ProductionLogger Logger.empty_config {[ "NODE_ENV"%string := js "test" ]}
     = Logger.JsonConsole.
Proof.
  split; [|split].
  - apply (proj1 (default_logger_destination ∅)). now left.
  - exact (proj1 (proj2 (default_logger_destination
                           {[ "NODE_ENV"%string := js "production" ]})) eq_refl).
  - apply (proj2 (proj2 (default_logger_destination
                           {[ "NODE_ENV"%string := js "test" ]})) (js "test"));
      [reflexivity | discriminate | discriminate | discriminate].
Defined.

